(** * Social-media extraction orchestrator: a shallow embedding

    The development follows [social_media_extractor.py] (class
    [SocialMediaExtractor]) and the single-URL route of [main.py].

    Modelling conventions.
    - Python [str] values are Rocq strings of ASCII characters; [lower] and
      [strip] act on the ASCII range as [str.lower] and [str.strip] do there.
    - A Python [dict] is a [gmap string pyval]; the values that the result
      dictionaries carry are [None], strings and integers.
    - [time.time()], [time.sleep], [random.random()] and the platform fetch
      functions are effects on an explicit [World]: a rational clock, the
      [request_timestamps] table, and counters that index the environment's
      oracles (the k-th random draw, the k-th sleep overrun, the k-th answer
      of the fetch collaborators).
    - A raised exception is the [Exc] result of the state-and-exception monad
      [M]; its payload is [str(e)].
    - [print] calls write to stdout only and are left out.
    - Of Flask, [request.get_json()] is an input of the batch route, the
      decoded body or the exception it raises, and [jsonify] encodes Python
      values only; [int] takes a text of at most 4300 digits. *)

From Stdlib Require Import QArith Lqa.
From stdpp Require Import gmap strings list fin_maps sorting pretty.

Open Scope string_scope.

(** ** Python strings *)

Module Py.

Definition lower_ascii (c : Ascii.ascii) : Ascii.ascii :=
  let n := Ascii.nat_of_ascii c in
  if (65 <=? n)%nat && (n <=? 90)%nat then Ascii.ascii_of_nat (n + 32) else c.

(** [s.lower()] *)
Fixpoint lower (s : string) : string :=
  match s with
  | EmptyString => EmptyString
  | String c s' => String (lower_ascii c) (lower s')
  end.

(** [frag in s] *)
Fixpoint contains (frag s : string) : bool :=
  String.prefix frag s ||
  match s with
  | EmptyString => false
  | String _ s' => contains frag s'
  end.

(** [c.isspace()] on the ASCII range: TAB, LF, VT, FF, CR, FS, GS, RS, US
    and the space. *)
Definition isspace (c : Ascii.ascii) : bool :=
  let n := Ascii.nat_of_ascii c in
  ((9 <=? n)%nat && (n <=? 13)%nat) || ((28 <=? n)%nat && (n <=? 32)%nat).

Fixpoint lstrip (s : string) : string :=
  match s with
  | EmptyString => EmptyString
  | String c s' => if isspace c then lstrip s' else s
  end.

Fixpoint rstrip (s : string) : string :=
  match s with
  | EmptyString => EmptyString
  | String c s' =>
      match rstrip s' with
      | EmptyString => if isspace c then EmptyString else String c EmptyString
      | r => String c r
      end
  end.

(** [s.strip()] *)
Definition strip (s : string) : string := rstrip (lstrip s).

(** [any(keyword in s for keyword in keywords)] *)
Definition any_in (keywords : list string) (s : string) : bool :=
  existsb (fun keyword => contains keyword s) keywords.

(** [repr(s)] on the ASCII range: the text between apostrophes, or between
    double quotes when it holds an apostrophe and no double quote. The
    quote in use and the backslash are written after a backslash, TAB, LF
    and CR as [\t], [\n] and [\r], and every other character that is not
    printable as [\xhh]. Characters are named by their codes: 34 is the
    double quote, 39 the apostrophe, 92 the backslash. *)
Definition hex_digit (n : nat) : Ascii.ascii :=
  Ascii.ascii_of_nat (if (n <? 10)%nat then 48 + n else 87 + n).

Definition repr_char (quote : nat) (c : Ascii.ascii) : string :=
  let n := Ascii.nat_of_ascii c in
  if (n =? quote)%nat || (n =? 92)%nat then
    String (Ascii.ascii_of_nat 92) (String c "")
  else if (n =? 9)%nat then "\t"
  else if (n =? 10)%nat then "\n"
  else if (n =? 13)%nat then "\r"
  else if (n <? 32)%nat || (126 <? n)%nat then
    "\x" +:+ String (hex_digit (n / 16)) (String (hex_digit (n mod 16)) "")
  else String c "".

Fixpoint has_code (n : nat) (s : string) : bool :=
  match s with
  | EmptyString => false
  | String c s' => (Ascii.nat_of_ascii c =? n)%nat || has_code n s'
  end.

Fixpoint repr_body (quote : nat) (s : string) : string :=
  match s with
  | EmptyString => EmptyString
  | String c s' => repr_char quote c +:+ repr_body quote s'
  end.

Definition repr (s : string) : string :=
  let quote := if has_code 39 s && negb (has_code 34 s) then 34 else 39 in
  String (Ascii.ascii_of_nat quote)
         (repr_body quote s +:+ String (Ascii.ascii_of_nat quote) "").

End Py.

(** ** Python values and dictionaries *)

Inductive pyval : Type :=
| VNone
| VStr (s : string)
| VInt (n : Z).

#[global] Instance pyval_eq_dec : EqDecision pyval.
Proof. solve_decision. Defined.

Definition pyval_encode (v : pyval) : unit + (string + Z) :=
  match v with
  | VNone => inl tt
  | VStr s => inr (inl s)
  | VInt n => inr (inr n)
  end.

Definition pyval_decode (x : unit + (string + Z)) : pyval :=
  match x with
  | inl _ => VNone
  | inr (inl s) => VStr s
  | inr (inr n) => VInt n
  end.

#[global] Instance pyval_countable : Countable pyval.
Proof.
  refine (inj_countable' pyval_encode pyval_decode _).
  intros []; reflexivity.
Defined.

Abbreviation Dict := (gmap string pyval).

(** Truth value of a Python object: [None], [''] and [0] are false. *)
Definition truthy (v : pyval) : bool :=
  match v with
  | VNone => false
  | VStr s => negb (String.eqb s "")
  | VInt n => negb (n =? 0)%Z
  end.

(** pandas' [notna]: a cell is missing exactly when it holds the null value. *)
Definition notna (v : pyval) : bool :=
  match v with
  | VNone => false
  | _ => true
  end.

(** ** Rate limiting configuration *)

Record Config : Type := mkConfig {
  requests_per_minute : Z;
  delay_between_requests : Q;
  batch_size : Z;
  max_retries : Z
}.

Definition RATE_LIMIT_CONFIG : gmap string Config :=
  {[ "x" := mkConfig 50 1.2 25 2;
     "instagram" := mkConfig 30 2.5 15 3;
     "youtube" := mkConfig 100 0.5 50 2;
     "tiktok" := mkConfig 40 1.5 30 2;
     "default" := mkConfig 60 1.0 40 2 ]}.

Definition default_config : Config := mkConfig 60 1.0 40 2.

(** [RATE_LIMIT_CONFIG.get(platform, RATE_LIMIT_CONFIG['default'])] *)
Definition config_for (platform : string) : Config :=
  default default_config (RATE_LIMIT_CONFIG !! platform).

(** ** The environment and the world *)

(** What a fetch function does when called: it returns a dictionary or it
    raises an exception with message [str(e)]. *)
Inductive Outcome : Type :=
| Return (result : Dict)
| Raise (msg : string).

(** A fetch collaborator: its answer at the k-th fetch of the run, for the
    URL it is given. *)
Definition Fetch : Type := nat -> string -> Outcome.

Record Env : Type := mkEnv {
  (** the k-th value of [random.random()] *)
  random_draw : nat -> Q;
  (** how much longer than asked the k-th [time.sleep] lasts *)
  sleep_overrun : nat -> Q;
  (** the keys of the global [DRIVERS] after [setup_credentials] *)
  DRIVERS : gset string;
  (** what the [try] body of each fetch function does past its configuration
      guard: the network, scraping and browser work is external *)
  x_backend : Fetch;
  youtube_backend : Fetch;
  tiktok_backend : Fetch;
  stockbit_backend : Fetch;
  instagram_backend : Fetch;
  linkedin_backend : Fetch
}.

Record World : Type := mkWorld {
  clock : Q;
  request_timestamps : gmap string (list Q);
  draws : nat;
  sleeps : nat;
  calls : nat
}.

(** [SocialMediaExtractor.__init__]: six empty timestamp lists. *)
Definition init_timestamps : gmap string (list Q) :=
  {[ "x" := []; "instagram" := []; "youtube" := []; "tiktok" := [];
     "stockbit" := []; "linkedin" := [] ]}.

Definition init_world (t0 : Q) : World := mkWorld t0 init_timestamps 0 0 0.

Inductive Res (A : Type) : Type :=
| Ok (a : A)
| Exc (msg : string).
Arguments Ok {A} a.
Arguments Exc {A} msg.

Definition M (A : Type) : Type := World -> Res A * World.

Definition ret {A} (a : A) : M A := fun w => (Ok a, w).

Definition raise {A} (msg : string) : M A := fun w => (Exc msg, w).

Definition bind {A B} (c : M A) (k : A -> M B) : M B :=
  fun w =>
    match c w with
    | (Ok a, w') => k a w'
    | (Exc msg, w') => (Exc msg, w')
    end.

(** [try: body except Exception as e: handler(str(e))] *)
Definition try_except {A} (body : M A) (handler : string -> M A) : M A :=
  fun w =>
    match body w with
    | (Ok a, w') => (Ok a, w')
    | (Exc msg, w') => handler msg w'
    end.

Notation "x <~ c ;; k" := (bind c (fun x => k))
  (at level 100, c at next level, right associativity).
Notation "c >> k" := (bind c (fun _ => k))
  (at level 100, k at level 200, right associativity).

Definition Qlt_bool (x y : Q) : bool := negb (Qle_bool y x).

(** [time.time()] *)
Definition time_time : M Q := fun w => (Ok (clock w), w).

(** [time.sleep(d)]: refuses a negative length, otherwise at least [d]
    seconds pass. *)
Definition time_sleep (E : Env) (d : Q) : M unit :=
  fun w =>
    if Qlt_bool d 0 then (Exc "sleep length must be non-negative", w)
    else (Ok tt,
          mkWorld (clock w + d + sleep_overrun E (sleeps w))
                  (request_timestamps w) (draws w) (S (sleeps w)) (calls w)).

(** [random.random()] *)
Definition random_random (E : Env) : M Q :=
  fun w =>
    (Ok (random_draw E (draws w)),
     mkWorld (clock w) (request_timestamps w) (S (draws w)) (sleeps w) (calls w)).

(** [self.request_timestamps[platform]]; a missing key raises [KeyError],
    whose [str] is the [repr] of the key. *)
Definition get_timestamps (platform : string) : M (list Q) :=
  fun w =>
    match request_timestamps w !! platform with
    | Some tss => (Ok tss, w)
    | None => (Exc (Py.repr platform), w)
    end.

(** [self.request_timestamps[platform] = tss] *)
Definition set_timestamps (platform : string) (tss : list Q) : M unit :=
  fun w =>
    (Ok tt,
     mkWorld (clock w) (<[platform := tss]> (request_timestamps w))
             (draws w) (sleeps w) (calls w)).

(** [api_function(url)] *)
Definition call_fetch (api_function : Fetch) (url : string) : M Dict :=
  fun w =>
    let w' := mkWorld (clock w) (request_timestamps w) (draws w) (sleeps w)
                      (S (calls w)) in
    match api_function (calls w) url with
    | Return result => (Ok result, w')
    | Raise msg => (Exc msg, w')
    end.

(** ** The rate limiter *)

(** The timestamps that stay in the window: [now - ts < 60]. *)
Definition recent (now : Q) (tss : list Q) : list Q :=
  List.filter (fun ts => Qlt_bool (now - ts) 60) tss.

Definition rate_limit_delay (E : Env) (platform : string) : M unit :=
  let config := config_for platform in
  now <~ time_time ;;
  tss <~ get_timestamps platform ;;
  set_timestamps platform (recent now tss) >>
  kept <~ get_timestamps platform ;;
  (if (requests_per_minute config <=? Z.of_nat (length kept))%Z then
     match kept with
     | oldest :: _ =>
         let sleep_time := (60 - (now - oldest) + 1)%Q in
         time_sleep E sleep_time
     | [] => raise "list index out of range"
     end
   else ret tt) >>
  cur <~ get_timestamps platform ;;
  set_timestamps platform (cur ++ [now]) >>
  u <~ random_random E ;;
  let delay := (delay_between_requests config * (0.8 + 0.4 * u))%Q in
  time_sleep E delay.

(** ** The retrying executor *)

Definition QUOTA_KEYWORDS : list string :=
  ["rate limit"; "too many requests"; "quota"; "limit exceeded"].

(** [result.get('error') and any(keyword in result['error'].lower() ...)];
    [.lower()] exists on strings only. *)
Definition error_is_quota (result : Dict) : M bool :=
  match result !! "error" with
  | None => ret false
  | Some v =>
      if truthy v then
        match v with
        | VStr s => ret (Py.any_in QUOTA_KEYWORDS (Py.lower s))
        | VInt _ => raise "'int' object has no attribute 'lower'"
        | VNone => ret false
        end
      else ret false
  end.

(** What one turn of the [for attempt in range(...)] loop decides. *)
Inductive Turn : Type :=
| Continue
| Returned (result : Dict).

(** [(2 ** attempt) + random.random() * 2], then [time.sleep]. *)
Definition backoff (E : Env) (attempt : Z) : M unit :=
  u <~ random_random E ;;
  let wait_time := (inject_Z (2 ^ attempt) + u * 2)%Q in
  time_sleep E wait_time.

Definition error_record (url msg platform : string) : Dict :=
  {[ "url" := VStr url; "error" := VStr msg; "platform" := VStr platform ]}.

Definition safe_api_turn (E : Env) (platform : string) (api_function : Fetch)
    (url : string) (max_retries attempt : Z) : M Turn :=
  try_except
    (rate_limit_delay E platform >>
     result <~ call_fetch api_function url ;;
     quota <~ error_is_quota result ;;
     if quota && (attempt <? max_retries)%Z then
       backoff E attempt >> ret Continue
     else ret (Returned result))
    (fun e =>
       let error_str := Py.lower e in
       if Py.any_in QUOTA_KEYWORDS error_str then
         if (attempt <? max_retries)%Z then
           backoff E attempt >> ret Continue
         else
           ret (Returned (error_record url
             ("Rate limit exceeded after " +:+ pretty max_retries +:+ " retries")
             platform))
       else ret (Returned (error_record url e platform))).

Fixpoint safe_api_loop (E : Env) (platform : string) (api_function : Fetch)
    (url : string) (max_retries : Z) (attempts : list Z) : M Dict :=
  match attempts with
  | [] =>
      ret (error_record url
             ("Max retries (" +:+ pretty max_retries +:+ ") exceeded") platform)
  | attempt :: rest =>
      turn <~ safe_api_turn E platform api_function url max_retries attempt ;;
      match turn with
      | Continue => safe_api_loop E platform api_function url max_retries rest
      | Returned result => ret result
      end
  end.

(** [range(n)] *)
Definition range (n : Z) : list Z := seqZ 0 n.

Definition safe_api_call (E : Env) (platform : string) (api_function : Fetch)
    (url : string) (max_retries_arg : option Z) : M Dict :=
  let max_retries := default (max_retries (config_for platform)) max_retries_arg in
  safe_api_loop E platform api_function url max_retries (range (max_retries + 1)).

(** ** Platform detection *)

Definition detect_platform (url : string) : string :=
  let url_lower := Py.lower url in
  if Py.contains "twitter.com" url_lower || Py.contains "x.com" url_lower then "x"
  else if Py.contains "youtube.com" url_lower || Py.contains "youtu.be" url_lower
       then "youtube"
  else if Py.contains "tiktok.com" url_lower then "tiktok"
  else if Py.contains "stockbit.com" url_lower then "stockbit"
  else if Py.contains "instagram.com" url_lower then "instagram"
  else if Py.contains "linkedin.com" url_lower then "linkedin"
  else "unknown".

(** ** The fetch functions

    Each is [try: ... except Exception as e: return {"url": url, "error":
    str(e), "platform": p}]; three of them first check that their driver was
    configured. *)

Definition with_except (backend : Fetch) (platform : string) : Fetch :=
  fun k url =>
    match backend k url with
    | Return result => Return result
    | Raise e => Return (error_record url e platform)
    end.

Definition fetch_x_metrics (E : Env) : Fetch :=
  fun k url =>
    if decide ("x_api" ∈ DRIVERS E) then with_except (x_backend E) "x" k url
    else Return {[ "error" := VStr "X/Twitter not configured" ]}.

Definition fetch_youtube_metrics (E : Env) : Fetch :=
  fun k url =>
    if decide ("youtube_api" ∈ DRIVERS E)
    then with_except (youtube_backend E) "youtube" k url
    else Return {[ "error" := VStr "YouTube not configured" ]}.

Definition fetch_tiktok_metrics (E : Env) : Fetch :=
  with_except (tiktok_backend E) "tiktok".

Definition fetch_stockbit_metrics (E : Env) : Fetch :=
  with_except (stockbit_backend E) "stockbit".

Definition fetch_instagram_metrics (E : Env) : Fetch :=
  fun k url =>
    if decide ("instagram_loader" ∈ DRIVERS E)
    then with_except (instagram_backend E) "instagram" k url
    else Return {[ "error" := VStr "Instagram not configured" ]}.

Definition fetch_linkedin_metrics (E : Env) : Fetch :=
  with_except (linkedin_backend E) "linkedin".

(** ** The batch orchestrator *)

Definition unsupported_record (url : string) : Dict :=
  {[ "date" := VNone; "url" := VStr url; "author" := VNone; "content" := VNone;
     "followers" := VNone; "views" := VNone; "likes" := VNone;
     "comments" := VNone; "saves" := VNone; "shares" := VNone;
     "reposts" := VNone; "platform" := VStr "unknown";
     "error" := VStr "Unsupported platform" ]}.

Definition processors (E : Env) : gmap string (string -> M Dict) :=
  {[ "x" := fun url => safe_api_call E "x" (fetch_x_metrics E) url None;
     "youtube" :=
       fun url => safe_api_call E "youtube" (fetch_youtube_metrics E) url None;
     "tiktok" :=
       fun url => safe_api_call E "tiktok" (fetch_tiktok_metrics E) url None;
     "stockbit" :=
       fun url => safe_api_call E "stockbit" (fetch_stockbit_metrics E) url None;
     "instagram" :=
       fun url => safe_api_call E "instagram" (fetch_instagram_metrics E) url None;
     "linkedin" :=
       fun url => safe_api_call E "linkedin" (fetch_linkedin_metrics E) url None ]}.

(** The body of [for url in links]. *)
Definition process_link (E : Env) (url : string) : M Dict :=
  let platform := detect_platform url in
  match processors E !! platform with
  | Some processor => processor url
  | None => ret (unsupported_record url)
  end.

Fixpoint process_each (E : Env) (links : list string) (all_results : list Dict)
    : M (list Dict) :=
  match links with
  | [] => ret all_results
  | url :: rest =>
      result <~ process_link E url ;;
      process_each E rest (all_results ++ [result])
  end.

Definition standard_columns : list string :=
  ["date"; "url"; "author"; "content"; "followers"; "views"; "likes";
   "comments"; "saves"; "shares"; "reposts"; "platform"; "error"].

(** [df[col]] of one row: a missing cell is null. *)
Definition cell (col : string) (row : Dict) : pyval := default VNone (row !! col).

(** One row of [pd.DataFrame(all_results)] after the missing columns were
    added and the columns reordered: exactly the standard columns. *)
Definition to_record (row : Dict) : Dict :=
  list_to_map (map (fun col => (col, cell col row)) standard_columns).

(** [series.value_counts().to_dict()]: null cells are not counted. *)
Definition value_counts (values : list pyval) : gmap pyval Z :=
  foldr (fun v counts =>
           if notna v then <[v := (1 + default 0 (counts !! v))%Z]> counts
           else counts) ∅ values.

(** [df[df['platform'] == platform]['error'].notna().sum()] *)
Definition error_count (df : list Dict) (platform : pyval) : Z :=
  Z.of_nat (length (List.filter
    (fun row => bool_decide (cell "platform" row = platform)
                && notna (cell "error" row)) df)).

Record Stats : Type := mkStats {
  total : Z;
  success : Z;
  errors : Z
}.

Definition error_stats (df : list Dict) : gmap pyval Stats :=
  map_imap (fun platform count =>
              Some (mkStats count (count - error_count df platform)
                            (error_count df platform)))
           (value_counts (map (cell "platform") df)).

Record Summary : Type := mkSummary {
  total_processed : Z;
  platform_stats : gmap pyval Stats;
  rate_limiting_applied : bool
}.

Inductive BatchResponse : Type :=
| NoLinks                                       (* {"error": "No links provided"} *)
| Batch (results : list Dict) (summary : Summary).

Definition process_links (E : Env) (links : list string) : M BatchResponse :=
  match links with
  | [] => ret NoLinks
  | _ =>
      all_results <~ process_each E links [] ;;
      let df := map to_record all_results in
      ret (Batch df (mkSummary (Z.of_nat (length df)) (error_stats df) true))
  end.

(** ** The single-URL route of [main.py] *)

Inductive Response : Type :=
| ResultJson (result : Dict)                    (* {"result": result}, 200 *)
| ErrorJson (msg : string) (status : Z).        (* {"error": msg}, status *)

Definition single_processors (E : Env) : gmap string Fetch :=
  {[ "x" := fetch_x_metrics E;
     "youtube" := fetch_youtube_metrics E;
     "tiktok" := fetch_tiktok_metrics E;
     "stockbit" := fetch_stockbit_metrics E;
     "instagram" := fetch_instagram_metrics E;
     "linkedin" := fetch_linkedin_metrics E ]}.

(** [data.get('url', '').strip()]; only strings have [strip]. *)
Definition url_of_request (data : Dict) : M string :=
  match default (VStr "") (data !! "url") with
  | VStr s => ret (Py.strip s)
  | VNone => raise "'NoneType' object has no attribute 'strip'"
  | VInt _ => raise "'int' object has no attribute 'strip'"
  end.

(** [data] is the decoded JSON object of the request; an empty one is
    refused like a missing one. *)
Definition extract_single (E : Env) (data : Dict) : World -> Response * World :=
  fun w =>
    let body : M Response :=
      if decide (data = ∅) then ret (ErrorJson "No JSON data provided" 400)
      else
        url <~ url_of_request data ;;
        if String.eqb url "" then ret (ErrorJson "No URL provided" 400)
        else
          let platform := detect_platform url in
          match single_processors E !! platform with
          | Some fetch => result <~ call_fetch fetch url ;; ret (ResultJson result)
          | None => ret (ResultJson (unsupported_record url))
          end in
    match body w with
    | (Ok response, w') => (response, w')
    | (Exc e, w') => (ErrorJson ("Internal server error: " +:+ e) 500, w')
    end.

(** The single-URL entry point as the specification words it: the URL is
    classified and, for a known platform, fetched through the retrying
    executor, as a batch of that one URL is. *)
Definition processOne_spec (E : Env) (url : string) : M Dict :=
  process_link E url.

(** ** Vocabulary of the statements *)

(** [frag] occurs in [s] as a contiguous run of characters. *)
Definition occurs_in (frag s : string) : Prop :=
  exists pre post, s = pre +:+ frag +:+ post.

(** The oracles behave as the library promises: [random.random()] lies in
    [0, 1) and a sleep never ends early. *)
Definition oracle_ok (E : Env) : Prop :=
  (forall k, 0 <= random_draw E k /\ random_draw E k < 1)%Q /\
  (forall k, 0 <= sleep_overrun E k)%Q.

(** Every timestamp list is in the order the requests were made and holds
    no time of the future. *)
Definition timestamps_wf (w : World) : Prop :=
  forall p tss, request_timestamps w !! p = Some tss ->
    StronglySorted Qle tss /\ Forall (fun ts => ts <= clock w)%Q tss.

(** The message carries one of the quota markers, in any letter case. *)
Definition quota_text (msg : string) : bool :=
  Py.any_in QUOTA_KEYWORDS (Py.lower msg).

(** The fetch failed with a quota error, returned or raised. *)
Definition quota_failure (o : Outcome) : bool :=
  match o with
  | Return result =>
      match result !! "error" with
      | Some (VStr s) => negb (String.eqb s "") && quota_text s
      | _ => false
      end
  | Raise msg => quota_text msg
  end.



(** The error field is absent, null, or a text without a quota marker. *)
Definition no_quota_error (result : Dict) : bool :=
  match result !! "error" with
  | None | Some VNone => true
  | Some (VStr s) => negb (quota_text s)
  | Some (VInt _) => false
  end.


(** The platforms that have a processor. *)
Definition PLATFORMS : list string :=
  ["x"; "youtube"; "tiktok"; "stockbit"; "instagram"; "linkedin"].

(** The extractor holds a timestamp list for every platform it processes,
    as [__init__] sets it up. *)
Definition ready (w : World) : Prop :=
  forall p, p ∈ PLATFORMS -> is_Some (request_timestamps w !! p).

(** No timestamp list is lost between two worlds. *)
Definition keys_kept (w w' : World) : Prop :=
  forall p, is_Some (request_timestamps w !! p) ->
            is_Some (request_timestamps w' !! p).

(** The records of a platform, and whether a record carries an error. *)
Definition records_with (platform : pyval) (records : list Dict) : list Dict :=
  List.filter (fun record => bool_decide (record !! "platform" = Some platform))
              records.

Definition failed (record : Dict) : bool :=
  match record !! "error" with
  | None | Some VNone => false
  | Some _ => true
  end.

(** A record with every standard column. *)
Definition complete (record : Dict) : Prop :=
  forall col, col ∈ standard_columns -> is_Some (record !! col).

Definition metric_columns : list string :=
  ["date"; "author"; "content"; "followers"; "views"; "likes"; "comments";
   "saves"; "shares"; "reposts"].

(** What one turn of the retry loop decides from the outcome of its fetch,
    effects apart. *)
Definition verdict (url platform : string) (max_retries attempt : Z)
    (o : Outcome) : Turn :=
  match o with
  | Return result =>
      match result !! "error" with
      | Some (VStr s) =>
          if negb (String.eqb s "") && quota_text s && (attempt <? max_retries)%Z
          then Continue else Returned result
      | Some (VInt n) =>
          if (n =? 0)%Z then Returned result
          else Returned (error_record url "'int' object has no attribute 'lower'"
                                      platform)
      | _ => Returned result
      end
  | Raise msg =>
      if quota_text msg then
        if (attempt <? max_retries)%Z then Continue
        else Returned (error_record url
               ("Rate limit exceeded after " +:+ pretty max_retries +:+ " retries")
               platform)
      else Returned (error_record url msg platform)
  end.

(** ** Sample environments and collaborators *)

Definition sample_record (url platform : string) : Dict :=
  {[ "url" := VStr url; "likes" := VInt 7; "platform" := VStr platform ]}.

(** Fails [n] times in the way given, then delivers. *)
Definition flaky (n : nat) (failure : Outcome) (platform : string) : Fetch :=
  fun k url => if (k <? n)%nat then failure else Return (sample_record url platform).

Definition always (o : Outcome) : Fetch := fun _ _ => o.

(** Mid-range random draws, exact sleeps, the given drivers, one backend
    behaviour for all platforms. *)
Definition sample_env (drivers : gset string) (backend : Fetch) : Env :=
  mkEnv (fun _ => 1 # 2) (fun _ => 0%Q) drivers
        backend backend backend backend backend backend.

Definition tiktok_url : string := "https://www.tiktok.com/@a/video/1".

(** The page answers HTTP 429: [raise_for_status] raises inside the fetch
    function, whose [except] clause turns it into an error record. *)
Definition too_many : Outcome := Raise "429 Client Error: Too Many Requests".

Definition too_many_record : Dict :=
  error_record tiktok_url "429 Client Error: Too Many Requests" "tiktok".

(** No driver configured; the backends would deliver. *)
Definition unconfigured_env : Env :=
  sample_env ∅ (fun _ url => Return (sample_record url "x")).

(** The first fetch of the run is throttled, the later ones deliver. *)
Definition throttled_once_env : Env :=
  sample_env ∅ (flaky 1 too_many "tiktok").

(** Every fetch is throttled. *)
Definition throttled_env : Env := sample_env ∅ (always too_many).

(** The request bodies of the single-URL route. *)
Definition tiktok_request : Dict := {[ "url" := VStr tiktok_url ]}.

Definition padded_request : Dict :=
  {[ "url" := VStr "  https://www.tiktok.com/@a/video/1 " ]}.

(** Thirty requests to Instagram in the last ten seconds. *)
Definition busy_world : World :=
  mkWorld 10 {[ "instagram" := repeat 0%Q 30 ]} 0 0 0.

(** The world after the batch or the call, and what came out. *)
Definition batch_results (run : Res BatchResponse * World) : list Dict :=
  match fst run with
  | Ok (Batch results _) => results
  | _ => []
  end.

Definition batch_stats (run : Res BatchResponse * World) : gmap pyval Stats :=
  match fst run with
  | Ok (Batch _ summary) => platform_stats summary
  | _ => ∅
  end.

(** ** More of the code: the batch route, the TikTok helpers, the front end *)

From Stdlib Require Import Ascii.

(** What [json.loads] and [request.get_json] deliver. A float is a rational
    or one of the special values. *)
Inductive pyfloat : Type :=
| Finite (q : Q)
| Infinite
| NotANumber.

#[warnings="-register-all"]
Inductive jval : Type :=
| JNull
| JBool (b : bool)
| JInt (n : Z)
| JFloat (f : pyfloat)
| JStr (s : string)
| JArr (items : list jval)
| JObj (fields : gmap string jval).

(** Truth value of a decoded JSON value. *)
Definition jtruthy (v : jval) : bool :=
  match v with
  | JNull => false
  | JBool b => b
  | JInt n => negb (n =? 0)%Z
  | JFloat (Finite q) => negb (Qeq_bool q 0)
  | JFloat _ => true
  | JStr s => negb (String.eqb s "")
  | JArr items => match items with [] => false | _ => true end
  | JObj fields => negb (bool_decide (fields = ∅))
  end.

(** What [request.get_json()] does with the body of a request: it delivers
    the decoded value, or it raises (a body that is empty or is no JSON, a
    content type that is not JSON). *)
Inductive GetJson : Type :=
| Decoded (data : jval)
| NotDecoded (e : string).

(** [type(v).__name__] *)
Definition type_name (v : jval) : string :=
  match v with
  | JNull => "NoneType"
  | JBool _ => "bool"
  | JInt _ => "int"
  | JFloat _ => "float"
  | JStr _ => "str"
  | JArr _ => "list"
  | JObj _ => "dict"
  end.

(** The answers of the batch route. *)
Inductive BatchReply : Type :=
| BatchJson (response : BatchResponse)            (* jsonify(result), 200 *)
| BatchErrorJson (msg : string) (status : Z).     (* {"error": msg}, status *)

(** [jsonify(result)]. In every entry of the platform statistics [errors]
    is the [numpy.int64] that [.notna().sum()] gives and [success] is the
    difference with it, a [numpy.int64] too; the JSON encoder knows Python
    integers only and refuses them with [TypeError]. The records and
    [total_processed] hold Python values and are encoded. The platform
    values, the keys of the statistics, are texts, as the fetch functions
    and the executor write them. *)
Definition jsonify (result : BatchResponse) : Res BatchResponse :=
  match result with
  | NoLinks => Ok result
  | Batch _ summary =>
      if decide (platform_stats summary = ∅) then Ok result
      else Exc "Object of type int64 is not JSON serializable"
  end.

(** [link.strip()] for every [link] that is a string and is not blank. *)
Definition valid_links (links : list jval) : list string :=
  omap (fun link =>
          match link with
          | JStr s => if String.eqb (Py.strip s) "" then None else Some (Py.strip s)
          | _ => None
          end) links.

(** [data.get('links', [])]; only a dictionary has [get]. *)
Definition links_of_request (data : jval) : Res jval :=
  match data with
  | JObj fields => Ok (default (JArr []) (fields !! "links"))
  | _ => Exc ("'" +:+ type_name data +:+ "' object has no attribute 'get'")
  end.

(** The route [/extract] of [main.py]; [body] is what [request.get_json()]
    does. The whole body of the route stands in [try: ... except Exception
    as e], which answers 500 with [str(e)]. *)
Definition extract_engagement (E : Env) (body : GetJson)
    : World -> BatchReply * World :=
  fun w =>
    let internal_error e w' :=
      (BatchErrorJson ("Internal server error: " +:+ e) 500, w') in
    match body with
    | NotDecoded e => internal_error e w
    | Decoded data =>
        if negb (jtruthy data) then (BatchErrorJson "No JSON data provided" 400, w)
        else
          match links_of_request data with
          | Exc e => internal_error e w
          | Ok links =>
              if negb (jtruthy links) then
                (BatchErrorJson "No links provided" 400, w)
              else
                match links with
                | JArr items =>
                    match valid_links items with
                    | [] => (BatchErrorJson "No valid links provided" 400, w)
                    | valid =>
                        match process_links E valid w with
                        | (Ok result, w') =>
                            match jsonify result with
                            | Ok response => (BatchJson response, w')
                            | Exc e => internal_error e w'
                            end
                        | (Exc e, w') => internal_error e w'
                        end
                    end
                | _ => (BatchErrorJson "Links must be a list" 400, w)
                end
          end
    end.

(** The batch tab of [streamlit_app.py]:
    [[url.strip() for url in urls_text.split('\n') if url.strip()]]. *)
Fixpoint split_lines (line text : string) : list string :=
  match text with
  | EmptyString => [line]
  | String c rest =>
      if Ascii.eqb c "010"%char then line :: split_lines "" rest
      else split_lines (line +:+ String c "") rest
  end.

Definition batch_urls (urls_text : string) : list string :=
  omap (fun url => if String.eqb (Py.strip url) "" then None else Some (Py.strip url))
       (split_lines "" urls_text).

(** [s.replace(old, new)] for an [old] of one character. *)
Fixpoint replace_char (old : Ascii.ascii) (new s : string) : string :=
  match s with
  | EmptyString => EmptyString
  | String c rest =>
      if Ascii.eqb c old then new +:+ replace_char old new rest
      else String c (replace_char old new rest)
  end.

Definition isdigit_ascii (c : Ascii.ascii) : bool :=
  let n := Ascii.nat_of_ascii c in (48 <=? n)%nat && (n <=? 57)%nat.

Fixpoint all_digits (s : string) : bool :=
  match s with
  | EmptyString => true
  | String c rest => isdigit_ascii c && all_digits rest
  end.

(** [s.isdigit()]: not empty and digits only. *)
Definition isdigit (s : string) : bool := negb (String.eqb s "") && all_digits s.

(** The value of a string of digits. *)
Fixpoint int_of_digits (acc : Z) (s : string) : Z :=
  match s with
  | EmptyString => acc
  | String c rest =>
      int_of_digits (10 * acc + (Z.of_nat (Ascii.nat_of_ascii c) - 48)) rest
  end.

(** [sys.int_max_str_digits], as Python sets it. *)
Definition int_max_str_digits : nat := 4300.

(** [int(s)] for a string of digits: a text of more than
    [int_max_str_digits] digits is refused with [ValueError]. *)
Definition int_of_str (s : string) : option Z :=
  if (int_max_str_digits <? String.length s)%nat then None
  else Some (int_of_digits 0 s).

(** [_parse_int]: [int(v)] of a number rounds towards zero and raises on
    the special floats; the [except] clause answers that, and the
    [ValueError] of a text that is too long, with [None]; a boolean is an
    integer. *)
Definition _parse_int (v : jval) : option Z :=
  match v with
  | JNull => None
  | JBool b => Some (if b then 1 else 0)%Z
  | JInt n => Some n
  | JFloat (Finite q) => Some (Z.quot (Qnum q) (Z.pos (Qden q)))
  | JFloat _ => None
  | JStr s =>
      let v := Py.strip (replace_char ","%char "" s) in
      if isdigit v then int_of_str v else None
  | _ => None
  end.

(** A character that [\w] matches. *)
Definition isword_ascii (c : Ascii.ascii) : bool :=
  let n := Ascii.nat_of_ascii c in
  isdigit_ascii c || ((65 <=? n)%nat && (n <=? 90)%nat)
  || ((97 <=? n)%nat && (n <=? 122)%nat) || (n =? 95)%nat.

(** [re.findall(r'#\w+', caption)], one pass over the text: [open] holds the
    word characters read since the last [#], [found] the tags so far. *)
Definition close_tag (open : option string) (found : list string) : list string :=
  match open with
  | Some (String c word) => (found ++ ["#" +:+ String c word])%list
  | _ => found
  end.

Fixpoint scan_tags (open : option string) (found : list string) (text : string)
    : list string :=
  match text with
  | EmptyString => close_tag open found
  | String c rest =>
      match open with
      | Some word =>
          if isword_ascii c then scan_tags (Some (word +:+ String c "")) found rest
          else scan_tags (if Ascii.eqb c "#"%char then Some "" else None)
                         (close_tag open found) rest
      | None =>
          scan_tags (if Ascii.eqb c "#"%char then Some "" else None) found rest
      end
  end.

Definition findall_hashtags (caption : string) : list string :=
  scan_tags None [] caption.

(** The loop of [_extract_hashtags]: the first spelling of every tag, in
    order. *)
Fixpoint first_spellings (seen : gset string) (out : list string)
    (tags : list string) : list string :=
  match tags with
  | [] => out
  | tag :: rest =>
      let t := Py.lower tag in
      if decide (t ∈ seen) then first_spellings seen out rest
      else first_spellings ({[t]} ∪ seen) (out ++ [tag])%list rest
  end.

Definition _extract_hashtags (caption : jval) : list string :=
  match caption with
  | JStr s =>
      if String.eqb s "" then [] else first_spellings ∅ [] (findall_hashtags s)
  | _ => []
  end.

(** ** More vocabulary *)

(** The shortest pause between two requests to a platform. *)
Definition min_delay (platform : string) : Q :=
  (delay_between_requests (config_for platform) * 0.8)%Q.

(** The recorded requests to [platform] lie at least the shortest pause
    apart, and the last one at least that long ago. *)
Definition spaced (platform : string) (w : World) : Prop :=
  forall tss, request_timestamps w !! platform = Some tss ->
    StronglySorted (fun a b => a + min_delay platform <= b)%Q tss /\
    Forall (fun ts => ts + min_delay platform <= clock w)%Q tss.

(** From [w] to [w'] time does not run backwards, no fetch is forgotten,
    only the timestamps of [platform] may have changed, and the order and
    the spacing of the timestamp lists are kept. *)
Definition advances (platform : string) (w w' : World) : Prop :=
  (clock w <= clock w')%Q /\
  (calls w <= calls w')%nat /\
  (forall q, q <> platform ->
     request_timestamps w' !! q = request_timestamps w !! q) /\
  (is_Some (request_timestamps w !! platform) ->
   is_Some (request_timestamps w' !! platform)) /\
  (request_timestamps w !! platform = None ->
   request_timestamps w' !! platform = None) /\
  (timestamps_wf w -> timestamps_wf w') /\
  (spaced platform w -> spaced platform w').

(** From [w] to [w'], over any number of calls: time does not run
    backwards, no fetch is forgotten, the same platforms have a timestamp
    list, and the order and the spacing of the lists are kept. *)
Definition moves_on (w w' : World) : Prop :=
  (clock w <= clock w')%Q /\
  (calls w <= calls w')%nat /\
  (forall q, is_Some (request_timestamps w' !! q) <->
             is_Some (request_timestamps w !! q)) /\
  (timestamps_wf w -> timestamps_wf w') /\
  (forall q, spaced q w -> spaced q w').

(** The links that have a processor. *)
Definition known_links (links : list string) : list string :=
  List.filter (fun url => negb (String.eqb (detect_platform url) "unknown")) links.

(** The fetch function of a platform. *)
Definition no_fetch : Fetch := fun _ _ => Raise "".

Definition fetch_of (E : Env) (platform : string) : Fetch :=
  default no_fetch (single_processors E !! platform).

(** Word characters only. *)
Fixpoint all_word (s : string) : bool :=
  match s with
  | EmptyString => true
  | String c rest => isword_ascii c && all_word rest
  end.

(** A hashtag: [#] and at least one word character after it. *)
Definition is_tag (tag : string) : Prop :=
  exists c word, tag = String "#" (String c word) /\
                 all_word (String c word) = true.

(** Where a record of the executor comes from: a fetch made between the two
    worlds returned it, or the executor wrote it, with URL, error and
    platform. *)
Definition fetched_or_written (api_function : Fetch) (url platform : string)
    (w w' : World) (result : Dict) : Prop :=
  (exists k, (calls w <= k < calls w')%nat /\
             api_function k url = Return result) \/
  (exists msg, result = error_record url msg platform).

(** Drivers are configured and every record that a backend delivers names
    the URL it was asked for and a platform. *)
Definition names_url (backend : Fetch) : Prop :=
  forall k url result, backend k url = Return result ->
    result !! "url" = Some (VStr url) /\
    exists p, result !! "platform" = Some p /\ p <> VNone.

Definition well_behaved (E : Env) : Prop :=
  "x_api" ∈ DRIVERS E /\ "youtube_api" ∈ DRIVERS E /\
  "instagram_loader" ∈ DRIVERS E /\
  names_url (x_backend E) /\ names_url (youtube_backend E) /\
  names_url (tiktok_backend E) /\ names_url (stockbit_backend E) /\
  names_url (instagram_backend E) /\ names_url (linkedin_backend E).

(** The summary of a batch, and its world. *)
Definition batch_total (run : Res BatchResponse * World) : Z :=
  match fst run with
  | Ok (Batch _ summary) => total_processed summary
  | _ => 0
  end.

(** More samples. *)
Definition delivering_env : Env :=
  sample_env {[ "x_api"; "youtube_api"; "instagram_loader" ]}
             (fun _ url => Return (sample_record url "sample")).

Definition batch_request : gmap string jval :=
  {[ "links" := JArr [JStr "  https://example.org/a "; JInt 7; JStr "   ";
                      JStr "https://example.org/b"] ]}.

(** Two links whose drivers are not configured. *)
Definition unconfigured_request : gmap string jval :=
  {[ "links" := JArr [JStr "https://x.com/u/status/123";
                      JStr "https://www.instagram.com/p/C1/"] ]}.


(** A request without any link that is a string and not blank. *)
Definition blank_request : gmap string jval :=
  {[ "links" := JArr [JInt 7; JStr "   "] ]}.

(** Three requests to Instagram, three seconds apart, the last one four
    seconds ago. *)
Definition paced_world : World :=
  mkWorld 10 {[ "instagram" := [0; 3; 6]%Q ]} 0 0 0.

Definition numeric_error_record : Dict :=
  {[ "url" := VStr tiktok_url; "error" := VInt 429 ]}.


(** ** Proof steps *)

(** Read the fields of a world written out as a record. *)
Ltac world_fields :=
  cbn [clock request_timestamps draws sleeps calls] in *.

(** Membership in a list that is written out. *)
Ltac in_list :=
  apply list_elem_of_In; unfold standard_columns, PLATFORMS; simpl; tauto.

(** Open one step of a monadic computation. *)
Ltac run_step :=
  unfold bind, ret, raise, try_except, time_time, get_timestamps,
    set_timestamps, random_random, call_fetch;
  world_fields.

(** ** Python strings: lemmas *)

Lemma append_cons (c : Ascii.ascii) (a b : string) :
  String c a +:+ b = String c (a +:+ b).
Proof. reflexivity. Qed.

Lemma prefix_spec (p s : string) :
  String.prefix p s = true <-> exists post, s = p +:+ post.
Proof.
  revert s. induction p as [|a p IH]; intros s.
  - split; [intros _; exists s; reflexivity | destruct s; reflexivity].
  - destruct s as [|b s]; simpl;
      [split; [discriminate | intros [post H]; discriminate]|].
    destruct (Ascii.ascii_dec a b) as [->|Hne].
    + rewrite IH. split; intros [post H]; exists post;
        rewrite append_cons in *; congruence.
    + split; [discriminate|].
      intros [post H]. rewrite append_cons in H. congruence.
Qed.

Lemma contains_spec (frag s : string) :
  Py.contains frag s = true <-> occurs_in frag s.
Proof.
  unfold occurs_in. induction s as [|c s IH]; cbn [Py.contains].
  - rewrite orb_false_r, prefix_spec. split.
    + intros [post H]. exists "", post. exact H.
    + intros (pre & post & H). destruct pre; [exists post; exact H | discriminate].
  - rewrite orb_true_iff, prefix_spec, IH. split.
    + intros [[post H] | (pre & post & H)].
      * exists "", post. exact H.
      * exists (String c pre), post. rewrite append_cons. congruence.
    + intros (pre & post & H). destruct pre as [|c' pre].
      * left. exists post. exact H.
      * right. exists pre, post. rewrite append_cons in H. congruence.
Qed.

Lemma contains_false (frag s : string) :
  Py.contains frag s = false <-> ~ occurs_in frag s.
Proof.
  rewrite <- contains_spec. destruct (Py.contains frag s); split; congruence.
Qed.

Lemma lower_app (a b : string) : Py.lower (a +:+ b) = Py.lower a +:+ Py.lower b.
Proof.
  induction a as [|c a IH]; [reflexivity|].
  rewrite append_cons. simpl. rewrite IH. reflexivity.
Qed.

Lemma lower_ascii_idem (c : Ascii.ascii) :
  Py.lower_ascii (Py.lower_ascii c) = Py.lower_ascii c.
Proof. destruct c as [[] [] [] [] [] [] [] []]; reflexivity. Qed.

Lemma lower_idem (s : string) : Py.lower (Py.lower s) = Py.lower s.
Proof.
  induction s as [|c s IH]; simpl; [reflexivity|].
  rewrite lower_ascii_idem, IH. reflexivity.
Qed.

(** ** The platform classifier *)

Lemma detect_platform_range (url : string) :
  detect_platform url ∈
    ["x"; "youtube"; "tiktok"; "stockbit"; "instagram"; "linkedin"; "unknown"].
Proof.
  unfold detect_platform.
  repeat match goal with |- context [if ?b then _ else _] => destruct b end;
    in_list.
Qed.

(** C9. The classifier is a total function of the URL alone. On the
    lower-cased URL it tries the fragments in the order twitter.com / x.com,
    youtube.com / youtu.be, tiktok.com, stockbit.com, instagram.com,
    linkedin.com; the first group with a fragment occurring in the URL gives
    the platform, and a URL in which none occurs is unknown. In particular a
    URL holding twitter.com or x.com in any letter case is an X URL whatever
    else it holds. *)
Theorem detect_platform_first_match (url : string) :
  let has frag := occurs_in frag (Py.lower url) in
  let x := has "twitter.com" \/ has "x.com" in
  let youtube := has "youtube.com" \/ has "youtu.be" in
  (x -> detect_platform url = "x") /\
  (~ x -> youtube -> detect_platform url = "youtube") /\
  (~ x -> ~ youtube -> has "tiktok.com" -> detect_platform url = "tiktok") /\
  (~ x -> ~ youtube -> ~ has "tiktok.com" -> has "stockbit.com" ->
     detect_platform url = "stockbit") /\
  (~ x -> ~ youtube -> ~ has "tiktok.com" -> ~ has "stockbit.com" ->
     has "instagram.com" -> detect_platform url = "instagram") /\
  (~ x -> ~ youtube -> ~ has "tiktok.com" -> ~ has "stockbit.com" ->
     ~ has "instagram.com" -> has "linkedin.com" ->
     detect_platform url = "linkedin") /\
  (~ x -> ~ youtube -> ~ has "tiktok.com" -> ~ has "stockbit.com" ->
     ~ has "instagram.com" -> ~ has "linkedin.com" ->
     detect_platform url = "unknown") /\
  (forall pre frag post,
     url = pre +:+ frag +:+ post ->
     Py.lower frag = "twitter.com" \/ Py.lower frag = "x.com" ->
     detect_platform url = "x").
Proof.
  intros has x youtube.
  assert (Hx : x <-> Py.contains "twitter.com" (Py.lower url)
                    || Py.contains "x.com" (Py.lower url) = true).
  { unfold x, has. rewrite orb_true_iff, !contains_spec. reflexivity. }
  assert (Hy : youtube <-> Py.contains "youtube.com" (Py.lower url)
                          || Py.contains "youtu.be" (Py.lower url) = true).
  { unfold youtube, has. rewrite orb_true_iff, !contains_spec. reflexivity. }
  assert (Hh : forall frag, has frag <-> Py.contains frag (Py.lower url) = true).
  { intros frag. unfold has. rewrite contains_spec. reflexivity. }
  assert (X : x -> detect_platform url = "x").
  { intros H. apply Hx in H. unfold detect_platform. rewrite H. reflexivity. }
  repeat split; try exact X.
  all: try (rewrite Hx, Hy, ?Hh; unfold detect_platform;
            repeat match goal with
                   | |- context [if ?b then _ else _] => destruct b
                   end; simpl; intros; congruence).
  intros pre frag post -> Hfrag. apply X. unfold x, has.
  rewrite !lower_app.
  destruct Hfrag as [-> | ->]; [left | right]; eexists _, _; reflexivity.
Qed.

(** ** The clock and the configuration *)

Lemma Qlt_bool_true (x y : Q) : Qlt_bool x y = true <-> (x < y)%Q.
Proof.
  unfold Qlt_bool. rewrite negb_true_iff, <- not_true_iff_false, Qle_bool_iff.
  split; [apply Qnot_le_lt | apply Qlt_not_le].
Qed.

Lemma Qlt_bool_false (x y : Q) : Qlt_bool x y = false <-> (y <= x)%Q.
Proof. unfold Qlt_bool. rewrite negb_false_iff. apply Qle_bool_iff. Qed.

Lemma time_sleep_ok (E : Env) (d : Q) (w : World) :
  (0 <= d)%Q ->
  time_sleep E d w =
    (Ok tt, mkWorld (clock w + d + sleep_overrun E (sleeps w))
                    (request_timestamps w) (draws w) (S (sleeps w)) (calls w)).
Proof.
  intros Hd. unfold time_sleep.
  apply Qlt_bool_false in Hd. rewrite Hd. reflexivity.
Qed.

Lemma config_for_bounds (platform : string) :
  (0 < requests_per_minute (config_for platform))%Z /\
  (0 <= delay_between_requests (config_for platform))%Q /\
  (0 <= max_retries (config_for platform))%Z.
Proof.
  unfold config_for.
  assert (Hall : map_Forall (fun _ c =>
            (0 < requests_per_minute c)%Z /\
            (0 <= delay_between_requests c)%Q /\
            (0 <= max_retries c)%Z) RATE_LIMIT_CONFIG).
  { unfold RATE_LIMIT_CONFIG.
    repeat (apply map_Forall_insert_2; [simpl; split_and!; (lia || discriminate)|]).
    apply map_Forall_empty. }
  destruct (RATE_LIMIT_CONFIG !! platform) as [c|] eqn:Hc; simpl.
  - exact (Hall _ _ Hc).
  - split_and!; (lia || discriminate).
Qed.

(** ** The rate limiter *)

Lemma recent_In (now ts : Q) (tss : list Q) :
  In ts (recent now tss) <-> In ts tss /\ (now - ts < 60)%Q.
Proof. unfold recent. rewrite filter_In, Qlt_bool_true. reflexivity. Qed.

Lemma recent_sorted (now : Q) (tss : list Q) :
  StronglySorted Qle tss -> StronglySorted Qle (recent now tss).
Proof.
  induction 1 as [|ts tss Hs IH Hall]; simpl; [constructor|].
  destruct (Qlt_bool (now - ts) 60); [|exact IH].
  constructor; [exact IH|].
  rewrite List.Forall_forall in *. intros y Hy.
  apply Hall. apply recent_In in Hy. tauto.
Qed.

Lemma sorted_snoc (now : Q) (tss : list Q) :
  StronglySorted Qle tss -> Forall (fun ts => ts <= now)%Q tss ->
  StronglySorted Qle (tss ++ [now]).
Proof.
  intros Hs Hall. apply StronglySorted_app_2; [|exact Hs|repeat constructor].
  intros x1 x2 H1 H2. apply list_elem_of_singleton in H2 as ->.
  rewrite Forall_forall in Hall. apply Hall, H1.
Qed.

Lemma rate_limit_delay_run (E : Env) (platform : string) (w : World) (tss : list Q) :
  oracle_ok E ->
  request_timestamps w !! platform = Some tss ->
  let config := config_for platform in
  let now := clock w in
  let kept := recent now tss in
  let pause :=
    (delay_between_requests config * (0.8 + 0.4 * random_draw E (draws w)))%Q in
  exists c n,
    rate_limit_delay E platform w =
      (Ok tt, mkWorld c (<[platform := (kept ++ [now])%list]> (request_timestamps w))
                      (S (draws w)) n (calls w)) /\
    (0 <= pause)%Q /\
    (now + pause <= c)%Q /\
    ((requests_per_minute config <= Z.of_nat (length kept))%Z ->
       exists oldest rest, kept = oldest :: rest /\
         n = S (S (sleeps w)) /\
         (c == now + (60 - (now - oldest) + 1) + sleep_overrun E (sleeps w)
               + pause + sleep_overrun E (S (sleeps w)))%Q) /\
    ((Z.of_nat (length kept) < requests_per_minute config)%Z ->
       n = S (sleeps w) /\
       (c == now + pause + sleep_overrun E (sleeps w))%Q).
Proof.
  intros [Hrand Hover] Hts config now kept pause.
  destruct (config_for_bounds platform) as (Hrpm & Hdelay & _).
  fold config in Hrpm, Hdelay.
  assert (Hpause : (0 <= pause)%Q).
  { unfold pause. destruct (Hrand (draws w)) as [H0 _]. nra. }
  unfold rate_limit_delay, bind, time_time, get_timestamps, set_timestamps.
  simpl. rewrite Hts. simpl. rewrite lookup_insert_eq. fold config now kept.
  destruct (requests_per_minute config <=? Z.of_nat (length kept))%Z eqn:Hfull.
  - apply Z.leb_le in Hfull.
    destruct kept as [|oldest rest] eqn:Hkept; [simpl in Hfull; lia|].
    assert (Hold : (now - oldest < 60)%Q).
    { assert (Hin : In oldest (recent now tss))
        by (fold kept; rewrite Hkept; left; reflexivity).
      apply recent_In in Hin. tauto. }
    rewrite time_sleep_ok by lra. world_fields. rewrite lookup_insert_eq.
    world_fields. rewrite insert_insert_eq. unfold random_random. world_fields.
    rewrite time_sleep_ok by exact Hpause. world_fields.
    eexists _, _. split; [reflexivity|].
    pose proof (Hover (sleeps w)). pose proof (Hover (S (sleeps w))).
    fold pause. clearbody pause. split_and!; try lra.
    + intros _. exists oldest, rest. split_and!; reflexivity.
    + intros Hlt. lia.
  - apply Z.leb_gt in Hfull. unfold ret. world_fields. rewrite lookup_insert_eq.
    world_fields. rewrite insert_insert_eq. unfold random_random. world_fields.
    rewrite time_sleep_ok by exact Hpause. world_fields.
    eexists _, _. split; [reflexivity|].
    pose proof (Hover (sleeps w)). fold pause. clearbody pause.
    split_and!; try lra; intros; try lia. split; reflexivity.
Qed.

Lemma rate_limit_delay_wf (platform : string) (w : World)
    (tss : list Q) (c : Q) (n : nat) :
  timestamps_wf w ->
  request_timestamps w !! platform = Some tss ->
  (clock w <= c)%Q ->
  timestamps_wf
    (mkWorld c (<[platform := (recent (clock w) tss ++ [clock w])%list]>
                  (request_timestamps w)) (S (draws w)) n (calls w)).
Proof.
  intros Hwf Hts Hc p l. world_fields.
  destruct (decide (platform = p)) as [<-|Hne].
  - rewrite lookup_insert_eq. intros [= <-].
    destruct (Hwf _ _ Hts) as [Hs Hall]. split.
    + apply sorted_snoc; [apply recent_sorted, Hs|].
      rewrite List.Forall_forall in *. intros ts Hin.
      apply recent_In in Hin. apply Hall. tauto.
    + apply Forall_app. split; [|repeat constructor; exact Hc].
      rewrite List.Forall_forall in *. intros ts Hin.
      apply recent_In in Hin. apply Qle_trans with (clock w); [|exact Hc].
      apply Hall. tauto.
  - rewrite lookup_insert_ne by exact Hne. intros Hl.
    destruct (Hwf _ _ Hl) as [Hs Hall]. split; [exact Hs|].
    rewrite List.Forall_forall in *. intros ts Hin.
    apply Qle_trans with (clock w); [apply Hall, Hin | exact Hc].
Qed.

(** C6. One admission on a platform with ceiling C, at any point of any run
    (the timestamp lists are in request order): the timestamps kept are those
    less than 60 seconds old; the time of the request is recorded after them;
    with C or more kept the caller first sleeps 60 - (now - oldest) + 1
    seconds, so that the call returns more than 60 seconds after the oldest
    kept timestamp, which is the earliest of them; and every admission sleeps
    base_delay * (0.8 + 0.4 * U), U the draw in [0, 1). The invariant on the
    timestamp lists holds again afterwards. *)
Theorem rate_limit_delay_admission (E : Env) (platform : string) (w : World)
    (tss : list Q) :
  oracle_ok E ->
  timestamps_wf w ->
  request_timestamps w !! platform = Some tss ->
  let config := config_for platform in
  let now := clock w in
  let kept := recent now tss in
  let U := random_draw E (draws w) in
  let pause := (delay_between_requests config * (0.8 + 0.4 * U))%Q in
  exists w',
    rate_limit_delay E platform w = (Ok tt, w') /\
    (forall ts, In ts kept <-> In ts tss /\ (now - ts < 60)%Q) /\
    request_timestamps w' =
      <[platform := (kept ++ [now])%list]> (request_timestamps w) /\
    (0 <= U /\ U < 1)%Q /\
    ((requests_per_minute config <= Z.of_nat (length kept))%Z ->
       exists oldest,
         head kept = Some oldest /\
         Forall (fun ts => oldest <= ts)%Q kept /\
         sleeps w' = S (S (sleeps w)) /\
         (clock w' == now + (60 - (now - oldest) + 1) + sleep_overrun E (sleeps w)
                      + pause + sleep_overrun E (S (sleeps w)))%Q /\
         (60 < clock w' - oldest)%Q) /\
    ((Z.of_nat (length kept) < requests_per_minute config)%Z ->
       sleeps w' = S (sleeps w) /\
       (clock w' == now + pause + sleep_overrun E (sleeps w))%Q) /\
    timestamps_wf w'.
Proof.
  intros HE Hwf Hts config now kept U pause.
  destruct (rate_limit_delay_run E platform w tss HE Hts)
    as (c & n & Hrun & Hpause & Hc & Hwait & Hfree).
  fold config now kept U pause in Hrun, Hpause, Hc, Hwait, Hfree.
  exists (mkWorld c (<[platform := (kept ++ [now])%list]> (request_timestamps w))
                  (S (draws w)) n (calls w)).
  split; [exact Hrun|]. world_fields.
  split; [intros ts; apply recent_In|].
  split; [reflexivity|].
  split; [destruct HE as [Hrand _]; exact (Hrand (draws w))|].
  split_and!.
  - intros Hfull. destruct (Hwait Hfull) as (oldest & rest & Hkept & Hn & Hclock).
    exists oldest. rewrite Hkept. split; [reflexivity|].
    destruct HE as [_ Hover].
    pose proof (Hover (sleeps w)). pose proof (Hover (S (sleeps w))).
    split_and!; [|exact Hn|exact Hclock|clearbody pause; lra].
    destruct (Hwf _ _ Hts) as [Hs _].
    apply (recent_sorted now) in Hs. fold kept in Hs. rewrite Hkept in Hs.
    inversion Hs as [|? ? _ Hall]; subst.
    constructor; [apply Qle_refl | exact Hall].
  - exact Hfree.
  - apply rate_limit_delay_wf; [exact Hwf | exact Hts |].
    fold now. clearbody pause. lra.
Qed.

(** ** The retrying executor *)

Lemma rate_limit_delay_ok (E : Env) (platform : string) (w : World) :
  oracle_ok E ->
  is_Some (request_timestamps w !! platform) ->
  exists w',
    rate_limit_delay E platform w = (Ok tt, w') /\
    calls w' = calls w /\
    is_Some (request_timestamps w' !! platform) /\
    keys_kept w w'.
Proof.
  intros HE [tss Hts].
  destruct (rate_limit_delay_run E platform w tss HE Hts)
    as (c & n & Hrun & _).
  eexists. split; [exact Hrun|]. unfold keys_kept. world_fields.
  split; [reflexivity|]. split; [rewrite lookup_insert_eq; eauto|].
  intros p Hp. apply lookup_insert_is_Some'. right. exact Hp.
Qed.

Lemma backoff_ok (E : Env) (attempt : Z) (w : World) :
  oracle_ok E ->
  exists w',
    backoff E attempt w = (Ok tt, w') /\
    calls w' = calls w /\
    request_timestamps w' = request_timestamps w.
Proof.
  intros [Hrand _]. unfold backoff. run_step.
  assert (H2 : (0 <= inject_Z (2 ^ attempt))%Q).
  { change 0%Q with (inject_Z 0). rewrite <- Zle_Qle.
    destruct (Z.le_gt_cases 0 attempt) as [Hpos|Hneg].
    - apply Z.pow_nonneg. lia.
    - rewrite Z.pow_neg_r by lia. lia. }
  destruct (Hrand (draws w)) as [H0 _].
  rewrite time_sleep_ok by lra. world_fields.
  eexists. split_and!; reflexivity.
Qed.

Lemma error_is_quota_typed (result : Dict) (w : World) :
  (forall n, result !! "error" = Some (VInt n) -> n = 0%Z) ->
  error_is_quota result w = (Ok (quota_failure (Return result)), w).
Proof.
  intros Hint. unfold error_is_quota, quota_failure, quota_text.
  destruct (result !! "error") as [[|s|n]|] eqn:Herr; simpl; try reflexivity.
  - destruct (String.eqb s ""); reflexivity.
  - rewrite (Hint n eq_refl). reflexivity.
Qed.

Lemma safe_api_turn_verdict (E : Env) (platform : string) (api_function : Fetch)
    (url : string) (max_retries attempt : Z) (w : World) :
  oracle_ok E ->
  is_Some (request_timestamps w !! platform) ->
  exists w',
    safe_api_turn E platform api_function url max_retries attempt w =
      (Ok (verdict url platform max_retries attempt (api_function (calls w) url)),
       w') /\
    calls w' = S (calls w) /\
    is_Some (request_timestamps w' !! platform) /\
    keys_kept w w'.
Proof.
  intros HE Hready.
  destruct (rate_limit_delay_ok E platform w HE Hready)
    as (w1 & Hrun & Hcalls & Hready1 & Hkeys1).
  unfold safe_api_turn, try_except, bind at 1. rewrite Hrun.
  unfold bind at 1, call_fetch. rewrite Hcalls.
  set (w2 := mkWorld (clock w1) (request_timestamps w1) (draws w1) (sleeps w1)
                     (S (calls w))).
  destruct (backoff_ok E attempt w2 HE) as (w3 & Hback & Hcalls3 & Hts3).
  assert (Hready3 : is_Some (request_timestamps w3 !! platform))
    by (rewrite Hts3; exact Hready1).
  assert (Hkeys2 : keys_kept w w2) by exact Hkeys1.
  assert (Hkeys3 : keys_kept w w3).
  { intros p Hp. rewrite Hts3. apply Hkeys1, Hp. }
  unfold verdict.
  destruct (api_function (calls w) url) as [result|msg].
  - unfold bind at 1.
    destruct (result !! "error") as [[|s|n]|] eqn:Herr.
    + rewrite error_is_quota_typed by (intros n; rewrite Herr; discriminate).
      unfold quota_failure. rewrite Herr. simpl. unfold ret. eauto.
    + rewrite error_is_quota_typed by (intros n; rewrite Herr; discriminate).
      unfold quota_failure. rewrite Herr.
      destruct (negb (String.eqb s "") && quota_text s && (attempt <? max_retries)%Z);
        [|unfold ret; eauto].
      unfold bind. rewrite Hback. unfold ret. eauto.
    + destruct (Z.eqb_spec n 0) as [->|Hn].
      * rewrite error_is_quota_typed by (intros n; rewrite Herr; intros [= <-]; reflexivity).
        unfold quota_failure. rewrite Herr. simpl. unfold ret. eauto.
      * unfold error_is_quota. rewrite Herr. simpl.
        apply Z.eqb_neq in Hn. rewrite Hn. simpl. unfold ret. eauto.
    + rewrite error_is_quota_typed by (intros n; rewrite Herr; discriminate).
      unfold quota_failure. rewrite Herr. simpl. unfold ret. eauto.
  - fold (quota_text msg). destruct (quota_text msg); [|unfold ret; eauto].
    destruct (attempt <? max_retries)%Z; [|unfold ret; eauto].
    unfold bind. rewrite Hback. unfold ret. eauto.
Qed.

Lemma verdict_quota (url platform : string) (max_retries attempt : Z) (o : Outcome) :
  quota_failure o = true -> (attempt < max_retries)%Z ->
  verdict url platform max_retries attempt o = Continue.
Proof.
  intros Hq Hlt. apply Z.ltb_lt in Hlt. unfold verdict, quota_failure in *.
  destruct o as [result|msg].
  - destruct (result !! "error") as [[|s|n]|]; try discriminate.
    rewrite Hq, Hlt. reflexivity.
  - rewrite Hq, Hlt. reflexivity.
Qed.

Lemma verdict_no_quota_error (url platform : string) (max_retries attempt : Z)
    (result : Dict) :
  no_quota_error result = true ->
  verdict url platform max_retries attempt (Return result) = Returned result.
Proof.
  unfold verdict, no_quota_error.
  destruct (result !! "error") as [[|s|n]|]; try reflexivity; try discriminate.
  intros Hq. apply negb_true_iff in Hq. rewrite Hq, andb_false_r. reflexivity.
Qed.



(** While the fetch keeps failing with quota errors and attempts remain, the
    loop goes on: [k] turns, [k] fetches. *)
Lemma safe_api_loop_retries (E : Env) (platform : string) (api_function : Fetch)
    (url : string) (max_retries : Z) (rest : list Z) :
  oracle_ok E ->
  forall (k : nat) (attempt : Z) (w : World),
    (attempt + Z.of_nat k <= max_retries)%Z ->
    is_Some (request_timestamps w !! platform) ->
    (forall i, (i < k)%nat ->
       quota_failure (api_function (calls w + i)%nat url) = true) ->
    exists w',
      safe_api_loop E platform api_function url max_retries
        (seqZ attempt (Z.of_nat k) ++ rest)%list w =
      safe_api_loop E platform api_function url max_retries rest w' /\
      calls w' = (calls w + k)%nat /\
      is_Some (request_timestamps w' !! platform) /\
      keys_kept w w'.
Proof.
  intros HE k. induction k as [|k IH]; intros attempt w Hle Hready Hfail.
  - exists w. simpl. rewrite Nat.add_0_r. unfold keys_kept. auto.
  - rewrite seqZ_cons by lia. cbn [app safe_api_loop]. unfold bind at 1.
    destruct (safe_api_turn_verdict E platform api_function url max_retries
                attempt w HE Hready) as (w1 & Hturn & Hcalls & Hready1 & Hkeys1).
    rewrite Hturn, verdict_quota; [| |lia].
    2:{ specialize (Hfail 0%nat). rewrite Nat.add_0_r in Hfail. apply Hfail. lia. }
    replace (Z.pred (Z.of_nat (S k))) with (Z.of_nat k) by lia.
    destruct (IH (Z.succ attempt) w1) as (w' & Hloop & Hcalls' & Hready' & Hkeys').
    + lia.
    + exact Hready1.
    + intros i Hi. rewrite Hcalls.
      replace (S (calls w) + i)%nat with (calls w + S i)%nat by lia.
      apply Hfail. lia.
    + exists w'. split; [exact Hloop|]. split; [lia|]. split; [exact Hready'|].
      intros p Hp. apply Hkeys', Hkeys1, Hp.
Qed.

Lemma range_last (n : Z) :
  (0 <= n)%Z -> range (n + 1) = (seqZ 0 (Z.of_nat (Z.to_nat n)) ++ [n])%list.
Proof.
  intros Hn. unfold range. rewrite Z2Nat.id by exact Hn.
  rewrite seqZ_app by lia. rewrite (seqZ_cons _ 1) by lia. reflexivity.
Qed.

(** After [max_retries] quota failures the last attempt decides. *)
Lemma safe_api_call_last_attempt (E : Env) (platform : string)
    (api_function : Fetch) (url : string) (arg : option Z) (w : World) :
  oracle_ok E ->
  is_Some (request_timestamps w !! platform) ->
  let N := default (max_retries (config_for platform)) arg in
  (0 <= N)%Z ->
  (forall i, (i < Z.to_nat N)%nat ->
     quota_failure (api_function (calls w + i)%nat url) = true) ->
  exists w1 w',
    calls w1 = (calls w + Z.to_nat N)%nat /\
    safe_api_call E platform api_function url arg w =
      match verdict url platform N N (api_function (calls w1) url) with
      | Continue =>
          (Ok (error_record url
                 ("Max retries (" +:+ pretty N +:+ ") exceeded") platform), w')
      | Returned result => (Ok result, w')
      end /\
    calls w' = (calls w + Z.to_nat N + 1)%nat.
Proof.
  intros HE Hready N HN Hfail. unfold safe_api_call. fold N.
  rewrite range_last by exact HN.
  destruct (safe_api_loop_retries E platform api_function url N [N] HE
              (Z.to_nat N) 0%Z w) as (w1 & Hloop & Hcalls1 & Hready1 & _);
    [lia | exact Hready | exact Hfail |].
  rewrite Hloop. cbn [safe_api_loop]. unfold bind.
  destruct (safe_api_turn_verdict E platform api_function url N N w1 HE Hready1)
    as (w' & Hturn & Hcalls' & _).
  rewrite Hturn. exists w1, w'. split; [exact Hcalls1|].
  split; [|lia].
  destruct (verdict url platform N N (api_function (calls w1) url)); reflexivity.
Qed.

(** The first attempt decides when its outcome is not retried. *)
Lemma safe_api_call_first_attempt (E : Env) (platform : string)
    (api_function : Fetch) (url : string) (arg : option Z) (w : World)
    (result : Dict) :
  oracle_ok E ->
  is_Some (request_timestamps w !! platform) ->
  let N := default (max_retries (config_for platform)) arg in
  (0 <= N)%Z ->
  verdict url platform N 0 (api_function (calls w) url) = Returned result ->
  exists w',
    safe_api_call E platform api_function url arg w = (Ok result, w') /\
    calls w' = S (calls w).
Proof.
  intros HE Hready N HN Hverdict. unfold safe_api_call. fold N.
  unfold range. rewrite seqZ_cons by lia. cbn [safe_api_loop]. unfold bind.
  destruct (safe_api_turn_verdict E platform api_function url N 0 w HE Hready)
    as (w' & Hturn & Hcalls' & _).
  rewrite Hturn, Hverdict. exists w'. split; [reflexivity | exact Hcalls'].
Qed.


(** C10. A record that the fetch returns with its error field absent, null
    or a text without quota marker comes back from the executor as it is,
    after that single fetch. *)
Theorem safe_api_call_passes_through (E : Env) (platform : string)
    (api_function : Fetch) (url : string) (arg : option Z) (w : World)
    (result : Dict) :
  oracle_ok E ->
  is_Some (request_timestamps w !! platform) ->
  (0 <= default (max_retries (config_for platform)) arg)%Z ->
  api_function (calls w) url = Return result ->
  no_quota_error result = true ->
  exists w',
    safe_api_call E platform api_function url arg w = (Ok result, w') /\
    calls w' = S (calls w).
Proof.
  intros HE Hready HN Hfetch Hclean.
  apply safe_api_call_first_attempt; try assumption.
  rewrite Hfetch. apply verdict_no_quota_error, Hclean.
Qed.

(** When every fetch fails with a quota error, the executor gives up after
    [max_retries + 1] fetches: a raised error becomes the exhaustion record,
    a returned record is handed back as the fetch made it. *)
Lemma safe_api_call_exhausted (E : Env) (platform : string)
    (api_function : Fetch) (url : string) (arg : option Z) (w : World) :
  oracle_ok E ->
  is_Some (request_timestamps w !! platform) ->
  let N := default (max_retries (config_for platform)) arg in
  (0 <= N)%Z ->
  (forall k, quota_failure (api_function k url) = true) ->
  exists w',
    safe_api_call E platform api_function url arg w =
      (Ok match api_function (calls w + Z.to_nat N)%nat url with
          | Return result => result
          | Raise _ =>
              error_record url
                ("Rate limit exceeded after " +:+ pretty N +:+ " retries")
                platform
          end, w') /\
    calls w' = (calls w + Z.to_nat N + 1)%nat.
Proof.
  intros HE Hready N HN Hfail. subst N.
  destruct (safe_api_call_last_attempt E platform api_function url arg w
              HE Hready HN) as (w1 & w' & Hcalls1 & Hcall & Hcalls').
  { intros i _. apply Hfail. }
  rewrite Hcalls1 in Hcall.
  exists w'. split; [|exact Hcalls']. rewrite Hcall.
  match goal with |- context [api_function ?k url] => specialize (Hfail k) end.
  unfold verdict, quota_failure in *. rewrite Z.ltb_irrefl.
  match goal with |- context [api_function ?k url] =>
    destruct (api_function k url) as [result|msg]
  end.
  - destruct (result !! "error") as [[|s|n]|]; try discriminate.
    rewrite andb_false_r. reflexivity.
  - rewrite Hfail. reflexivity.
Qed.


(** The executor always comes back with a record. *)
Lemma safe_api_loop_total (E : Env) (platform : string) (api_function : Fetch)
    (url : string) (max_retries : Z) (attempts : list Z) (w : World) :
  oracle_ok E ->
  is_Some (request_timestamps w !! platform) ->
  exists result w',
    safe_api_loop E platform api_function url max_retries attempts w =
      (Ok result, w') /\
    keys_kept w w'.
Proof.
  intros HE. revert w.
  induction attempts as [|attempt rest IH]; intros w Hready.
  - eexists _, w. split; [reflexivity|]. intros p Hp. exact Hp.
  - cbn [safe_api_loop]. unfold bind.
    destruct (safe_api_turn_verdict E platform api_function url max_retries
                attempt w HE Hready) as (w1 & Hturn & _ & Hready1 & Hkeys1).
    rewrite Hturn.
    destruct (verdict url platform max_retries attempt
                (api_function (calls w) url)) as [|result].
    + destruct (IH w1 Hready1) as (result & w' & Hloop & Hkeys').
      exists result, w'. split; [exact Hloop|].
      intros p Hp. apply Hkeys', Hkeys1, Hp.
    + exists result, w1. split; [reflexivity | exact Hkeys1].
Qed.

Lemma safe_api_call_total (E : Env) (platform : string) (api_function : Fetch)
    (url : string) (arg : option Z) (w : World) :
  oracle_ok E ->
  is_Some (request_timestamps w !! platform) ->
  exists result w',
    safe_api_call E platform api_function url arg w = (Ok result, w') /\
    keys_kept w w'.
Proof. intros HE Hready. apply safe_api_loop_total; assumption. Qed.

(** ** The batch orchestrator *)

Lemma processors_unknown (E : Env) : processors E !! "unknown" = None.
Proof. reflexivity. Qed.

Lemma process_link_unknown (E : Env) (url : string) (w : World) :
  detect_platform url = "unknown" ->
  process_link E url w = (Ok (unsupported_record url), w).
Proof.
  intros Hp. unfold process_link. rewrite Hp, processors_unknown. reflexivity.
Qed.

(** The batch table wraps, platform by platform, the fetch functions of the
    single-URL table in the executor. *)
Lemma processors_lookup (E : Env) (p : string) :
  p ∈ PLATFORMS ->
  exists fetch,
    single_processors E !! p = Some fetch /\
    processors E !! p = Some (fun url => safe_api_call E p fetch url None).
Proof.
  intros Hp. apply list_elem_of_In in Hp. unfold PLATFORMS in Hp. simpl in Hp.
  repeat (destruct Hp as [<- | Hp]; [eexists; split; reflexivity|]).
  destruct Hp.
Qed.

Lemma detect_platform_known (url : string) :
  detect_platform url ∈ PLATFORMS \/ detect_platform url = "unknown".
Proof.
  pose proof (detect_platform_range url) as Hrange.
  apply list_elem_of_In in Hrange. unfold PLATFORMS.
  rewrite list_elem_of_In. simpl in *.
  assert (Hsym : "unknown" = detect_platform url -> detect_platform url = "unknown")
    by congruence.
  tauto.
Qed.

Lemma process_link_total (E : Env) (url : string) (w : World) :
  oracle_ok E -> ready w ->
  exists result w', process_link E url w = (Ok result, w') /\ ready w'.
Proof.
  intros HE Hready.
  destruct (detect_platform_known url) as [Hknown | Hunknown].
  - destruct (processors_lookup E _ Hknown) as (fetch & _ & Hproc).
    unfold process_link. rewrite Hproc.
    destruct (safe_api_call_total E (detect_platform url) fetch url None w HE
                (Hready _ Hknown)) as (result & w' & Hcall & Hkeys).
    exists result, w'. split; [exact Hcall|].
    intros p Hp. apply Hkeys, Hready, Hp.
  - rewrite process_link_unknown by exact Hunknown.
    eexists _, w. split; [reflexivity | exact Hready].
Qed.

(** The loop appends one record per link, in order, each the outcome of
    [process_link] on that link in the world the loop had reached. *)
Lemma process_each_spec (E : Env) (links : list string) :
  oracle_ok E ->
  forall (all_results : list Dict) (w : World),
    ready w ->
    exists produced w',
      process_each E links all_results w =
        (Ok (all_results ++ produced)%list, w') /\
      ready w' /\
      Forall2 (fun url result =>
                 exists w1 w2, ready w1 /\
                   process_link E url w1 = (Ok result, w2))
              links produced.
Proof.
  intros HE. induction links as [|url rest IH]; intros all_results w Hready.
  - exists [], w. rewrite app_nil_r. split_and!; [reflexivity | exact Hready |].
    constructor.
  - destruct (process_link_total E url w HE Hready)
      as (result & w1 & Hlink & Hready1).
    destruct (IH (all_results ++ [result])%list w1 Hready1)
      as (produced & w' & Heach & Hready' & Hall).
    exists (result :: produced), w'.
    cbn [process_each]. unfold bind. rewrite Hlink, Heach.
    rewrite <- app_assoc. split_and!; [reflexivity | exact Hready' |].
    constructor; [exists w, w1; split; assumption | exact Hall].
Qed.

Lemma process_links_spec (E : Env) (links : list string) (w : World) :
  oracle_ok E -> ready w -> links <> [] ->
  exists produced w',
    process_links E links w =
      (Ok (Batch (map to_record produced)
                 (mkSummary (Z.of_nat (length (map to_record produced)))
                            (error_stats (map to_record produced)) true)), w') /\
    ready w' /\
    Forall2 (fun url result =>
               exists w1 w2, ready w1 /\
                 process_link E url w1 = (Ok result, w2))
            links produced.
Proof.
  intros HE Hready Hne.
  destruct (process_each_spec E links HE [] w Hready)
    as (produced & w' & Heach & Hready' & Hall).
  exists produced, w'. split; [|split; assumption].
  unfold process_links. destruct links as [|url rest]; [congruence|].
  unfold bind. rewrite Heach. reflexivity.
Qed.

(** One record per link. *)
Lemma process_links_length (E : Env) (links : list string) (w : World) :
  oracle_ok E -> ready w -> links <> [] ->
  length (batch_results (process_links E links w)) = length links.
Proof.
  intros HE Hready Hne.
  destruct (process_links_spec E links w HE Hready Hne)
    as (produced & w' & Hrun & _ & Hall).
  unfold batch_results. rewrite Hrun. simpl.
  rewrite length_map. symmetry. exact (Forall2_length _ _ _ Hall).
Qed.

Lemma to_record_lookup (row : Dict) (col : string) :
  col ∈ standard_columns -> to_record row !! col = Some (cell col row).
Proof.
  intros Hcol. apply list_elem_of_In in Hcol. unfold standard_columns in Hcol.
  simpl in Hcol.
  repeat (destruct Hcol as [<- | Hcol]; [reflexivity|]).
  destruct Hcol.
Qed.

Lemma to_record_complete (row : Dict) : complete (to_record row).
Proof. intros col Hcol. rewrite to_record_lookup by exact Hcol. eauto. Qed.

Lemma to_record_unsupported (url : string) :
  to_record (unsupported_record url) = unsupported_record url.
Proof. reflexivity. Qed.

(** C7. A link that the classifier does not know is processed without any
    effect on the world, so without a fetch, and its record in the batch
    says "Unsupported platform" for the platform "unknown", with the link as
    URL and every metric column null. *)
Theorem unknown_link_unsupported (E : Env) (links : list string) (w : World)
    (i : nat) (url : string) :
  oracle_ok E -> ready w ->
  links !! i = Some url ->
  detect_platform url = "unknown" ->
  (forall w0, process_link E url w0 = (Ok (unsupported_record url), w0)) /\
  exists record,
    batch_results (process_links E links w) !! i = Some record /\
    record !! "error" = Some (VStr "Unsupported platform") /\
    record !! "platform" = Some (VStr "unknown") /\
    record !! "url" = Some (VStr url) /\
    Forall (fun col => record !! col = Some VNone) metric_columns.
Proof.
  intros HE Hready Hi Hunknown.
  split; [intros w0; apply process_link_unknown, Hunknown|].
  assert (Hne : links <> []) by (intros ->; discriminate).
  destruct (process_links_spec E links w HE Hready Hne)
    as (produced & w' & Hrun & _ & Hall).
  destruct (Forall2_lookup_l _ _ _ _ _ Hall Hi)
    as (result & Hres & w1 & w2 & _ & Hlink).
  rewrite process_link_unknown in Hlink by exact Hunknown.
  injection Hlink as <- _.
  exists (unsupported_record url). unfold batch_results. rewrite Hrun.
  cbn [fst]. split.
  - change (map to_record produced) with (to_record <$> produced).
    rewrite list_lookup_fmap, Hres. simpl. rewrite to_record_unsupported.
    reflexivity.
  - split_and!; try reflexivity. repeat constructor.
Qed.

(** ** The summary *)

Lemma value_counts_lookup (values : list pyval) (p : pyval) :
  notna p = true ->
  value_counts values !! p =
    match length (List.filter (fun v => bool_decide (v = p)) values) with
    | O => None
    | S n => Some (Z.of_nat (S n))
    end.
Proof.
  intros Hp. induction values as [|v values IH]; [reflexivity|].
  cbn [value_counts foldr List.filter]. fold (value_counts values).
  destruct (notna v) eqn:Hv.
  - destruct (decide (v = p)) as [->|Hne].
    + rewrite bool_decide_eq_true_2 by reflexivity.
      rewrite lookup_insert_eq, IH. cbn [length].
      destruct (length (List.filter (fun v => bool_decide (v = p)) values));
        simpl; f_equal; lia.
    + rewrite bool_decide_eq_false_2 by exact Hne.
      rewrite lookup_insert_ne by exact Hne. exact IH.
  - rewrite bool_decide_eq_false_2; [exact IH|].
    intros ->. congruence.
Qed.

Lemma complete_cell (record : Dict) (col : string) (v : pyval) :
  complete record -> col ∈ standard_columns ->
  cell col record = v <-> record !! col = Some v.
Proof.
  intros Hc Hcol. unfold cell. destruct (Hc col Hcol) as [x ->]. simpl.
  split; congruence.
Qed.

Lemma platform_column_count (df : list Dict) (p : pyval) :
  Forall complete df ->
  length (List.filter (fun v => bool_decide (v = p)) (map (cell "platform") df)) =
  length (records_with p df).
Proof.
  unfold records_with. induction 1 as [|record df Hc _ IH]; [reflexivity|].
  cbn [map List.filter].
  rewrite (bool_decide_ext _ (record !! "platform" = Some p))
    by (apply complete_cell; [exact Hc | in_list]).
  destruct (bool_decide (record !! "platform" = Some p)); cbn [length];
    [f_equal|]; exact IH.
Qed.

Lemma complete_failed (record : Dict) :
  complete record -> notna (cell "error" record) = failed record.
Proof.
  intros Hc. unfold cell, failed.
  destruct (Hc "error") as [v ->]; [in_list|]. reflexivity.
Qed.

Lemma error_count_failed (df : list Dict) (p : pyval) :
  Forall complete df ->
  error_count df p = Z.of_nat (length (List.filter failed (records_with p df))).
Proof.
  unfold error_count, records_with. intros Hall. f_equal.
  induction Hall as [|record df Hc _ IH]; [reflexivity|].
  cbn [List.filter].
  rewrite (bool_decide_ext _ (record !! "platform" = Some p))
    by (apply complete_cell; [exact Hc | in_list]).
  rewrite complete_failed by exact Hc.
  destruct (bool_decide (record !! "platform" = Some p)); cbn [andb List.filter];
    [|exact IH].
  destruct (failed record); cbn [length]; [f_equal|]; exact IH.
Qed.

Lemma error_stats_lookup (df : list Dict) (p : pyval) (record : Dict) :
  Forall complete df ->
  record ∈ df -> record !! "platform" = Some p -> p <> VNone ->
  error_stats df !! p =
    Some (mkStats
      (Z.of_nat (length (records_with p df)))
      (Z.of_nat (length (records_with p df)) -
       Z.of_nat (length (List.filter failed (records_with p df))))
      (Z.of_nat (length (List.filter failed (records_with p df))))).
Proof.
  intros Hall Hin Hplat Hp.
  assert (Hna : notna p = true) by (destruct p; [contradiction|reflexivity..]).
  unfold error_stats. rewrite map_lookup_imap, value_counts_lookup by exact Hna.
  rewrite platform_column_count by exact Hall.
  assert (Hmem : In record (records_with p df)).
  { unfold records_with. apply filter_In. split; [apply list_elem_of_In, Hin|].
    apply bool_decide_eq_true_2, Hplat. }
  rewrite error_count_failed by exact Hall.
  destruct (records_with p df) as [|r rs]; [destruct Hmem | reflexivity].
Qed.

(** C8. In the summary of a batch, every platform value that a record of
    the batch carries has an entry: its total is the number of records with
    that platform, its errors the number of those whose error is not null,
    and its success the difference. *)
Theorem platform_stats_counts (E : Env) (links : list string) (w : World)
    (record : Dict) (p : pyval) :
  oracle_ok E -> ready w -> links <> [] ->
  record ∈ batch_results (process_links E links w) ->
  record !! "platform" = Some p -> p <> VNone ->
  let mine := records_with p (batch_results (process_links E links w)) in
  let total := Z.of_nat (length mine) in
  let errors := Z.of_nat (length (List.filter failed mine)) in
  batch_stats (process_links E links w) !! p =
    Some (mkStats total (total - errors) errors).
Proof.
  intros HE Hready Hne.
  destruct (process_links_spec E links w HE Hready Hne)
    as (produced & w' & Hrun & _ & _).
  unfold batch_results, batch_stats. rewrite Hrun. cbn [fst platform_stats].
  intros Hin Hplat Hp. apply (error_stats_lookup _ _ record); try assumption.
  apply Forall_forall. intros r Hr. apply list_elem_of_In, in_map_iff in Hr.
  destruct Hr as (row & <- & _). apply to_record_complete.
Qed.

(** ** The single-URL route *)

Lemma request_not_empty (data : Dict) (v : pyval) :
  data !! "url" = Some v -> data <> ∅.
Proof. intros Hurl ->. rewrite lookup_empty in Hurl. discriminate. Qed.

(** C4, as the code has it. For a request whose URL, once stripped, is not
    empty: the route classifies the URL with [detect_platform]; for a
    platform that has a fetch function, and these are the platforms that
    have a processor in the batch, it calls that function once, directly,
    and answers with what it returns; nothing else in the world changes, so
    no timestamp is recorded, no time passes and nothing is retried. A URL
    of no known platform gets the record of an unsupported platform and the
    world stays as it is. *)
Theorem extract_single_direct (E : Env) (data : Dict) (s : string) (w : World) :
  data !! "url" = Some (VStr s) ->
  Py.strip s <> "" ->
  let url := Py.strip s in
  match single_processors E !! detect_platform url with
  | Some fetch =>
      extract_single E data w =
        (match fetch (calls w) url with
         | Return result => ResultJson result
         | Raise e => ErrorJson ("Internal server error: " +:+ e) 500
         end,
         mkWorld (clock w) (request_timestamps w) (draws w) (sleeps w)
                 (S (calls w)))
  | None =>
      extract_single E data w = (ResultJson (unsupported_record url), w)
  end /\
  (is_Some (single_processors E !! detect_platform url) <->
   is_Some (processors E !! detect_platform url)).
Proof.
  intros Hurl Hne url. split.
  - unfold extract_single, url_of_request.
    rewrite decide_False by (eapply request_not_empty; exact Hurl).
    rewrite Hurl. unfold bind, ret, call_fetch. cbn [from_option id]. fold url.
    apply String.eqb_neq in Hne. fold url in Hne. rewrite Hne.
    destruct (single_processors E !! detect_platform url) as [fetch|];
      [|reflexivity].
    destruct (fetch (calls w) url); reflexivity.
  - destruct (detect_platform_known url) as [Hknown | ->].
    + destruct (processors_lookup E _ Hknown) as (fetch & -> & ->).
      split; eauto.
    + split; intros [x Hx]; discriminate.
Qed.

(** ** The code at the inputs where it leaves the specification *)

(** C1. With the X driver not configured, the batch of one X link answers
    with one record, and its URL is null. *)
Theorem process_links_drops_url :
  exists record,
    batch_results (process_links unconfigured_env
                     ["https://x.com/user/status/1"] (init_world 0)) = [record] /\
    record !! "url" = Some VNone /\
    record !! "error" = Some (VStr "X/Twitter not configured").
Proof.
  exists (to_record {[ "error" := VStr "X/Twitter not configured" ]}).
  split_and!; vm_compute; reflexivity.
Qed.

(** C5. With no driver configured, the records of a YouTube link and of an
    Instagram link carry neither the URL nor the platform. *)
Theorem process_links_drops_platform :
  exists youtube instagram,
    batch_results (process_links unconfigured_env
                     ["https://www.youtube.com/watch?v=dQw4w9WgXcQ";
                      "https://www.instagram.com/p/Cabc123/"]
                     (init_world 0)) = [youtube; instagram] /\
    youtube !! "platform" = Some VNone /\ youtube !! "url" = Some VNone /\
    youtube !! "error" = Some (VStr "YouTube not configured") /\
    instagram !! "platform" = Some VNone /\ instagram !! "url" = Some VNone /\
    instagram !! "error" = Some (VStr "Instagram not configured").
Proof.
  exists (to_record {[ "error" := VStr "YouTube not configured" ]}),
         (to_record {[ "error" := VStr "Instagram not configured" ]}).
  split_and!; vm_compute; reflexivity.
Qed.

(** C3. TikTok is throttled at every fetch; the fetch function returns the
    error as a record. After the three fetches that the ceiling of two
    retries allows, the executor hands back the record of the last fetch:
    its error is the original text, not the exhaustion message. *)
Theorem safe_api_call_keeps_returned_error :
  exists w',
    safe_api_call throttled_env "tiktok" (fetch_tiktok_metrics throttled_env)
      tiktok_url None (init_world 0) = (Ok too_many_record, w') /\
    calls w' = 3%nat /\
    max_retries (config_for "tiktok") = 2%Z /\
    quota_text "429 Client Error: Too Many Requests" = true /\
    too_many_record !! "error" =
      Some (VStr "429 Client Error: Too Many Requests") /\
    too_many_record !! "error" <>
      Some (VStr "Rate limit exceeded after 2 retries").
Proof.
  eexists. split_and!; [vm_compute; reflexivity | reflexivity..|].
  vm_compute. discriminate.
Qed.

(** C4, as the specification words it, fails: when the first fetch is
    throttled, the route answers with the throttling error after one fetch
    and leaves the timestamps alone, where the path through the executor
    retries, delivers the record after two fetches and records both
    requests. *)
Lemma extract_single_bypasses_executor :
  fst (extract_single throttled_once_env tiktok_request
         (init_world 0)) = ResultJson too_many_record /\
  fst (processOne_spec throttled_once_env tiktok_url (init_world 0)) =
    Ok (sample_record tiktok_url "tiktok") /\
  too_many_record <> sample_record tiktok_url "tiktok" /\
  calls (snd (extract_single throttled_once_env tiktok_request
                (init_world 0))) = 1%nat /\
  calls (snd (processOne_spec throttled_once_env tiktok_url (init_world 0))) =
    2%nat /\
  request_timestamps
    (snd (extract_single throttled_once_env tiktok_request
            (init_world 0))) !! "tiktok" = Some [] /\
  length <$> request_timestamps
    (snd (processOne_spec throttled_once_env tiktok_url (init_world 0)))
    !! "tiktok" = Some 2%nat.
Proof.
  split_and!; try (vm_compute; reflexivity).
  intros Hsame. apply (f_equal (fun record : Dict => record !! "likes")) in Hsame.
  vm_compute in Hsame. discriminate.
Qed.

(** ** The theorems at sample inputs *)

Lemma sample_env_ok (drivers : gset string) (backend : Fetch) :
  oracle_ok (sample_env drivers backend).
Proof.
  split; intros k; simpl; [split|]; vm_compute; (reflexivity || discriminate).
Qed.

Lemma init_world_ready (t0 : Q) : ready (init_world t0).
Proof.
  intros p Hp. apply list_elem_of_In in Hp. unfold PLATFORMS in Hp. simpl in Hp.
  repeat (destruct Hp as [<- | Hp]; [eexists; reflexivity|]).
  destruct Hp.
Qed.

Lemma busy_world_wf : timestamps_wf busy_world.
Proof.
  intros p tss Hp. unfold busy_world in Hp. world_fields.
  apply lookup_singleton_Some in Hp as [_ <-].
  split; simpl; repeat constructor; discriminate.
Qed.

Lemma detect_platform_first_match_witness :
  detect_platform "https://mobile.Twitter.COM/user/status/1?ref=youtube.com" = "x".
Proof.
  apply (detect_platform_first_match
           "https://mobile.Twitter.COM/user/status/1?ref=youtube.com").
  left. exists "https://mobile.", "/user/status/1?ref=youtube.com". reflexivity.
Defined.

Lemma rate_limit_delay_admission_witness :
  exists w',
    rate_limit_delay (sample_env ∅ (always too_many)) "instagram" busy_world =
      (Ok tt, w') /\
    sleeps w' = 2%nat /\
    (60 < clock w' - 0)%Q.
Proof.
  destruct (rate_limit_delay_admission (sample_env ∅ (always too_many))
              "instagram" busy_world (repeat 0%Q 30)
              (sample_env_ok _ _) busy_world_wf eq_refl)
    as (w' & Hrun & _ & _ & _ & Hwait & _).
  destruct Hwait as (oldest & Hhead & _ & Hsleeps & _ & Hlate);
    [vm_compute; discriminate|].
  injection Hhead as <-.
  exists w'. split_and!; assumption.
Defined.


Lemma safe_api_call_passes_through_witness :
  exists w',
    safe_api_call (sample_env ∅ (always too_many)) "stockbit"
      (always (Return (error_record "https://stockbit.com/post/1"
                         "Message: no such element" "stockbit")))
      "https://stockbit.com/post/1" None (init_world 0) =
      (Ok (error_record "https://stockbit.com/post/1"
             "Message: no such element" "stockbit"), w') /\
    calls w' = 1%nat.
Proof.
  apply safe_api_call_passes_through.
  - apply sample_env_ok.
  - apply init_world_ready. in_list.
  - vm_compute. discriminate.
  - reflexivity.
  - reflexivity.
Defined.

Lemma unknown_link_unsupported_witness :
  exists record,
    batch_results (process_links unconfigured_env
                     ["https://x.com/u/status/123"; "https://unknown.example/1"]
                     (init_world 0)) !! 1%nat = Some record /\
    record !! "error" = Some (VStr "Unsupported platform") /\
    record !! "platform" = Some (VStr "unknown").
Proof.
  destruct (unknown_link_unsupported unconfigured_env
              ["https://x.com/u/status/123"; "https://unknown.example/1"]
              (init_world 0) 1 "https://unknown.example/1"
              (sample_env_ok _ _) (init_world_ready 0) eq_refl eq_refl)
    as [_ (record & Hrecord & Herror & Hplatform & _)].
  exists record. split_and!; assumption.
Defined.

Lemma platform_stats_counts_witness :
  batch_stats (process_links unconfigured_env
                 ["https://example.org/a"; tiktok_url; "https://example.org/b"]
                 (init_world 0)) !! VStr "unknown" =
    Some (mkStats 2 0 2).
Proof.
  apply (platform_stats_counts unconfigured_env
           ["https://example.org/a"; tiktok_url; "https://example.org/b"]
           (init_world 0) (unsupported_record "https://example.org/a")
           (VStr "unknown") (sample_env_ok _ _) (init_world_ready 0)).
  - discriminate.
  - apply (list_elem_of_lookup_2 _ 0%nat). vm_compute. reflexivity.
  - reflexivity.
  - discriminate.
Defined.

Lemma extract_single_direct_witness :
  extract_single throttled_once_env padded_request (init_world 0) =
    (ResultJson too_many_record, mkWorld 0 init_timestamps 0 0 1).
Proof.
  apply (proj1 (extract_single_direct throttled_once_env padded_request
                  "  https://www.tiktok.com/@a/video/1 " (init_world 0)
                  eq_refl ltac:(vm_compute; discriminate))).
Defined.

(** ** How the world moves *)

Lemma advances_refl (platform : string) (w : World) : advances platform w w.
Proof.
  unfold advances. split_and!; auto; apply Qle_refl.
Qed.

Lemma advances_trans (platform : string) (w1 w2 w3 : World) :
  advances platform w1 w2 -> advances platform w2 w3 -> advances platform w1 w3.
Proof.
  intros (Hc & Hn & Hq & Hs & Hnone & Hwf & Hsp)
         (Hc' & Hn' & Hq' & Hs' & Hnone' & Hwf' & Hsp').
  unfold advances. split_and!; auto.
  - eapply Qle_trans; eassumption.
  - lia.
  - intros q Hne. rewrite Hq', Hq by exact Hne. reflexivity.
Qed.

(** The world after a wait: later, and otherwise the same. *)
Lemma later_advances (platform : string) (w : World) (c : Q) (d s n : nat) :
  (clock w <= c)%Q -> (calls w <= n)%nat ->
  advances platform w (mkWorld c (request_timestamps w) d s n).
Proof.
  intros Hc Hn. unfold advances. world_fields. split_and!; auto.
  - intros Hwf p tss Hp. world_fields. destruct (Hwf p tss Hp) as [Hs Hall].
    split; [exact Hs|]. rewrite List.Forall_forall in *. intros ts Hin.
    eapply Qle_trans; [apply Hall, Hin | exact Hc].
  - intros Hsp tss Hp. world_fields. destruct (Hsp tss Hp) as [Hs Hall].
    split; [exact Hs|]. rewrite List.Forall_forall in *. intros ts Hin.
    eapply Qle_trans; [apply Hall, Hin | exact Hc].
Qed.

Lemma recent_spaced (gap now : Q) (tss : list Q) :
  StronglySorted (fun a b => a + gap <= b)%Q tss ->
  StronglySorted (fun a b => a + gap <= b)%Q (recent now tss).
Proof.
  induction 1 as [|ts tss Hs IH Hall]; simpl; [constructor|].
  destruct (Qlt_bool (now - ts) 60); [|exact IH].
  constructor; [exact IH|].
  rewrite List.Forall_forall in *. intros y Hy.
  apply Hall. apply recent_In in Hy. tauto.
Qed.

Lemma rate_limit_delay_spaced (platform : string) (w : World)
    (tss : list Q) (c : Q) (d n : nat) :
  spaced platform w ->
  request_timestamps w !! platform = Some tss ->
  (clock w + min_delay platform <= c)%Q ->
  (0 <= min_delay platform)%Q ->
  spaced platform
    (mkWorld c (<[platform := (recent (clock w) tss ++ [clock w])%list]>
                  (request_timestamps w)) d n (calls w)).
Proof.
  intros Hsp Hts Hc Hmin l. world_fields. rewrite lookup_insert_eq.
  intros [= <-]. destruct (Hsp _ Hts) as [Hs Hall]. split.
  - apply StronglySorted_app_2; [|apply recent_spaced, Hs|repeat constructor].
    intros x1 x2 H1 H2. apply list_elem_of_singleton in H2 as ->.
    rewrite Forall_forall in Hall. apply Hall.
    apply list_elem_of_In in H1. apply recent_In in H1.
    apply list_elem_of_In. tauto.
  - apply Forall_app. split; [|repeat constructor; exact Hc].
    rewrite List.Forall_forall in *. intros ts Hin.
    apply recent_In in Hin. pose proof (Hall ts (proj1 Hin)). lra.
Qed.

Lemma rate_limit_delay_effects (E : Env) (platform : string) (w : World) :
  oracle_ok E ->
  is_Some (request_timestamps w !! platform) ->
  exists w',
    rate_limit_delay E platform w = (Ok tt, w') /\
    calls w' = calls w /\
    (clock w + min_delay platform <= clock w')%Q /\
    advances platform w w'.
Proof.
  intros HE [tss Hts].
  destruct (rate_limit_delay_run E platform w tss HE Hts)
    as (c & n & Hrun & Hpause & Hc & _).
  destruct (config_for_bounds platform) as (_ & Hdelay & _).
  assert (Hmin : (clock w + min_delay platform <= c)%Q).
  { destruct HE as [Hrand _]. destruct (Hrand (draws w)) as [H0 _].
    unfold min_delay. eapply Qle_trans; [|exact Hc].
    set (base := delay_between_requests (config_for platform)) in *.
    set (u := random_draw E (draws w)) in *. nra. }
  assert (Hlater : (clock w <= c)%Q).
  { eapply Qle_trans; [|exact Hc]. lra. }
  eexists. split; [exact Hrun|]. world_fields.
  split; [reflexivity|]. split; [exact Hmin|].
  unfold advances. world_fields. split_and!.
  - exact Hlater.
  - lia.
  - intros q Hne. apply lookup_insert_ne. congruence.
  - intros _. rewrite lookup_insert_eq. eauto.
  - intros Hnone. congruence.
  - intros Hwf. apply rate_limit_delay_wf; assumption.
  - intros Hsp. apply rate_limit_delay_spaced; try assumption.
    unfold min_delay. lra.
Qed.

Lemma rate_limit_delay_missing (E : Env) (platform : string) (w : World) :
  request_timestamps w !! platform = None ->
  rate_limit_delay E platform w = (Exc (Py.repr platform), w).
Proof.
  intros Hnone. unfold rate_limit_delay. run_step. rewrite Hnone. reflexivity.
Qed.

Lemma backoff_effects (E : Env) (platform : string) (attempt : Z) (w : World) :
  oracle_ok E ->
  exists w',
    backoff E attempt w = (Ok tt, w') /\
    calls w' = calls w /\
    (clock w + inject_Z (2 ^ attempt) <= clock w')%Q /\
    advances platform w w'.
Proof.
  intros [Hrand Hover]. unfold backoff. run_step.
  assert (H2 : (0 <= inject_Z (2 ^ attempt))%Q).
  { change 0%Q with (inject_Z 0). rewrite <- Zle_Qle.
    destruct (Z.le_gt_cases 0 attempt) as [Hpos|Hneg].
    - apply Z.pow_nonneg. lia.
    - rewrite Z.pow_neg_r by lia. lia. }
  destruct (Hrand (draws w)) as [H0 _]. pose proof (Hover (sleeps w)) as Hov.
  rewrite time_sleep_ok by lra. world_fields.
  eexists. split; [reflexivity|]. world_fields. split; [reflexivity|].
  split; [lra|]. apply later_advances; [lra | lia].
Qed.

(** ** The executor, whatever the fetch does *)

Lemma verdict_returned (url platform : string) (max_retries attempt : Z)
    (o : Outcome) (result : Dict) :
  verdict url platform max_retries attempt o = Returned result ->
  o = Return result \/ exists msg, result = error_record url msg platform.
Proof.
  unfold verdict. destruct o as [r|msg].
  - destruct (r !! "error") as [[|s|n]|].
    + intros [= <-]. left. reflexivity.
    + destruct (_ && _); [discriminate|]. intros [= <-]. left. reflexivity.
    + destruct (n =? 0)%Z; intros [= <-]; [left; reflexivity | right; eauto].
    + intros [= <-]. left. reflexivity.
  - destruct (quota_text msg); [destruct (attempt <? max_retries)%Z|];
      try discriminate; intros [= <-]; right; eauto.
Qed.

Lemma verdict_continue (url platform : string) (max_retries attempt : Z)
    (o : Outcome) :
  verdict url platform max_retries attempt o = Continue ->
  (attempt < max_retries)%Z /\ quota_failure o = true.
Proof.
  unfold verdict, quota_failure. destruct o as [r|msg].
  - destruct (r !! "error") as [[|s|n]|]; try discriminate.
    + destruct (negb (String.eqb s "") && quota_text s) eqn:Hq; simpl;
        [|discriminate].
      destruct (attempt <? max_retries)%Z eqn:Hlt; [|discriminate].
      intros _. split; [apply Z.ltb_lt, Hlt | reflexivity].
    + destruct (n =? 0)%Z; discriminate.
  - destruct (quota_text msg); [|discriminate].
    destruct (attempt <? max_retries)%Z eqn:Hlt; [|discriminate].
    intros _. split; [apply Z.ltb_lt, Hlt | reflexivity].
Qed.

(** One turn on a platform that has a timestamp list: one admission, one
    fetch, and the back-off when the turn asks for another one. *)
Lemma safe_api_turn_effects (E : Env) (platform : string) (api_function : Fetch)
    (url : string) (max_retries attempt : Z) (w : World) :
  oracle_ok E ->
  is_Some (request_timestamps w !! platform) ->
  exists w',
    safe_api_turn E platform api_function url max_retries attempt w =
      (Ok (verdict url platform max_retries attempt (api_function (calls w) url)),
       w') /\
    calls w' = S (calls w) /\
    advances platform w w' /\
    (clock w + min_delay platform +
       match verdict url platform max_retries attempt
               (api_function (calls w) url) with
       | Continue => inject_Z (2 ^ attempt)
       | Returned _ => 0
       end <= clock w')%Q.
Proof.
  intros HE Hready.
  destruct (rate_limit_delay_effects E platform w HE Hready)
    as (w1 & Hrun & Hcalls & Hmin & Hadv1).
  unfold safe_api_turn, try_except, bind at 1. rewrite Hrun.
  unfold bind at 1, call_fetch. rewrite Hcalls.
  set (w2 := mkWorld (clock w1) (request_timestamps w1) (draws w1) (sleeps w1)
                     (S (calls w))).
  assert (Hadv2 : advances platform w w2).
  { apply advances_trans with w1; [exact Hadv1|].
    apply later_advances; [apply Qle_refl | lia]. }
  destruct (backoff_effects E platform attempt w2 HE)
    as (w3 & Hback & Hcalls3 & Hclock3 & Hadv3).
  assert (Hadv : advances platform w w3)
    by (apply advances_trans with w2; assumption).
  assert (Hstop : exists w',
            (Ok (A:=Turn) (verdict url platform max_retries attempt
                   (api_function (calls w) url)), w2) =
            (Ok (verdict url platform max_retries attempt
                   (api_function (calls w) url)), w') /\
            calls w' = S (calls w) /\ advances platform w w' /\
            (clock w + min_delay platform + 0 <= clock w')%Q).
  { exists w2. split_and!; [reflexivity | reflexivity | exact Hadv2 |].
    unfold w2. world_fields. lra. }
  assert (Hgo : exists w',
            (Ok Continue, w3) = (Ok Continue, w') /\
            calls w' = S (calls w) /\ advances platform w w' /\
            (clock w + min_delay platform + inject_Z (2 ^ attempt)
             <= clock w')%Q).
  { exists w3. split_and!; [reflexivity | exact Hcalls3 | exact Hadv |].
    unfold w2 in Hclock3. world_fields. lra. }
  clear Hadv1 Hadv2 Hadv3 Hadv Hclock3 Hmin.
  unfold verdict in *.
  destruct (api_function (calls w) url) as [result|msg].
  - unfold bind at 1.
    destruct (result !! "error") as [[|s|n]|] eqn:Herr.
    + rewrite error_is_quota_typed by (intros n; rewrite Herr; discriminate).
      unfold quota_failure. rewrite Herr. simpl. exact Hstop.
    + rewrite error_is_quota_typed by (intros n; rewrite Herr; discriminate).
      unfold quota_failure. rewrite Herr.
      destruct (negb (String.eqb s "") && quota_text s && (attempt <? max_retries)%Z);
        [|exact Hstop].
      unfold bind. rewrite Hback. exact Hgo.
    + destruct (Z.eqb_spec n 0) as [->|Hn].
      * rewrite error_is_quota_typed
          by (intros n; rewrite Herr; intros [= <-]; reflexivity).
        unfold quota_failure. rewrite Herr. simpl. exact Hstop.
      * unfold error_is_quota. rewrite Herr. simpl.
        apply Z.eqb_neq in Hn. rewrite Hn. simpl. exact Hstop.
    + rewrite error_is_quota_typed by (intros n; rewrite Herr; discriminate).
      unfold quota_failure. rewrite Herr. simpl. exact Hstop.
  - fold (quota_text msg). destruct (quota_text msg); [|exact Hstop].
    destruct (attempt <? max_retries)%Z; [|exact Hstop].
    unfold bind. rewrite Hback. exact Hgo.
Qed.

(** One turn on a platform without a timestamp list: the admission raises
    [KeyError] and no fetch is made. *)
Lemma safe_api_turn_missing (E : Env) (platform : string) (api_function : Fetch)
    (url : string) (max_retries attempt : Z) (w : World) :
  oracle_ok E ->
  request_timestamps w !! platform = None ->
  exists w',
    safe_api_turn E platform api_function url max_retries attempt w =
      (Ok (verdict url platform max_retries attempt
             (Raise (Py.repr platform))), w') /\
    calls w' = calls w /\
    advances platform w w' /\
    (quota_text (Py.repr platform) = false -> w' = w).
Proof.
  intros HE Hnone.
  unfold safe_api_turn, try_except, bind at 1.
  rewrite rate_limit_delay_missing by exact Hnone.
  destruct (backoff_effects E platform attempt w HE)
    as (w3 & Hback & Hcalls3 & _ & Hadv3).
  unfold verdict. fold (quota_text (Py.repr platform)).
  destruct (quota_text (Py.repr platform)).
  - destruct (attempt <? max_retries)%Z.
    + unfold bind. rewrite Hback. exists w3.
      split_and!; [reflexivity | exact Hcalls3 | exact Hadv3 | discriminate].
    + exists w. split_and!; [reflexivity | reflexivity | apply advances_refl | auto].
  - exists w. split_and!; [reflexivity | reflexivity | apply advances_refl | auto].
Qed.

Lemma fetched_or_written_later (api_function : Fetch) (url platform : string)
    (w w1 w' : World) (result : Dict) :
  (calls w <= calls w1)%nat ->
  fetched_or_written api_function url platform w1 w' result ->
  fetched_or_written api_function url platform w w' result.
Proof.
  intros Hle [(k & Hk & Hfetch) | Hwritten]; [left | right; exact Hwritten].
  exists k. split; [lia | exact Hfetch].
Qed.

Lemma safe_api_loop_effects (E : Env) (platform : string) (api_function : Fetch)
    (url : string) (max_retries : Z) (attempts : list Z) :
  oracle_ok E ->
  forall w : World,
  exists result w',
    safe_api_loop E platform api_function url max_retries attempts w =
      (Ok result, w') /\
    advances platform w w' /\
    (calls w' <= calls w + length attempts)%nat /\
    (request_timestamps w !! platform = None -> calls w' = calls w) /\
    (is_Some (request_timestamps w !! platform) -> attempts <> [] ->
     (calls w < calls w')%nat /\
     (clock w + min_delay platform <= clock w')%Q) /\
    fetched_or_written api_function url platform w w' result.
Proof.
  intros HE. induction attempts as [|attempt rest IH]; intros w.
  - eexists _, w. split; [reflexivity|].
    split_and!; [apply advances_refl | simpl; lia | auto | congruence |].
    right. eauto.
  - cbn [safe_api_loop length]. unfold bind.
    destruct (request_timestamps w !! platform) as [tss|] eqn:Hts.
    + destruct (safe_api_turn_effects E platform api_function url max_retries
                  attempt w HE) as (w1 & Hturn & Hcalls & Hadv & Hclock).
      { rewrite Hts. eauto. }
      rewrite Hturn.
      destruct (verdict url platform max_retries attempt
                  (api_function (calls w) url)) as [|result] eqn:Hv.
      * destruct (IH w1) as (result & w' & Hloop & Hadv' & Hle & _ & _ & Hfrom).
        exists result, w'. split; [exact Hloop|].
        pose proof Hadv' as (Hc' & Hn' & _).
        split_and!.
        -- apply advances_trans with w1; assumption.
        -- lia.
        -- discriminate.
        -- intros _ _. split; [lia|].
           assert (0 <= inject_Z (2 ^ attempt))%Q.
           { change 0%Q with (inject_Z 0). rewrite <- Zle_Qle.
             destruct (Z.le_gt_cases 0 attempt) as [Hpos|Hneg].
             - apply Z.pow_nonneg. lia.
             - rewrite Z.pow_neg_r by lia. lia. }
           lra.
        -- apply fetched_or_written_later with w1; [lia | exact Hfrom].
      * exists result, w1. split; [reflexivity|].
        split_and!; [exact Hadv | lia | discriminate | intros _ _; split; [lia | lra] |].
        apply verdict_returned in Hv as [Hv | Hv]; [left | right; exact Hv].
        exists (calls w). split; [lia | exact Hv].
    + destruct (safe_api_turn_missing E platform api_function url max_retries
                  attempt w HE Hts) as (w1 & Hturn & Hcalls & Hadv & _).
      rewrite Hturn.
      destruct (verdict url platform max_retries attempt
                  (Raise (Py.repr platform))) as [|result] eqn:Hv.
      * destruct (IH w1) as (result & w' & Hloop & Hadv' & Hle & Hnone' & _ & Hfrom).
        exists result, w'. split; [exact Hloop|].
        pose proof Hadv as (_ & _ & _ & _ & Hkeep & _ & _).
        split_and!.
        -- apply advances_trans with w1; assumption.
        -- lia.
        -- intros _. rewrite Hnone' by (apply Hkeep, Hts). exact Hcalls.
        -- intros [x Hx]. discriminate.
        -- apply fetched_or_written_later with w1; [lia | exact Hfrom].
      * exists result, w1. split; [reflexivity|].
        split_and!; [exact Hadv | lia | intros _; exact Hcalls
                    | intros [x Hx]; discriminate |].
        apply verdict_returned in Hv as [Hv | Hv]; [discriminate | right; exact Hv].
Qed.

Lemma range_length (n : Z) : length (range n) = Z.to_nat n.
Proof. unfold range. apply length_seqZ. Qed.

Lemma error_record_fields (url msg platform : string) :
  error_record url msg platform !! "url" = Some (VStr url) /\
  error_record url msg platform !! "error" = Some (VStr msg) /\
  error_record url msg platform !! "platform" = Some (VStr platform).
Proof. split_and!; reflexivity. Qed.

(** X1. Whatever the fetch function does, the executor returns a record and
    never raises; it fetches at most [max_retries + 1] times, and at least
    once when the platform has a timestamp list and the ceiling is not
    negative. *)
Theorem safe_api_call_fetch_budget (E : Env) (platform : string)
    (api_function : Fetch) (url : string) (arg : option Z) (w : World) :
  oracle_ok E ->
  let N := default (max_retries (config_for platform)) arg in
  exists result w',
    safe_api_call E platform api_function url arg w = (Ok result, w') /\
    (calls w' <= calls w + Z.to_nat (N + 1))%nat /\
    (is_Some (request_timestamps w !! platform) -> (0 <= N)%Z ->
     (calls w < calls w')%nat).
Proof.
  intros HE N. unfold safe_api_call. fold N.
  destruct (safe_api_loop_effects E platform api_function url N
              (range (N + 1)) HE w)
    as (result & w' & Hloop & _ & Hle & _ & Hsome & _).
  exists result, w'. split; [exact Hloop|]. rewrite range_length in Hle.
  split; [exact Hle|]. intros Hready HN. apply Hsome; [exact Hready|].
  intros Hnil. apply (f_equal length) in Hnil. rewrite range_length in Hnil.
  simpl in Hnil. lia.
Qed.

(** X2. A record that the executor returns was returned by one of the
    fetches of this call, or it was written by the executor and then holds
    the URL, the platform and an error text. *)
Theorem safe_api_call_record_origin (E : Env) (platform : string)
    (api_function : Fetch) (url : string) (arg : option Z) (w : World) :
  oracle_ok E ->
  exists result w',
    safe_api_call E platform api_function url arg w = (Ok result, w') /\
    ((exists k, (calls w <= k < calls w')%nat /\
                api_function k url = Return result) \/
     (result !! "url" = Some (VStr url) /\
      result !! "platform" = Some (VStr platform) /\
      exists msg, result !! "error" = Some (VStr msg))).
Proof.
  intros HE. unfold safe_api_call.
  destruct (safe_api_loop_effects E platform api_function url
              (default (max_retries (config_for platform)) arg)
              (range (default (max_retries (config_for platform)) arg + 1)) HE w)
    as (result & w' & Hloop & _ & _ & _ & _ & Hfrom).
  exists result, w'. split; [exact Hloop|].
  destruct Hfrom as [Hfetched | (msg & ->)]; [left; exact Hfetched | right].
  destruct (error_record_fields url msg platform) as (Hu & He & Hp).
  split_and!; [exact Hu | exact Hp | eauto].
Qed.

(** X3. A call of the executor for one platform leaves the timestamp lists
    of all other platforms as they were. *)
Theorem safe_api_call_other_platforms (E : Env) (platform : string)
    (api_function : Fetch) (url : string) (arg : option Z) (w : World)
    (other : string) :
  oracle_ok E ->
  other <> platform ->
  request_timestamps (snd (safe_api_call E platform api_function url arg w))
    !! other = request_timestamps w !! other.
Proof.
  intros HE Hne. unfold safe_api_call.
  destruct (safe_api_loop_effects E platform api_function url
              (default (max_retries (config_for platform)) arg)
              (range (default (max_retries (config_for platform)) arg + 1)) HE w)
    as (result & w' & Hloop & Hadv & _).
  rewrite Hloop. destruct Hadv as (_ & _ & Hq & _). apply Hq, Hne.
Qed.

(** X4. A call of the executor keeps the timestamp lists in request order
    and free of future times, and the clock does not run backwards. *)
Theorem safe_api_call_keeps_order (E : Env) (platform : string)
    (api_function : Fetch) (url : string) (arg : option Z) (w : World) :
  oracle_ok E ->
  timestamps_wf w ->
  timestamps_wf (snd (safe_api_call E platform api_function url arg w)) /\
  (clock w <= clock (snd (safe_api_call E platform api_function url arg w)))%Q.
Proof.
  intros HE Hwf. unfold safe_api_call.
  destruct (safe_api_loop_effects E platform api_function url
              (default (max_retries (config_for platform)) arg)
              (range (default (max_retries (config_for platform)) arg + 1)) HE w)
    as (result & w' & Hloop & Hadv & _).
  rewrite Hloop. destruct Hadv as (Hclock & _ & _ & _ & _ & Hkeep & _).
  split; auto.
Qed.

(** X5. With a negative retry ceiling passed in, the executor makes no
    attempt at all: the world is untouched and the answer is the record of
    exactly the three fields url, error and platform, with the error text
    Max retries (N) exceeded. *)
Theorem safe_api_call_negative_ceiling (E : Env) (platform : string)
    (api_function : Fetch) (url : string) (n : Z) (w : World) :
  (n < 0)%Z ->
  safe_api_call E platform api_function url (Some n) w =
    (Ok ({[ "url" := VStr url;
            "error" := VStr ("Max retries (" +:+ pretty n +:+ ") exceeded");
            "platform" := VStr platform ]} : Dict), w).
Proof.
  intros Hn. unfold safe_api_call, range. cbn [default from_option id].
  rewrite seqZ_nil by lia. reflexivity.
Qed.

(** X6. For a platform without a timestamp list, such as unknown or
    default, the admission raises [KeyError], whose text is the [repr] of
    the name; unless that text reads as a quota error, the executor answers
    at once with the record of exactly the three fields url, error (that
    text) and platform: no fetch is made and the world is untouched. *)
Theorem safe_api_call_missing_platform (E : Env) (platform : string)
    (api_function : Fetch) (url : string) (arg : option Z) (w : World) :
  oracle_ok E ->
  request_timestamps w !! platform = None ->
  quota_text (Py.repr platform) = false ->
  (0 <= default (max_retries (config_for platform)) arg)%Z ->
  safe_api_call E platform api_function url arg w =
    (Ok ({[ "url" := VStr url; "error" := VStr (Py.repr platform);
            "platform" := VStr platform ]} : Dict), w).
Proof.
  intros HE Hnone Hplain HN. unfold safe_api_call, range.
  rewrite seqZ_cons by lia. cbn [safe_api_loop]. unfold bind.
  destruct (safe_api_turn_missing E platform api_function url
              (default (max_retries (config_for platform)) arg) 0 w HE Hnone)
    as (w' & Hturn & _ & _ & Hsame).
  rewrite Hturn, (Hsame Hplain). unfold verdict. rewrite Hplain. reflexivity.
Qed.

(** X9. A fetched record whose error is a number other than zero makes the
    error check itself fail with [AttributeError]; after the one fetch the
    executor answers with the record of exactly the three fields url, error
    (the text of that exception) and platform, and the fetched record is
    lost. *)
Theorem safe_api_call_numeric_error (E : Env) (platform : string)
    (api_function : Fetch) (url : string) (arg : option Z) (w : World)
    (result : Dict) (n : Z) :
  oracle_ok E ->
  is_Some (request_timestamps w !! platform) ->
  (0 <= default (max_retries (config_for platform)) arg)%Z ->
  api_function (calls w) url = Return result ->
  result !! "error" = Some (VInt n) -> n <> 0%Z ->
  exists w',
    safe_api_call E platform api_function url arg w =
      (Ok ({[ "url" := VStr url;
              "error" := VStr "'int' object has no attribute 'lower'";
              "platform" := VStr platform ]} : Dict), w') /\
    calls w' = S (calls w).
Proof.
  intros HE Hready HN Hfetch Herr Hn.
  apply (safe_api_call_first_attempt E platform api_function url arg w
           (error_record url "'int' object has no attribute 'lower'" platform));
    try assumption.
  rewrite Hfetch. unfold verdict. rewrite Herr.
  apply Z.eqb_neq in Hn. rewrite Hn. reflexivity.
Qed.

Lemma pow2_nonneg (a : Z) : (0 <= inject_Z (2 ^ a))%Q.
Proof.
  change 0%Q with (inject_Z 0). rewrite <- Zle_Qle.
  destruct (Z.le_gt_cases 0 a) as [Hpos|Hneg].
  - apply Z.pow_nonneg. lia.
  - rewrite Z.pow_neg_r by lia. lia.
Qed.

Lemma pow2_succ (a : Z) :
  (0 <= a)%Z -> (inject_Z (2 ^ Z.succ a) == 2 * inject_Z (2 ^ a))%Q.
Proof.
  intros Ha. rewrite Z.pow_succ_r by exact Ha. rewrite inject_Z_mult.
  reflexivity.
Qed.

(** Each retried turn costs the shortest pause and the back-off of its
    attempt. *)
Lemma safe_api_loop_backoff (E : Env) (platform : string) (api_function : Fetch)
    (url : string) (max_retries : Z) (rest : list Z) :
  oracle_ok E ->
  forall (k : nat) (attempt : Z) (w : World),
    (0 <= attempt)%Z ->
    (attempt + Z.of_nat k <= max_retries)%Z ->
    is_Some (request_timestamps w !! platform) ->
    (forall i, (i < k)%nat ->
       quota_failure (api_function (calls w + i)%nat url) = true) ->
    exists w',
      safe_api_loop E platform api_function url max_retries
        (seqZ attempt (Z.of_nat k) ++ rest)%list w =
      safe_api_loop E platform api_function url max_retries rest w' /\
      is_Some (request_timestamps w' !! platform) /\
      (clock w + inject_Z (Z.of_nat k) * min_delay platform
       + (inject_Z (2 ^ (attempt + Z.of_nat k)) - inject_Z (2 ^ attempt))
       <= clock w')%Q.
Proof.
  intros HE k. induction k as [|k IH]; intros attempt w Ha Hle Hready Hfail.
  - exists w. simpl. rewrite Z.add_0_r. split_and!; [reflexivity | exact Hready |].
    change (inject_Z (Z.of_nat 0)) with 0%Q.
    set (m := min_delay platform). set (lo := inject_Z (2 ^ attempt)). lra.
  - rewrite seqZ_cons by lia. cbn [app safe_api_loop]. unfold bind at 1.
    destruct (safe_api_turn_effects E platform api_function url max_retries
                attempt w HE Hready) as (w1 & Hturn & Hcalls & Hadv & Hclock).
    rewrite verdict_quota in Hturn, Hclock; [| |lia| |lia];
      try (specialize (Hfail 0%nat); rewrite Nat.add_0_r in Hfail;
           apply Hfail; lia).
    rewrite Hturn.
    replace (Z.pred (Z.of_nat (S k))) with (Z.of_nat k) by lia.
    destruct (IH (Z.succ attempt) w1) as (w' & Hloop & Hready' & Hclock').
    + lia.
    + lia.
    + destruct Hadv as (_ & _ & _ & Hsome & _). apply Hsome, Hready.
    + intros i Hi. rewrite Hcalls.
      replace (S (calls w) + i)%nat with (calls w + S i)%nat by lia.
      apply Hfail. lia.
    + exists w'. split; [exact Hloop|]. split; [exact Hready'|].
      replace (attempt + Z.of_nat (S k))%Z with (Z.succ attempt + Z.of_nat k)%Z
        by lia.
      pose proof (pow2_succ attempt Ha) as Hsucc.
      replace (Z.of_nat (S k)) with (Z.of_nat k + 1)%Z by lia.
      rewrite inject_Z_plus. change (inject_Z 1) with 1%Q.
      set (top := inject_Z (2 ^ (Z.succ attempt + Z.of_nat k))) in *.
      set (lo := inject_Z (2 ^ attempt)) in *.
      set (mid := inject_Z (2 ^ Z.succ attempt)) in *.
      set (m := min_delay platform) in *.
      set (kq := inject_Z (Z.of_nat k)) in *.
      lra.
Qed.

(** X8. When the first [max_retries] fetches fail with quota errors, the
    call lasts at least [max_retries + 1] shortest pauses and the back-offs
    1 + 2 + ... + 2^(max_retries - 1) = 2^max_retries - 1 seconds. *)
Theorem safe_api_call_backoff_time (E : Env) (platform : string)
    (api_function : Fetch) (url : string) (arg : option Z) (w : World) :
  oracle_ok E ->
  is_Some (request_timestamps w !! platform) ->
  let N := default (max_retries (config_for platform)) arg in
  (0 <= N)%Z ->
  (forall i, (i < Z.to_nat N)%nat ->
     quota_failure (api_function (calls w + i)%nat url) = true) ->
  (clock w + (inject_Z N + 1) * min_delay platform + (inject_Z (2 ^ N) - 1)
   <= clock (snd (safe_api_call E platform api_function url arg w)))%Q.
Proof.
  intros HE Hready N HN Hfail. unfold safe_api_call. fold N.
  rewrite range_last by exact HN.
  destruct (safe_api_loop_backoff E platform api_function url N [N] HE
              (Z.to_nat N) 0%Z w) as (w1 & Hloop & Hready1 & Hclock1);
    [lia | lia | exact Hready | exact Hfail |].
  rewrite Hloop. rewrite Z2Nat.id in Hclock1 by exact HN.
  rewrite Z.add_0_l in Hclock1. change (inject_Z (2 ^ 0)) with 1%Q in Hclock1.
  destruct (safe_api_loop_effects E platform api_function url N [N] HE w1)
    as (result & w' & Hlast & _ & _ & _ & Hsome & _).
  rewrite Hlast. cbn [snd].
  destruct (Hsome Hready1) as [_ Hclock']; [discriminate|].
  set (m := min_delay platform) in *. set (n := inject_Z N) in *.
  set (top := inject_Z (2 ^ N)) in *. lra.
Qed.

(** ** The rate limiter: how long an admission lasts *)

(** X10. An admission lasts at least 0.8 times the base delay of the
    platform. Below the ceiling it lasts at most 1.2 times the base delay
    plus the overrun of its one sleep. At the ceiling it first waits more
    than 1 and at most 61 seconds, so it lasts more than 1 second plus the
    shortest pause and at most 61 seconds plus 1.2 times the base delay
    plus the overruns of its two sleeps. *)
Theorem rate_limit_delay_duration (E : Env) (platform : string) (w : World)
    (tss : list Q) :
  oracle_ok E ->
  timestamps_wf w ->
  request_timestamps w !! platform = Some tss ->
  let base := delay_between_requests (config_for platform) in
  let ceiling := requests_per_minute (config_for platform) in
  let kept := recent (clock w) tss in
  let after := clock (snd (rate_limit_delay E platform w)) in
  (clock w + 0.8 * base <= after)%Q /\
  ((Z.of_nat (length kept) < ceiling)%Z ->
     (after <= clock w + 1.2 * base + sleep_overrun E (sleeps w))%Q) /\
  ((ceiling <= Z.of_nat (length kept))%Z ->
     (clock w + 1 + 0.8 * base < after)%Q /\
     (after <= clock w + 61 + 1.2 * base + sleep_overrun E (sleeps w)
               + sleep_overrun E (S (sleeps w)))%Q).
Proof.
  intros HE Hwf Hts base ceiling kept after.
  destruct (rate_limit_delay_run E platform w tss HE Hts)
    as (c & n & Hrun & Hpause & Hc & Hwait & Hfree).
  destruct (config_for_bounds platform) as (_ & Hbase & _). fold base in Hbase.
  destruct HE as [Hrand Hover]. destruct (Hrand (draws w)) as [Hu0 Hu1].
  pose proof (Hover (sleeps w)) as Hov1.
  pose proof (Hover (S (sleeps w))) as Hov2.
  unfold after. rewrite Hrun. cbn [snd clock].
  fold base ceiling kept in Hpause, Hc, Hwait, Hfree.
  set (u := random_draw E (draws w)) in *.
  set (ov1 := sleep_overrun E (sleeps w)) in *.
  set (ov2 := sleep_overrun E (S (sleeps w))) in *.
  split_and!.
  - eapply Qle_trans; [|exact Hc]. nra.
  - intros Hlt. destruct (Hfree Hlt) as [_ ->]. nra.
  - intros Hfull. destruct (Hwait Hfull) as (oldest & rest & Hkept & _ & Heq).
    assert (Hin : In oldest (recent (clock w) tss))
      by (fold kept; rewrite Hkept; left; reflexivity).
    apply recent_In in Hin as [Hin Hyoung].
    destruct (Hwf _ _ Hts) as [_ Hall]. rewrite List.Forall_forall in Hall.
    pose proof (Hall oldest Hin) as Hpast.
    rewrite Heq. split; nra.
Qed.

(** ** The batch, whatever the fetch functions do *)

Lemma moves_on_refl (w : World) : moves_on w w.
Proof. unfold moves_on. split_and!; auto; try apply Qle_refl; reflexivity. Qed.

Lemma moves_on_trans (w1 w2 w3 : World) :
  moves_on w1 w2 -> moves_on w2 w3 -> moves_on w1 w3.
Proof.
  intros (Hc & Hn & Hk & Hwf & Hsp) (Hc' & Hn' & Hk' & Hwf' & Hsp').
  unfold moves_on. split_and!; auto.
  - eapply Qle_trans; eassumption.
  - lia.
  - intros q. rewrite Hk', Hk. reflexivity.
Qed.

Lemma advances_moves_on (platform : string) (w w' : World) :
  advances platform w w' -> moves_on w w'.
Proof.
  intros (Hc & Hn & Hq & Hsome & Hnone & Hwf & Hsp).
  unfold moves_on. split_and!; auto.
  - intros q. destruct (decide (q = platform)) as [->|Hne].
    + split; [|exact Hsome].
      destruct (request_timestamps w !! platform) eqn:Hw; [eauto|].
      rewrite Hnone by reflexivity. intros [x Hx]. discriminate.
    + rewrite Hq by exact Hne. reflexivity.
  - intros q. destruct (decide (q = platform)) as [->|Hne]; [exact Hsp|].
    intros Hq0 tss Htss. rewrite Hq in Htss by exact Hne.
    destruct (Hq0 tss Htss) as [Hs Hall]. split; [exact Hs|].
    rewrite List.Forall_forall in *. intros ts Hin.
    eapply Qle_trans; [apply Hall, Hin | exact Hc].
Qed.

Lemma config_for_retries (platform : string) :
  (max_retries (config_for platform) <= 3)%Z.
Proof.
  unfold config_for.
  assert (Hall : map_Forall (fun _ c => (max_retries c <= 3)%Z) RATE_LIMIT_CONFIG).
  { unfold RATE_LIMIT_CONFIG.
    repeat (apply map_Forall_insert_2; [simpl; lia|]).
    apply map_Forall_empty. }
  destruct (RATE_LIMIT_CONFIG !! platform) as [c|] eqn:Hc; simpl.
  - exact (Hall _ _ Hc).
  - lia.
Qed.

(** Where a record of the batch loop comes from. *)
Lemma process_link_effects (E : Env) (url : string) (w : World) :
  oracle_ok E ->
  exists result w',
    process_link E url w = (Ok result, w') /\
    moves_on w w' /\
    (calls w' <= calls w + 4 * length (known_links [url]))%nat /\
    (result = unsupported_record url \/
     (exists msg, result = error_record url msg (detect_platform url)) \/
     (exists k, fetch_of E (detect_platform url) k url = Return result)).
Proof.
  intros HE. unfold known_links. cbn [List.filter].
  destruct (detect_platform_known url) as [Hknown | Hunknown].
  - destruct (processors_lookup E _ Hknown) as (fetch & Hsingle & Hproc).
    unfold process_link. rewrite Hproc.
    destruct (safe_api_loop_effects E (detect_platform url) fetch url
                (max_retries (config_for (detect_platform url)))
                (range (max_retries (config_for (detect_platform url)) + 1))
                HE w)
      as (result & w' & Hloop & Hadv & Hle & _ & _ & Hfrom).
    exists result, w'. split; [exact Hloop|].
    split; [eapply advances_moves_on; exact Hadv|].
    rewrite range_length in Hle.
    pose proof (config_for_retries (detect_platform url)) as Hmax.
    split.
    + assert (Hne : String.eqb (detect_platform url) "unknown" = false).
      { apply String.eqb_neq. intros Heq. rewrite Heq in Hknown.
        apply list_elem_of_In in Hknown. unfold PLATFORMS in Hknown.
        simpl in Hknown.
        repeat (destruct Hknown as [Hknown | Hknown]; [discriminate|]).
        destruct Hknown. }
      rewrite Hne. cbn [negb length]. lia.
    + right. destruct Hfrom as [(k & _ & Hfetch) | (msg & ->)].
      * right. exists k.
        assert (Hf : fetch_of E (detect_platform url) = fetch)
          by (unfold fetch_of; rewrite Hsingle; reflexivity).
        rewrite Hf. exact Hfetch.
      * left. exists msg. reflexivity.
  - rewrite process_link_unknown by exact Hunknown.
    eexists _, w. split; [reflexivity|].
    split; [apply moves_on_refl|]. split; [lia|]. left. reflexivity.
Qed.

Lemma known_links_cons (url : string) (links : list string) :
  length (known_links (url :: links)) =
  (length (known_links [url]) + length (known_links links))%nat.
Proof.
  unfold known_links. cbn [List.filter].
  destruct (negb (String.eqb (detect_platform url) "unknown")); reflexivity.
Qed.

Lemma process_each_effects (E : Env) (links : list string) :
  oracle_ok E ->
  forall (all_results : list Dict) (w : World),
    exists produced w',
      process_each E links all_results w =
        (Ok (all_results ++ produced)%list, w') /\
      moves_on w w' /\
      (calls w' <= calls w + 4 * length (known_links links))%nat /\
      Forall2 (fun url result =>
                 result = unsupported_record url \/
                 (exists msg, result = error_record url msg (detect_platform url)) \/
                 (exists k, fetch_of E (detect_platform url) k url = Return result))
              links produced.
Proof.
  intros HE. induction links as [|url rest IH]; intros all_results w.
  - exists [], w. rewrite app_nil_r.
    split_and!; [reflexivity | apply moves_on_refl | simpl; lia | constructor].
  - destruct (process_link_effects E url w HE)
      as (result & w1 & Hlink & Hmove & Hle & Hfrom).
    destruct (IH (all_results ++ [result])%list w1)
      as (produced & w' & Heach & Hmove' & Hle' & Hall).
    exists (result :: produced), w'.
    cbn [process_each]. unfold bind. rewrite Hlink, Heach.
    rewrite <- app_assoc. split; [reflexivity|].
    split; [eapply moves_on_trans; eassumption|].
    split; [rewrite known_links_cons; lia|].
    constructor; assumption.
Qed.

Lemma process_links_effects (E : Env) (links : list string) (w : World) :
  oracle_ok E -> links <> [] ->
  exists produced w',
    process_links E links w =
      (Ok (Batch (map to_record produced)
                 (mkSummary (Z.of_nat (length (map to_record produced)))
                            (error_stats (map to_record produced)) true)), w') /\
    moves_on w w' /\
    (calls w' <= calls w + 4 * length (known_links links))%nat /\
    Forall2 (fun url result =>
               result = unsupported_record url \/
               (exists msg, result = error_record url msg (detect_platform url)) \/
               (exists k, fetch_of E (detect_platform url) k url = Return result))
            links produced.
Proof.
  intros HE Hne.
  destruct (process_each_effects E links HE [] w)
    as (produced & w' & Heach & Hmove & Hle & Hall).
  exists produced, w'. split; [|split_and!; assumption].
  unfold process_links. destruct links as [|url rest]; [congruence|].
  unfold bind. rewrite Heach. reflexivity.
Qed.

(** X11. For a batch that is not empty, with any fetch functions and any
    timestamp table, [process_links] does not raise: it answers with one
    record per link, reports that number as [total_processed] and sets
    [rate_limiting_applied]. *)
Theorem process_links_one_record_each (E : Env) (links : list string)
    (w : World) :
  oracle_ok E -> links <> [] ->
  exists results summary w',
    process_links E links w = (Ok (Batch results summary), w') /\
    length results = length links /\
    total_processed summary = Z.of_nat (length links) /\
    rate_limiting_applied summary = true.
Proof.
  intros HE Hne.
  destruct (process_links_effects E links w HE Hne)
    as (produced & w' & Hrun & _ & _ & Hall).
  eexists _, _, w'. split; [exact Hrun|].
  cbn [total_processed rate_limiting_applied].
  rewrite length_map, <- (Forall2_length _ _ _ Hall). auto.
Qed.

(** X12. A batch makes at most four fetches per link of a known platform,
    and none for the other links. *)
Theorem process_links_fetch_budget (E : Env) (links : list string) (w : World) :
  oracle_ok E ->
  (calls (snd (process_links E links w)) <=
   calls w + 4 * length (known_links links))%nat.
Proof.
  intros HE. destruct links as [|url rest]; [simpl; lia|].
  destruct (process_links_effects E (url :: rest) w HE)
    as (produced & w' & Hrun & _ & Hle & _); [discriminate|].
  rewrite Hrun. exact Hle.
Qed.

(** X13. A batch keeps the timestamp lists in request order and free of
    future times, does not turn the clock back, and neither adds nor drops
    the timestamp list of any platform. *)
Theorem process_links_keeps_order (E : Env) (links : list string) (w : World) :
  oracle_ok E ->
  timestamps_wf w ->
  timestamps_wf (snd (process_links E links w)) /\
  (clock w <= clock (snd (process_links E links w)))%Q /\
  (forall q, is_Some (request_timestamps (snd (process_links E links w)) !! q)
             <-> is_Some (request_timestamps w !! q)).
Proof.
  intros HE Hwf. destruct links as [|url rest].
  - simpl. split_and!; [exact Hwf | apply Qle_refl | reflexivity].
  - destruct (process_links_effects E (url :: rest) w HE)
      as (produced & w' & Hrun & (Hc & _ & Hk & Hkeep & _) & _); [discriminate|].
    rewrite Hrun. cbn [snd]. auto.
Qed.

(** ** The records and the summary of a batch *)

Lemma to_record_dom (row : Dict) :
  dom (to_record row) = list_to_set standard_columns.
Proof. unfold to_record. rewrite dom_list_to_map_L. reflexivity. Qed.

Lemma to_record_lookup_other (row : Dict) (col : string) :
  col ∉ standard_columns -> to_record row !! col = None.
Proof.
  intros Hcol. unfold to_record. apply not_elem_of_list_to_map_1. exact Hcol.
Qed.

Lemma to_record_idempotent (row : Dict) : to_record (to_record row) = to_record row.
Proof.
  apply map_eq. intros col.
  destruct (decide (col ∈ standard_columns)) as [Hcol | Hcol].
  - rewrite !to_record_lookup by exact Hcol. unfold cell at 1.
    rewrite to_record_lookup by exact Hcol. reflexivity.
  - rewrite !to_record_lookup_other by exact Hcol. reflexivity.
Qed.

Lemma batch_results_normalised (E : Env) (links : list string) (w : World) :
  exists rows, batch_results (process_links E links w) = map to_record rows /\
               batch_stats (process_links E links w) =
                 error_stats (map to_record rows).
Proof.
  unfold batch_results, batch_stats, process_links.
  destruct links as [|url rest]; [exists []; split; reflexivity|].
  unfold bind. destruct (process_each E (url :: rest) [] w) as [[rows|msg] w'].
  - exists rows. split; reflexivity.
  - exists []. split; reflexivity.
Qed.

(** X14. The record at each position of a batch is the record that the
    loop collected at that position, brought to the thirteen standard
    columns: a standard column holds the value that the collected record
    has there, or null when the collected record lacks it, and no other
    key is left. *)
Theorem batch_records_columns (E : Env) (links : list string) (w : World) :
  oracle_ok E -> links <> [] ->
  exists rows w',
    process_each E links [] w = (Ok rows, w') /\
    length (batch_results (process_links E links w)) = length rows /\
    forall i row, rows !! i = Some row ->
      exists record,
        batch_results (process_links E links w) !! i = Some record /\
        dom record = list_to_set standard_columns /\
        (forall col v, col ∈ standard_columns -> row !! col = Some v ->
           record !! col = Some v) /\
        (forall col, col ∈ standard_columns -> row !! col = None ->
           record !! col = Some VNone) /\
        (forall col, col ∉ standard_columns -> record !! col = None).
Proof.
  intros HE Hne.
  destruct (process_each_effects E links HE [] w)
    as (rows & w' & Heach & _). cbn [app] in Heach.
  exists rows, w'. split; [exact Heach|].
  assert (Hres : batch_results (process_links E links w) = map to_record rows).
  { unfold batch_results, process_links.
    destruct links as [|url rest]; [congruence|].
    unfold bind. rewrite Heach. reflexivity. }
  rewrite Hres. split; [apply length_map|].
  intros i row Hrow. exists (to_record row). split_and!.
  - change (map to_record rows) with (to_record <$> rows).
    rewrite list_lookup_fmap, Hrow. reflexivity.
  - apply to_record_dom.
  - intros col v Hcol Hv. rewrite to_record_lookup by exact Hcol.
    unfold cell. rewrite Hv. reflexivity.
  - intros col Hcol Hv. rewrite to_record_lookup by exact Hcol.
    unfold cell. rewrite Hv. reflexivity.
  - intros col. apply to_record_lookup_other.
Qed.

(** X15. Bringing the records of a batch to the standard columns once more
    changes neither the records nor the statistics computed from them. *)
Theorem batch_results_stable (E : Env) (links : list string) (w : World) :
  map to_record (batch_results (process_links E links w)) =
    batch_results (process_links E links w) /\
  error_stats (map to_record (batch_results (process_links E links w))) =
    batch_stats (process_links E links w).
Proof.
  destruct (batch_results_normalised E links w) as (rows & -> & ->).
  assert (Hsame : map to_record (map to_record rows) = map to_record rows).
  { rewrite map_map. apply map_ext. intros row. apply to_record_idempotent. }
  rewrite Hsame. split; reflexivity.
Qed.

Lemma value_counts_null (values : list pyval) (p : pyval) :
  notna p = false -> value_counts values !! p = None.
Proof.
  intros Hp. induction values as [|v values IH]; [reflexivity|].
  cbn [value_counts foldr]. fold (value_counts values).
  destruct (notna v) eqn:Hv; [|exact IH].
  rewrite lookup_insert_ne by congruence. exact IH.
Qed.

Lemma filter_length_and {A} (f g : A -> bool) (l : list A) :
  (length (List.filter (fun x => f x && g x) l) <= length (List.filter f l))%nat.
Proof.
  induction l as [|x l IH]; [reflexivity|]. cbn [List.filter].
  destruct (f x), (g x); cbn [andb length]; lia.
Qed.

Lemma error_stats_entry (df : list Dict) (p : pyval) (st : Stats) :
  Forall complete df ->
  error_stats df !! p = Some st ->
  p <> VNone /\
  (exists record, record ∈ df /\ record !! "platform" = Some p) /\
  total st = Z.of_nat (length (records_with p df)) /\
  (1 <= total st <= Z.of_nat (length df))%Z /\
  (0 <= errors st <= total st)%Z /\
  success st = (total st - errors st)%Z.
Proof.
  intros Hall. unfold error_stats. rewrite map_lookup_imap.
  destruct (notna p) eqn:Hp.
  2:{ rewrite value_counts_null by exact Hp. discriminate. }
  rewrite value_counts_lookup by exact Hp.
  rewrite platform_column_count by exact Hall.
  destruct (records_with p df) as [|r rs] eqn:Hrecs; [discriminate|].
  cbn [mbind option_bind]. intros [= <-]. cbn [total errors success].
  assert (Hr : In r (records_with p df)) by (rewrite Hrecs; left; reflexivity).
  unfold records_with in Hr. apply filter_In in Hr as [Hr Hplat].
  apply bool_decide_eq_true_1 in Hplat.
  pose proof (filter_length_le
                (fun record => bool_decide (record !! "platform" = Some p)) df)
    as Hlen.
  fold (records_with p df) in Hlen. rewrite Hrecs in Hlen.
  pose proof (filter_length_and
                (fun row => bool_decide (cell "platform" row = p))
                (fun row => notna (cell "error" row)) df) as Herr.
  fold (error_count df p) in Herr.
  assert (Htot : length (List.filter
                   (fun row => bool_decide (cell "platform" row = p)) df)
                 = length (r :: rs)).
  { rewrite <- Hrecs, <- platform_column_count by exact Hall.
    clear. induction df as [|row df IH]; [reflexivity|].
    cbn [map List.filter].
    destruct (bool_decide (cell "platform" row = p)); cbn [length]; lia. }
  unfold error_count in *. rewrite Htot in Herr. cbn [length] in *.
  split_and!; try reflexivity; try lia.
  - destruct p; [discriminate Hp | discriminate..].
  - exists r. split; [apply list_elem_of_In, Hr | exact Hplat].
Qed.

(** X16. Every entry of the platform statistics of a batch belongs to a
    platform value that is not null and that a record of the batch
    carries; its total is the number of these records, at least one and at
    most the size of the batch, its errors lie between zero and the total,
    and its success is the rest. *)
Theorem platform_stats_entries (E : Env) (links : list string) (w : World)
    (p : pyval) (st : Stats) :
  batch_stats (process_links E links w) !! p = Some st ->
  p <> VNone /\
  (exists record, record ∈ batch_results (process_links E links w) /\
                  record !! "platform" = Some p) /\
  total st =
    Z.of_nat (length (records_with p (batch_results (process_links E links w)))) /\
  (1 <= total st <=
   Z.of_nat (length (batch_results (process_links E links w))))%Z /\
  (0 <= errors st <= total st)%Z /\
  success st = (total st - errors st)%Z.
Proof.
  destruct (batch_results_normalised E links w) as (rows & -> & ->).
  apply error_stats_entry.
  apply Forall_forall. intros r Hr. apply list_elem_of_In, in_map_iff in Hr.
  destruct Hr as (row & <- & _). apply to_record_complete.
Qed.

Lemma fetch_of_names_url (E : Env) (p : string) (k : nat) (url : string)
    (result : Dict) :
  well_behaved E -> p ∈ PLATFORMS ->
  fetch_of E p k url = Return result ->
  result !! "url" = Some (VStr url) /\
  exists v, result !! "platform" = Some v /\ v <> VNone.
Proof.
  intros (Hx & Hy & Hi & Bx & By & Bt & Bs & Bi & Bl) Hp.
  assert (Hcatch : forall backend platform,
            names_url backend ->
            with_except backend platform k url = Return result ->
            result !! "url" = Some (VStr url) /\
            exists v, result !! "platform" = Some v /\ v <> VNone).
  { intros backend platform Hb. unfold with_except.
    destruct (backend k url) as [r|e] eqn:Hbk; intros [= <-].
    - exact (Hb _ _ _ Hbk).
    - split; [reflexivity|]. exists (VStr platform). split; [reflexivity|].
      discriminate. }
  apply list_elem_of_In in Hp. unfold PLATFORMS in Hp. simpl in Hp.
  destruct Hp as [<- | [<- | [<- | [<- | [<- | [<- | []]]]]]];
    change (fetch_of E _) with (fetch_x_metrics E)
    || change (fetch_of E _) with (fetch_youtube_metrics E)
    || change (fetch_of E _) with (fetch_tiktok_metrics E)
    || change (fetch_of E _) with (fetch_stockbit_metrics E)
    || change (fetch_of E _) with (fetch_instagram_metrics E)
    || change (fetch_of E _) with (fetch_linkedin_metrics E);
    unfold fetch_x_metrics, fetch_youtube_metrics, fetch_tiktok_metrics,
      fetch_stockbit_metrics, fetch_instagram_metrics, fetch_linkedin_metrics;
    rewrite ?decide_True by assumption; eauto.
Qed.

(** X17. When the three drivers are configured and every record that a
    backend delivers names the URL it was asked for and a platform, the
    record at each position of the batch carries the link of that position
    as URL and a platform that is not null. *)
Theorem process_links_keeps_urls (E : Env) (links : list string) (w : World)
    (i : nat) (url : string) :
  oracle_ok E -> well_behaved E ->
  links !! i = Some url ->
  exists record,
    batch_results (process_links E links w) !! i = Some record /\
    record !! "url" = Some (VStr url) /\
    exists v, record !! "platform" = Some v /\ v <> VNone.
Proof.
  intros HE HW Hi.
  assert (Hne : links <> []) by (intros ->; discriminate).
  destruct (process_links_effects E links w HE Hne)
    as (produced & w' & Hrun & _ & _ & Hall).
  destruct (Forall2_lookup_l _ _ _ _ _ Hall Hi) as (row & Hrow & Hfrom).
  exists (to_record row). unfold batch_results. rewrite Hrun. cbn [fst].
  split.
  { change (map to_record produced) with (to_record <$> produced).
    rewrite list_lookup_fmap, Hrow. reflexivity. }
  assert (Hrowok : row !! "url" = Some (VStr url) /\
                   exists v, row !! "platform" = Some v /\ v <> VNone).
  { destruct Hfrom as [-> | [(msg & ->) | (k & Hfetch)]].
    - split; [reflexivity|]. exists (VStr "unknown").
      split; [reflexivity | discriminate].
    - split; [reflexivity|]. exists (VStr (detect_platform url)).
      split; [reflexivity | discriminate].
    - destruct (detect_platform_known url) as [Hknown | Hunknown].
      + exact (fetch_of_names_url E _ k url row HW Hknown Hfetch).
      + rewrite Hunknown in Hfetch. discriminate. }
  destruct Hrowok as (Hurl & v & Hplat & Hv).
  rewrite !to_record_lookup by in_list. unfold cell. rewrite Hurl, Hplat.
  split; [reflexivity|]. exists v. split; [reflexivity | exact Hv].
Qed.

(** ** Stripping *)

Lemma lstrip_head (s : string) :
  Py.lstrip s = "" \/
  exists c t, Py.lstrip s = String c t /\ Py.isspace c = false.
Proof.
  induction s as [|c s IH]; [left; reflexivity|]. cbn [Py.lstrip].
  destruct (Py.isspace c) eqn:Hc; [exact IH|]. right. eauto.
Qed.

Lemma rstrip_head (c : Ascii.ascii) (t : string) :
  Py.isspace c = false -> exists t', Py.rstrip (String c t) = String c t'.
Proof.
  intros Hc. cbn [Py.rstrip]. rewrite Hc. destruct (Py.rstrip t); eauto.
Qed.

Lemma rstrip_idempotent (s : string) : Py.rstrip (Py.rstrip s) = Py.rstrip s.
Proof.
  induction s as [|c s IH]; [reflexivity|]. cbn [Py.rstrip].
  destruct (Py.rstrip s) as [|d r] eqn:Hr.
  - destruct (Py.isspace c) eqn:Hc; [reflexivity|].
    cbn [Py.rstrip]. rewrite Hc. reflexivity.
  - change (Py.rstrip (String c (String d r))) with
      (match Py.rstrip (String d r) with
       | EmptyString => if Py.isspace c then EmptyString else String c EmptyString
       | r0 => String c r0
       end).
    rewrite IH. reflexivity.
Qed.

Lemma strip_idempotent (s : string) : Py.strip (Py.strip s) = Py.strip s.
Proof.
  unfold Py.strip. destruct (lstrip_head s) as [-> | (c & t & -> & Hc)];
    [reflexivity|].
  destruct (rstrip_head c t Hc) as (t' & Ht'). rewrite Ht'.
  cbn [Py.lstrip]. rewrite Hc, <- Ht'. apply rstrip_idempotent.
Qed.

(** ** The batch route *)

Lemma valid_links_stripped (items : list jval) (url : string) :
  url ∈ valid_links items -> url <> "" /\ Py.strip url = url.
Proof.
  unfold valid_links. rewrite list_elem_of_omap.
  intros (item & _ & Hitem). destruct item; try discriminate.
  destruct (String.eqb (Py.strip s) "") eqn:Hblank; [discriminate|].
  injection Hitem as <-. split; [apply String.eqb_neq, Hblank|].
  apply strip_idempotent.
Qed.

Lemma error_stats_empty (df : list Dict) :
  Forall complete df ->
  error_stats df = ∅ <->
  forall record, record ∈ df -> record !! "platform" = Some VNone.
Proof.
  intros Hall. split.
  - intros Hempty record Hin.
    pose proof (proj1 (Forall_forall _ _) Hall record Hin) as Hcomplete.
    destruct (Hcomplete "platform" ltac:(in_list)) as [p Hp].
    destruct (decide (p = VNone)) as [-> | Hnn]; [exact Hp|].
    pose proof (error_stats_lookup df p record Hall Hin Hp Hnn) as Hentry.
    rewrite Hempty, lookup_empty in Hentry. discriminate.
  - intros Hnull. apply map_empty. intros p.
    destruct (error_stats df !! p) as [st|] eqn:Hst; [|reflexivity].
    destruct (error_stats_entry df p st Hall Hst)
      as (Hnn & (record & Hin & Hp) & _).
    rewrite (Hnull record Hin) in Hp. congruence.
Qed.

(** X18. Whenever the request does not hold a JSON object with, under
    links, a list with at least one string that is not blank, the batch
    route answers with an error and leaves the world as it is, so without
    any fetch. The status is 500 when [get_json] raises and when the
    decoded body is no object and is not null, false, zero or empty (a
    list, a text, a number have no [get]); else it is 400. *)
Theorem extract_engagement_rejects (E : Env) (body : GetJson) (w : World) :
  (forall fields items,
     body = Decoded (JObj fields) -> fields !! "links" = Some (JArr items) ->
     valid_links items = []) ->
  exists msg status,
    extract_engagement E body w = (BatchErrorJson msg status, w) /\
    (status = 400 \/ status = 500)%Z /\
    (status = 500%Z <->
     (exists e, body = NotDecoded e) \/
     (exists data, body = Decoded data /\ jtruthy data = true /\
                   forall fields, data <> JObj fields)) /\
    (forall e, body = NotDecoded e -> msg = "Internal server error: " +:+ e) /\
    (forall items, body = Decoded (JArr items) -> items <> [] ->
       msg = "Internal server error: 'list' object has no attribute 'get'").
Proof.
  intros Hnone. unfold extract_engagement.
  destruct body as [data|e].
  2:{ eexists _, _. split; [reflexivity|].
      split_and!; [right; reflexivity | | |].
      - split; [intros _; left; eauto | reflexivity].
      - intros e' [= <-]. reflexivity.
      - intros items [=]. }
  assert (H400 : forall msg,
    jtruthy data = false \/ (exists fields, data = JObj fields) ->
    exists msg' status,
      (BatchErrorJson msg 400, w) = (BatchErrorJson msg' status, w) /\
      (status = 400 \/ status = 500)%Z /\
      (status = 500%Z <->
       (exists e, Decoded data = NotDecoded e) \/
       (exists data', Decoded data = Decoded data' /\ jtruthy data' = true /\
                      forall fields, data' <> JObj fields)) /\
      (forall e, Decoded data = NotDecoded e ->
         msg' = "Internal server error: " +:+ e) /\
      (forall items, Decoded data = Decoded (JArr items) -> items <> [] ->
         msg' = "Internal server error: 'list' object has no attribute 'get'")).
  { intros msg Hdata. exists msg, 400%Z. split; [reflexivity|].
    split_and!; [left; reflexivity | | |].
    - split; [discriminate|].
      intros [(e & [=]) | (data' & [= <-] & Htrue & Hobj)].
      destruct Hdata as [Hfalse | (fields & ->)];
        [congruence | contradiction (Hobj fields); reflexivity].
    - intros e [=].
    - intros items [= ->] Hitems. destruct Hdata as [Hfalse | (fields & [=])].
      destruct items; [contradiction Hitems; reflexivity | discriminate]. }
  destruct (jtruthy data) eqn:Htrue; cbn [negb]; [|apply H400; left; reflexivity].
  destruct data as [|b|n|f|s|items|fields]; cbn [links_of_request type_name].
  7:{ destruct (fields !! "links") as [links|] eqn:Hlinks;
        cbn [default from_option id];
        [|cbn [jtruthy negb]; apply H400; right; eauto].
      destruct (jtruthy links) eqn:Hl; cbn [negb]; [|apply H400; right; eauto].
      destruct links; try (apply H400; right; eauto).
      rewrite (Hnone fields items eq_refl Hlinks). apply H400. right. eauto. }
  all: eexists _, 500%Z; split; [reflexivity|];
    (split_and!;
     [ right; reflexivity
     | split; [intros _; right; eexists; split_and!;
                 [reflexivity | exact Htrue | discriminate]
              | reflexivity]
     | intros e [=]
     | intros items' [=] _; reflexivity || idtac ]).
Qed.

(** X19. When the request holds a JSON object with, under links, a list
    with at least one string that is not blank, the batch route runs
    [process_links] on the stripped non-blank strings of the list, in their
    order, which gives one record for each of them. The answer is 200 with
    that result only when the platform statistics are empty, which is when
    every record has a null platform. When some record names its platform
    (a text, as the fetch functions and the executor write it), the
    statistics hold [numpy.int64] counts, [jsonify] fails and the answer is
    500, as an internal error, after all the fetches were made. *)
Theorem extract_engagement_accepts (E : Env) (fields : gmap string jval)
    (items : list jval) (w : World) :
  oracle_ok E ->
  fields !! "links" = Some (JArr items) ->
  valid_links items <> [] ->
  exists results summary w',
    process_links E (valid_links items) w = (Ok (Batch results summary), w') /\
    length results = length (valid_links items) /\
    (platform_stats summary = ∅ <->
     forall record, record ∈ results -> record !! "platform" = Some VNone) /\
    (platform_stats summary = ∅ ->
     extract_engagement E (Decoded (JObj fields)) w =
       (BatchJson (Batch results summary), w')) /\
    (forall record s,
       record ∈ results -> record !! "platform" = Some (VStr s) ->
       (forall other, other ∈ results ->
          other !! "platform" = Some VNone \/
          exists t, other !! "platform" = Some (VStr t)) ->
       extract_engagement E (Decoded (JObj fields)) w =
         (BatchErrorJson
            "Internal server error: Object of type int64 is not JSON serializable"
            500, w')).
Proof.
  intros HE Hlinks Hvalid.
  destruct (process_links_effects E (valid_links items) w HE Hvalid)
    as (produced & w' & Hrun & _ & _ & Hall).
  eexists _, _, w'. split; [exact Hrun|]. cbn [platform_stats].
  assert (Htrue : jtruthy (JArr items) = true).
  { destruct items; [contradiction Hvalid; reflexivity | reflexivity]. }
  assert (Hobj : jtruthy (JObj fields) = true).
  { cbn [jtruthy]. apply negb_true_iff, bool_decide_eq_false.
    intros ->. rewrite lookup_empty in Hlinks. discriminate. }
  assert (Hroute : extract_engagement E (Decoded (JObj fields)) w =
    match jsonify (Batch (map to_record produced)
             (mkSummary (Z.of_nat (length (map to_record produced)))
                        (error_stats (map to_record produced)) true)) with
    | Ok response => (BatchJson response, w')
    | Exc e => (BatchErrorJson ("Internal server error: " +:+ e) 500, w')
    end).
  { unfold extract_engagement. rewrite Hobj. cbn [negb links_of_request].
    rewrite Hlinks. cbn [default from_option id]. rewrite Htrue. cbn [negb].
    destruct (valid_links items) as [|url rest] eqn:Hv; [congruence|].
    rewrite Hrun. reflexivity. }
  split_and!.
  - rewrite length_map. symmetry. exact (Forall2_length _ _ _ Hall).
  - apply error_stats_empty. apply Forall_forall. intros record Hin.
    apply list_elem_of_In, in_map_iff in Hin as (row & <- & _).
    apply to_record_complete.
  - intros Hempty. rewrite Hroute. cbn [jsonify platform_stats].
    rewrite decide_True by exact Hempty. reflexivity.
  - intros record s Hin Hplatform _. rewrite Hroute. cbn [jsonify platform_stats].
    rewrite decide_False; [reflexivity|]. intros Hempty.
    assert (Hcomplete : Forall complete (map to_record produced)).
    { apply Forall_forall. intros r Hr.
      apply list_elem_of_In, in_map_iff in Hr as (row & <- & _).
      apply to_record_complete. }
    rewrite (proj1 (error_stats_empty _ Hcomplete) Hempty record Hin) in Hplatform.
    discriminate.
Qed.

(** ** The single-URL route, whatever the request *)




(** ** The batch tab of the front end *)

Lemma valid_links_of_stripped (urls : list string) :
  (forall url, url ∈ urls -> url <> "" /\ Py.strip url = url) ->
  valid_links (map JStr urls) = urls.
Proof.
  induction urls as [|url urls IH]; intros Hall; [reflexivity|].
  destruct (Hall url) as [Hne Hsame]; [left|].
  apply String.eqb_neq in Hne.
  change (valid_links (map JStr (url :: urls))) with
    (match (if String.eqb (Py.strip url) "" then None else Some (Py.strip url)) with
     | Some u => u :: valid_links (map JStr urls)
     | None => valid_links (map JStr urls)
     end).
  rewrite Hsame, Hne, IH; [reflexivity|].
  intros u Hu. apply Hall. right. exact Hu.
Qed.

(** X22. Every URL that the batch tab reads from the text area is stripped
    and not empty, and the batch route takes over the whole list as it is:
    it drops none and changes none. *)
Theorem batch_urls_accepted (urls_text : string) :
  (forall url, url ∈ batch_urls urls_text -> url <> "" /\ Py.strip url = url) /\
  valid_links (map JStr (batch_urls urls_text)) = batch_urls urls_text.
Proof.
  assert (Hstripped : forall url, url ∈ batch_urls urls_text ->
                        url <> "" /\ Py.strip url = url).
  { intros url. unfold batch_urls. rewrite list_elem_of_omap.
    intros (line & _ & Hline).
    destruct (String.eqb (Py.strip line) "") eqn:Hblank; [discriminate|].
    injection Hline as <-. split; [apply String.eqb_neq, Hblank|].
    apply strip_idempotent. }
  split; [exact Hstripped | apply valid_links_of_stripped, Hstripped].
Qed.

(** ** [_parse_int] *)

Lemma int_of_digits_acc (acc : Z) (s : string) :
  int_of_digits acc s =
  (acc * 10 ^ Z.of_nat (String.length s) + int_of_digits 0 s)%Z.
Proof.
  revert acc. induction s as [|c s IH]; intros acc.
  - simpl. lia.
  - cbn [int_of_digits String.length]. rewrite IH.
    rewrite (IH (10 * 0 + _)%Z).
    rewrite Nat2Z.inj_succ, Z.pow_succ_r by lia. lia.
Qed.

Lemma pretty_N_char_digit (x : N) :
  (x < 10)%N ->
  isdigit_ascii (pretty_N_char x) = true /\
  (Z.of_nat (Ascii.nat_of_ascii (pretty_N_char x)) - 48)%Z = Z.of_N x.
Proof.
  intros Hx.
  assert (Hcases : (x = 0 \/ x = 1 \/ x = 2 \/ x = 3 \/ x = 4 \/ x = 5 \/
                    x = 6 \/ x = 7 \/ x = 8 \/ x = 9)%N) by lia.
  repeat (destruct Hcases as [-> | Hcases]; [split; reflexivity|]).
  subst x. split; reflexivity.
Qed.

Lemma pretty_N_go_digits (x : N) :
  forall s,
    all_digits s = true ->
    all_digits (pretty_N_go x s) = true /\
    int_of_digits 0 (pretty_N_go x s) =
      (Z.of_N x * 10 ^ Z.of_nat (String.length s) + int_of_digits 0 s)%Z.
Proof.
  induction (N.lt_wf_0 x) as [x _ IH]. intros s Hs.
  destruct (N.eq_dec x 0%N) as [-> | Hx].
  - rewrite pretty_N_go_0. split; [exact Hs | simpl; lia].
  - rewrite pretty_N_go_step by lia.
    assert (Hmod : (x `mod` 10 < 10)%N) by (apply N.mod_lt; lia).
    destruct (pretty_N_char_digit _ Hmod) as [Hdigit Hval].
    destruct (IH (x `div` 10)%N) with
      (s := String (pretty_N_char (x `mod` 10)) s) as [Hall Hint].
    + apply N.div_lt; lia.
    + cbn [all_digits]. rewrite Hdigit, Hs. reflexivity.
    + split; [exact Hall|]. rewrite Hint.
      cbn [String.length int_of_digits].
      rewrite (int_of_digits_acc (10 * 0 + _)%Z), Hval.
      rewrite Nat2Z.inj_succ, Z.pow_succ_r by lia.
      pose proof (N.div_mod x 10 ltac:(lia)) as Hdm.
      apply (f_equal Z.of_N) in Hdm. rewrite N2Z.inj_add, N2Z.inj_mul in Hdm.
      change (Z.of_N 10) with 10%Z in Hdm. lia.
Qed.

Lemma pretty_Z_digits (n : Z) :
  (0 <= n)%Z ->
  isdigit (pretty n) = true /\ int_of_digits 0 (pretty n) = n.
Proof.
  intros Hn. destruct n as [|p|p]; [split; reflexivity | | lia].
  change (pretty (Z.pos p)) with (pretty_N_go (N.pos p) "").
  destruct (pretty_N_go_digits (N.pos p) "" eq_refl) as [Hall Hint].
  split.
  - unfold isdigit. rewrite Hall, andb_true_r. apply negb_true_iff.
    apply String.eqb_neq. intros Hempty. rewrite Hempty in Hint.
    simpl in Hint. lia.
  - rewrite Hint. simpl. lia.
Qed.

Lemma isdigit_not_space (c : Ascii.ascii) :
  isdigit_ascii c = true -> Py.isspace c = false /\ Ascii.eqb c "," = false.
Proof.
  destruct c as [[] [] [] [] [] [] [] []]; try discriminate; intros _;
    split; reflexivity.
Qed.

Lemma all_digits_replace (s : string) :
  all_digits s = true -> replace_char "," "" s = s.
Proof.
  induction s as [|c s IH]; [reflexivity|]. cbn [all_digits replace_char].
  intros H. apply andb_true_iff in H as [Hc Hs].
  destruct (isdigit_not_space c Hc) as [_ ->]. rewrite IH by exact Hs.
  reflexivity.
Qed.

Lemma all_digits_rstrip (s : string) :
  all_digits s = true -> Py.rstrip s = s.
Proof.
  induction s as [|c s IH]; [reflexivity|]. cbn [all_digits Py.rstrip].
  intros H. apply andb_true_iff in H as [Hc Hs].
  destruct (isdigit_not_space c Hc) as [-> _]. rewrite IH by exact Hs.
  destruct s; reflexivity.
Qed.

Lemma all_digits_strip (s : string) : all_digits s = true -> Py.strip s = s.
Proof.
  intros Hs. unfold Py.strip.
  assert (Hl : Py.lstrip s = s).
  { destruct s as [|c s]; [reflexivity|]. cbn [all_digits] in Hs.
    apply andb_true_iff in Hs as [Hc _]. cbn [Py.lstrip].
    destruct (isdigit_not_space c Hc) as [-> _]. reflexivity. }
  rewrite Hl. apply all_digits_rstrip, Hs.
Qed.

Lemma pretty_N_go_length_le (k : nat) :
  forall (x : N) (s : string),
    (x < 10 ^ N.of_nat k)%N ->
    (String.length (pretty_N_go x s) <= String.length s + k)%nat.
Proof.
  induction k as [|k IH]; intros x s Hx.
  - assert (x = 0%N) as -> by (cbn in Hx; lia).
    rewrite pretty_N_go_0. lia.
  - destruct (N.eq_dec x 0%N) as [-> | Hpos].
    + rewrite pretty_N_go_0. lia.
    + rewrite pretty_N_go_step by lia.
      rewrite Nat2N.inj_succ, N.pow_succ_r' in Hx.
      assert (Hdiv : (x `div` 10 < 10 ^ N.of_nat k)%N)
        by (apply N.Div0.div_lt_upper_bound; lia).
      pose proof (IH _ (String (pretty_N_char (x `mod` 10)) s) Hdiv) as Hle.
      cbn [String.length] in Hle. lia.
Qed.

Lemma pretty_N_go_length_ge (x : N) :
  forall s, (String.length s <= String.length (pretty_N_go x s))%nat.
Proof.
  induction (N.lt_wf_0 x) as [x _ IH]. intros s.
  destruct (N.eq_dec x 0%N) as [-> | Hpos].
  - rewrite pretty_N_go_0. lia.
  - rewrite pretty_N_go_step by lia.
    pose proof (IH (x `div` 10)%N ltac:(apply N.div_lt; lia)
                  (String (pretty_N_char (x `mod` 10)) s)) as Hle.
    cbn [String.length] in Hle. lia.
Qed.

Lemma pretty_N_go_length_gt (k : nat) :
  forall (x : N) (s : string),
    (10 ^ N.of_nat k <= x)%N ->
    (String.length s + k < String.length (pretty_N_go x s))%nat.
Proof.
  induction k as [|k IH]; intros x s Hx.
  - assert (Hpos : (0 < x)%N) by (cbn in Hx; lia).
    rewrite pretty_N_go_step by exact Hpos.
    pose proof (pretty_N_go_length_ge (x `div` 10)%N
                  (String (pretty_N_char (x `mod` 10)) s)) as Hle.
    cbn [String.length] in Hle. lia.
  - rewrite Nat2N.inj_succ, N.pow_succ_r' in Hx.
    assert (Hpow : (0 < 10 ^ N.of_nat k)%N)
      by (apply N.neq_0_lt_0, N.pow_nonzero; lia).
    rewrite pretty_N_go_step by lia.
    assert (Hdiv : (10 ^ N.of_nat k <= x `div` 10)%N)
      by (apply N.div_le_lower_bound; lia).
    pose proof (IH _ (String (pretty_N_char (x `mod` 10)) s) Hdiv) as Hlt.
    cbn [String.length] in Hlt. lia.
Qed.

(** The decimal text of a number below [10 ^ k] has at most [k] digits, and
    from [10 ^ k] on it has more. *)
Lemma pretty_Z_length (n : Z) (k : nat) :
  (0 <= n)%Z -> (0 < k)%nat ->
  ((n < 10 ^ Z.of_nat k)%Z -> (String.length (pretty n) <= k)%nat) /\
  ((10 ^ Z.of_nat k <= n)%Z -> (k < String.length (pretty n))%nat).
Proof.
  intros Hn Hk.
  assert (Hpow : Z.of_N (10 ^ N.of_nat k) = (10 ^ Z.of_nat k)%Z).
  { rewrite N2Z.inj_pow, nat_N_Z. reflexivity. }
  destruct n as [|p|p]; [| |lia].
  - split.
    + intros _. change (pretty 0%Z) with "0". cbn [String.length]. lia.
    + intros Hle. assert (0 < 10 ^ Z.of_nat k)%Z by (apply Z.pow_pos_nonneg; lia).
      lia.
  - change (pretty (Z.pos p)) with (pretty_N_go (N.pos p) "").
    split; intros Hp.
    + apply (pretty_N_go_length_le k (N.pos p) ""). lia.
    + apply (pretty_N_go_length_gt k (N.pos p) ""). lia.
Qed.

Lemma int_max_str_digits_pos : (0 < int_max_str_digits)%nat.
Proof. apply Nat.lt_0_succ. Qed.

(** X23. [_parse_int] reads back what [str] writes as long as [int] takes
    the text: for a number from zero to below 10 to the power 4300, parsing
    its decimal text gives the number; from there on the text has more
    than 4300 digits, [int] refuses it and the answer is [None]. *)
Theorem parse_int_of_str (n : Z) :
  (0 <= n)%Z ->
  ((n < 10 ^ Z.of_nat int_max_str_digits)%Z ->
   _parse_int (JStr (pretty n)) = Some n) /\
  ((10 ^ Z.of_nat int_max_str_digits <= n)%Z ->
   _parse_int (JStr (pretty n)) = None).
Proof.
  intros Hn. destruct (pretty_Z_digits n Hn) as [Hdigit Hint].
  assert (Hall : all_digits (pretty n) = true).
  { unfold isdigit in Hdigit. apply andb_true_iff in Hdigit. tauto. }
  destruct (pretty_Z_length n int_max_str_digits Hn int_max_str_digits_pos)
    as [Hshort Hlong].
  unfold _parse_int. rewrite all_digits_replace by exact Hall.
  rewrite all_digits_strip by exact Hall. rewrite Hdigit. unfold int_of_str.
  split; intros Hsize.
  - apply Hshort in Hsize. apply Nat.nlt_ge, Nat.ltb_nlt in Hsize.
    rewrite Hsize, Hint. reflexivity.
  - apply Hlong, Nat.ltb_lt in Hsize. rewrite Hsize. reflexivity.
Qed.

Lemma int_of_digits_nonneg (s : string) (acc : Z) :
  all_digits s = true -> (0 <= acc)%Z -> (0 <= int_of_digits acc s)%Z.
Proof.
  revert acc. induction s as [|c s IH]; intros acc Hs Hacc; [exact Hacc|].
  cbn [all_digits int_of_digits] in *. apply andb_true_iff in Hs as [Hc Hs].
  apply IH; [exact Hs|]. unfold isdigit_ascii in Hc.
  apply andb_true_iff in Hc as [Hlo _]. apply Nat.leb_le in Hlo. lia.
Qed.

Lemma chars_lstrip (c : Ascii.ascii) (s : string) :
  In c (String.list_ascii_of_string s) ->
  Py.isspace c = true \/ In c (String.list_ascii_of_string (Py.lstrip s)).
Proof.
  induction s as [|d s IH]; [intros []|]. cbn [String.list_ascii_of_string Py.lstrip].
  destruct (Py.isspace d) eqn:Hd.
  - intros [<- | Hin]; [left; exact Hd | apply IH, Hin].
  - intros Hin. right. exact Hin.
Qed.

Lemma chars_rstrip (c : Ascii.ascii) (s : string) :
  In c (String.list_ascii_of_string s) ->
  Py.isspace c = true \/ In c (String.list_ascii_of_string (Py.rstrip s)).
Proof.
  induction s as [|d s IH]; [intros []|]. cbn [String.list_ascii_of_string Py.rstrip].
  intros [<- | Hin].
  - destruct (Py.rstrip s); [|right; left; reflexivity].
    destruct (Py.isspace d) eqn:Hd; [left; reflexivity | right; left; reflexivity].
  - destruct (IH Hin) as [Hsp | Hr]; [left; exact Hsp|].
    destruct (Py.rstrip s) as [|e r]; [destruct Hr|]. right. right. exact Hr.
Qed.

Lemma chars_replace (c : Ascii.ascii) (s : string) :
  In c (String.list_ascii_of_string s) ->
  c = ","%char \/ In c (String.list_ascii_of_string (replace_char "," "" s)).
Proof.
  induction s as [|d s IH]; [intros []|]. cbn [String.list_ascii_of_string replace_char].
  destruct (Ascii.eqb_spec d ",") as [-> | Hd].
  - intros [<- | Hin]; [left; reflexivity | apply IH, Hin].
  - intros [<- | Hin]; [right; left; reflexivity|].
    destruct (IH Hin) as [Hc | Hr]; [left; exact Hc | right; right; exact Hr].
Qed.

Lemma all_digits_chars (c : Ascii.ascii) (s : string) :
  all_digits s = true -> In c (String.list_ascii_of_string s) -> isdigit_ascii c = true.
Proof.
  induction s as [|d s IH]; [intros _ []|]. cbn [all_digits String.list_ascii_of_string].
  intros H. apply andb_true_iff in H as [Hd Hs].
  intros [<- | Hin]; [exact Hd | apply IH; assumption].
Qed.

(** X24. From a string [_parse_int] gives a number only when the string
    consists of digits, commas and white space, and the number is never
    negative; a sign, a decimal point or a letter makes the answer
    [None]. *)
Theorem parse_int_of_text (s : string) (n : Z) :
  _parse_int (JStr s) = Some n ->
  (0 <= n)%Z /\
  forall c, In c (String.list_ascii_of_string s) ->
    isdigit_ascii c = true \/ c = ","%char \/ Py.isspace c = true.
Proof.
  unfold _parse_int.
  destruct (isdigit (Py.strip (replace_char "," "" s))) eqn:Hdigit;
    [|discriminate].
  unfold int_of_str.
  destruct (int_max_str_digits <? _)%nat; [discriminate|].
  intros [= <-]. unfold isdigit in Hdigit.
  apply andb_true_iff in Hdigit as [_ Hall]. split.
  - apply int_of_digits_nonneg; [exact Hall | lia].
  - intros c Hc.
    destruct (chars_replace c s Hc) as [-> | Hr]; [right; left; reflexivity|].
    destruct (chars_lstrip c _ Hr) as [Hsp | Hl]; [right; right; exact Hsp|].
    destruct (chars_rstrip c _ Hl) as [Hsp | Hs]; [right; right; exact Hsp|].
    left. exact (all_digits_chars c _ Hall Hs).
Qed.

(** X25. [_parse_int] keeps an integer, reads a boolean as 1 or 0, and
    rounds a finite float towards zero: the result lies between zero and
    the float and less than one away from it; for the infinite floats and
    for NaN the answer is [None]. *)
Theorem parse_int_of_number (q : Q) :
  (forall n, _parse_int (JInt n) = Some n) /\
  _parse_int (JBool true) = Some 1%Z /\ _parse_int (JBool false) = Some 0%Z /\
  _parse_int (JFloat Infinite) = None /\
  _parse_int (JFloat NotANumber) = None /\
  exists n, _parse_int (JFloat (Finite q)) = Some n /\
    ((0 <= q)%Q -> (inject_Z n <= q)%Q /\ (q < inject_Z n + 1)%Q /\ (0 <= n)%Z) /\
    ((q <= 0)%Q -> (q <= inject_Z n)%Q /\ (inject_Z n - 1 < q)%Q /\ (n <= 0)%Z).
Proof.
  split_and!; try reflexivity.
  destruct q as [a b]. exists (Z.quot a (Z.pos b)). split; [reflexivity|].
  pose proof (Z.quot_rem' a (Z.pos b)) as Hqr.
  unfold Qle, Qlt, Qminus. unfold Qplus, Qopp, inject_Z. cbn [Qnum Qden].
  rewrite ?Pos.mul_1_l, ?Pos.mul_1_r.
  split; intros Hsign.
  - assert (Ha : (0 <= a)%Z) by lia.
    pose proof (Z.rem_bound_pos a (Z.pos b) Ha ltac:(lia)) as Hrem.
    pose proof (Z.quot_pos a (Z.pos b) Ha ltac:(lia)) as Hq.
    split_and!; nia.
  - assert (Ha : (a <= 0)%Z) by lia.
    pose proof (Z.rem_bound_pos (- a) (Z.pos b) ltac:(lia) ltac:(lia)) as Hrem.
    rewrite Z.rem_opp_l in Hrem by lia.
    assert (Hq : (Z.quot a (Z.pos b) <= 0)%Z).
    { rewrite <- (Z.opp_involutive a), Z.quot_opp_l by lia.
      pose proof (Z.quot_pos (- a) (Z.pos b) ltac:(lia) ltac:(lia)). lia. }
    split_and!; nia.
Qed.

(** ** [_extract_hashtags] *)

Lemma append_assoc (a b c : string) : (a +:+ b) +:+ c = a +:+ (b +:+ c).
Proof.
  induction a as [|x a IH]; [reflexivity|].
  rewrite !append_cons, IH. reflexivity.
Qed.

Lemma append_nil_r (a : string) : a +:+ "" = a.
Proof. induction a as [|x a IH]; [reflexivity|]. rewrite append_cons, IH. reflexivity. Qed.

Lemma all_word_snoc (word : string) (c : Ascii.ascii) :
  all_word word = true -> isword_ascii c = true ->
  all_word (word +:+ String c "") = true.
Proof.
  intros Hw Hc. induction word as [|d word IH]; [simpl; rewrite Hc; reflexivity|].
  rewrite append_cons. cbn [all_word] in *.
  apply andb_true_iff in Hw as [Hd Hw]. rewrite Hd, IH by exact Hw. reflexivity.
Qed.

Lemma close_tag_sound (whole pre text : string) (open : option string)
    (found : list string) :
  whole = pre +:+ text ->
  (forall tag, tag ∈ found -> is_tag tag /\ occurs_in tag whole) ->
  (forall word, open = Some word ->
     all_word word = true /\ exists before, pre = before +:+ "#" +:+ word) ->
  forall tag, tag ∈ close_tag open found -> is_tag tag /\ occurs_in tag whole.
Proof.
  intros Hwhole Hfound Hopen tag. unfold close_tag.
  destruct open as [[|c word]|]; try apply Hfound.
  rewrite elem_of_app, list_elem_of_singleton.
  intros [Hin | ->]; [apply Hfound, Hin|].
  destruct (Hopen _ eq_refl) as (Hword & before & Hpre). split.
  - exists c, word. split; [reflexivity | exact Hword].
  - exists before, text. rewrite Hwhole, Hpre. rewrite !append_assoc. reflexivity.
Qed.

Lemma scan_tags_sound (whole : string) (text : string) :
  forall (open : option string) (found : list string) (pre : string),
    whole = pre +:+ text ->
    (forall tag, tag ∈ found -> is_tag tag /\ occurs_in tag whole) ->
    (forall word, open = Some word ->
       all_word word = true /\ exists before, pre = before +:+ "#" +:+ word) ->
    forall tag, tag ∈ scan_tags open found text ->
      is_tag tag /\ occurs_in tag whole.
Proof.
  induction text as [|c rest IH]; intros open found pre Hwhole Hfound Hopen.
  - cbn [scan_tags]. eapply close_tag_sound; eassumption.
  - assert (Hnext : whole = (pre +:+ String c "") +:+ rest).
    { rewrite Hwhole, append_assoc. reflexivity. }
    assert (Hfresh : forall word,
              (if Ascii.eqb c "#" then Some "" else None) = Some word ->
              all_word word = true /\
              exists before, pre +:+ String c "" = before +:+ "#" +:+ word).
    { intros word. destruct (Ascii.eqb_spec c "#") as [-> | _]; [|discriminate].
      intros [= <-]. split; [reflexivity|]. exists pre. reflexivity. }
    cbn [scan_tags]. destruct open as [word|].
    + destruct (isword_ascii c) eqn:Hc.
      * apply (IH _ _ (pre +:+ String c "")); [exact Hnext | exact Hfound |].
        intros word' [= <-]. destruct (Hopen _ eq_refl) as (Hword & before & Hpre).
        split; [apply all_word_snoc; assumption|].
        exists before. rewrite Hpre, !append_assoc. reflexivity.
      * apply (IH _ _ (pre +:+ String c "")); [exact Hnext | | exact Hfresh].
        eapply (close_tag_sound whole pre (String c rest)); eassumption.
    + apply (IH _ _ (pre +:+ String c "")); [exact Hnext | exact Hfound | exact Hfresh].
Qed.

Lemma findall_hashtags_sound (caption tag : string) :
  tag ∈ findall_hashtags caption -> is_tag tag /\ occurs_in tag caption.
Proof.
  unfold findall_hashtags. apply (scan_tags_sound caption caption None [] "").
  - reflexivity.
  - intros t Ht. apply elem_of_nil in Ht. destruct Ht.
  - discriminate.
Qed.

Lemma first_spellings_spec (tags : list string) :
  forall (seen : gset string) (out : list string),
    (forall t, t ∈ seen <-> t ∈ Py.lower <$> out) ->
    NoDup (Py.lower <$> out) ->
    NoDup (Py.lower <$> first_spellings seen out tags) /\
    (forall tag, tag ∈ first_spellings seen out tags -> tag ∈ out \/ tag ∈ tags) /\
    (forall tag, tag ∈ out \/ tag ∈ tags ->
       Py.lower tag ∈ Py.lower <$> first_spellings seen out tags).
Proof.
  induction tags as [|tag rest IH]; intros seen out Hseen Hnodup.
  - cbn [first_spellings]. split_and!; [exact Hnodup | auto |].
    intros t [Ht | Ht]; [|apply elem_of_nil in Ht; destruct Ht].
    apply list_elem_of_fmap. exists t. split; [reflexivity | exact Ht].
  - cbn [first_spellings]. destruct (decide (Py.lower tag ∈ seen)) as [Hin | Hnew].
    + destruct (IH seen out Hseen Hnodup) as (Hnd & Hsub & Hcov).
      split_and!; [exact Hnd | |].
      * intros t Ht. destruct (Hsub t Ht); [left | right; right]; assumption.
      * intros t [Ht | Ht]; [apply Hcov; left; exact Ht|].
        apply elem_of_cons in Ht as [-> | Ht]; [|apply Hcov; right; exact Ht].
        apply Hseen in Hin. apply list_elem_of_fmap in Hin as (t0 & Heq & Ht0).
        rewrite Heq. apply Hcov. left. exact Ht0.
    + destruct (IH ({[Py.lower tag]} ∪ seen) (out ++ [tag])%list)
        as (Hnd & Hsub & Hcov).
      * intros t. rewrite fmap_app, elem_of_app, elem_of_union, elem_of_singleton.
        rewrite Hseen. cbn [fmap list_fmap]. rewrite list_elem_of_singleton. tauto.
      * rewrite fmap_app. cbn [fmap list_fmap]. apply NoDup_app. split_and!.
        -- exact Hnodup.
        -- intros t Ht Ht'. apply list_elem_of_singleton in Ht' as ->.
           apply Hnew, Hseen, Ht.
        -- apply NoDup_singleton.
      * split_and!; [exact Hnd | |].
        -- intros t Ht. destruct (Hsub t Ht) as [Ho | Hr]; [|right; right; exact Hr].
           apply elem_of_app in Ho as [Ho | Ho]; [left; exact Ho|].
           apply list_elem_of_singleton in Ho as ->. right. left.
        -- intros t [Ht | Ht].
           ++ apply Hcov. left. apply elem_of_app. left. exact Ht.
           ++ apply elem_of_cons in Ht as [-> | Ht].
              ** apply Hcov. left. apply elem_of_app. right.
                 apply list_elem_of_singleton. reflexivity.
              ** apply Hcov. right. exact Ht.
Qed.

(** X26. The hashtags that [_extract_hashtags] returns differ pairwise
    even when letter case is ignored; each of them is one of the hashtags
    found in the caption, and every hashtag found is there in one
    spelling. *)
Theorem extract_hashtags_distinct (caption : string) :
  NoDup (Py.lower <$> _extract_hashtags (JStr caption)) /\
  (forall tag, tag ∈ _extract_hashtags (JStr caption) ->
     tag ∈ findall_hashtags caption) /\
  (forall tag, tag ∈ findall_hashtags caption ->
     Py.lower tag ∈ Py.lower <$> _extract_hashtags (JStr caption)).
Proof.
  unfold _extract_hashtags. destruct (String.eqb_spec caption "") as [-> | _].
  - split_and!; [constructor | auto |].
    intros tag Ht. apply elem_of_nil in Ht. destruct Ht.
  - destruct (first_spellings_spec (findall_hashtags caption) ∅ [])
      as (Hnd & Hsub & Hcov).
    + intros t. cbn [fmap list_fmap]. rewrite elem_of_empty, elem_of_nil. reflexivity.
    + constructor.
    + split_and!; [exact Hnd | |].
      * intros tag Ht. destruct (Hsub tag Ht) as [Ho | Hr]; [|exact Hr].
        apply elem_of_nil in Ho. destruct Ho.
      * intros tag Ht. apply Hcov. right. exact Ht.
Qed.

(** X27. Every hashtag that [_extract_hashtags] returns is a [#] followed
    by at least one word character and stands in the caption as it is; for
    a caption that is no string or is empty, no hashtag is returned. *)
Theorem extract_hashtags_shape (caption : jval) (tag : string) :
  tag ∈ _extract_hashtags caption ->
  exists s, caption = JStr s /\ s <> "" /\ is_tag tag /\ occurs_in tag s.
Proof.
  destruct caption; cbn [_extract_hashtags];
    try (intros H; apply elem_of_nil in H; destruct H).
  destruct (String.eqb_spec s "") as [-> | Hne];
    [intros H; apply elem_of_nil in H; destruct H|].
  intros Hin. exists s. split; [reflexivity|]. split; [exact Hne|].
  apply findall_hashtags_sound.
  destruct (first_spellings_spec (findall_hashtags s) ∅ []) as (_ & Hsub & _).
  - intros t. cbn [fmap list_fmap]. rewrite elem_of_empty, elem_of_nil. reflexivity.
  - constructor.
  - destruct (Hsub tag Hin) as [Ho | Hr]; [|exact Hr].
    apply elem_of_nil in Ho. destruct Ho.
Qed.

(** ** The spacing of the recorded requests *)

Lemma init_world_spaced (t0 : Q) (platform : string) :
  spaced platform (init_world t0).
Proof.
  assert (Hall : map_Forall (fun _ tss => tss = @nil Q) init_timestamps).
  { unfold init_timestamps.
    repeat (apply map_Forall_insert_2; [reflexivity|]).
    apply map_Forall_empty. }
  intros tss Hts. simpl in Hts. rewrite (Hall _ _ Hts). split; constructor.
Qed.

(** X28. An admission keeps the recorded requests to its platform at least
    the shortest pause, 0.8 times the base delay, apart, and returns no
    earlier than that pause after the request it records. *)
Theorem rate_limit_delay_keeps_spacing (E : Env) (platform : string)
    (w : World) :
  oracle_ok E ->
  spaced platform w ->
  spaced platform (snd (rate_limit_delay E platform w)).
Proof.
  intros HE Hsp.
  destruct (request_timestamps w !! platform) as [tss|] eqn:Hts.
  - destruct (rate_limit_delay_effects E platform w HE) as (w' & Hrun & _ & _ & Hadv).
    { rewrite Hts. eauto. }
    rewrite Hrun. destruct Hadv as (_ & _ & _ & _ & _ & _ & Hkeep).
    apply Hkeep, Hsp.
  - rewrite rate_limit_delay_missing by exact Hts. exact Hsp.
Qed.

(** X29. A batch keeps the recorded requests to every platform at least
    that platform's shortest pause apart. *)
Theorem process_links_keeps_spacing (E : Env) (links : list string) (w : World)
    (platform : string) :
  oracle_ok E ->
  spaced platform w ->
  spaced platform (snd (process_links E links w)).
Proof.
  intros HE Hsp. destruct links as [|url rest]; [exact Hsp|].
  destruct (process_links_effects E (url :: rest) w HE)
    as (produced & w' & Hrun & (_ & _ & _ & _ & Hkeep) & _); [discriminate|].
  rewrite Hrun. apply Hkeep, Hsp.
Qed.

Lemma spaced_span (gap hi : Q) (l : list Q) :
  forall x,
    StronglySorted (fun a b => a + gap <= b)%Q (x :: l) ->
    Forall (fun ts => ts + gap <= hi)%Q (x :: l) ->
    (x + inject_Z (Z.of_nat (length (x :: l))) * gap <= hi)%Q.
Proof.
  induction l as [|y l IH]; intros x Hs Hall.
  - inversion Hall as [|? ? Hx _]; subst. cbn [length].
    change (inject_Z (Z.of_nat 1)) with 1%Q. lra.
  - inversion Hs as [|? ? Hs' Hx]; subst. inversion Hall as [|? ? _ Hall']; subst.
    inversion Hx as [|? ? Hxy _]; subst.
    specialize (IH y Hs' Hall').
    cbn [length] in *. rewrite !Nat2Z.inj_succ in *. unfold Z.succ in *.
    rewrite !inject_Z_plus in *. change (inject_Z 1) with 1%Q in *.
    set (n := inject_Z (Z.of_nat (length l))) in *. clearbody n. nra.
Qed.

Lemma instagram_config : config_for "instagram" = mkConfig 30 2.5 15 3.
Proof. vm_compute. reflexivity. Qed.

(** X30. With the recorded requests spaced, the timestamps of the last 60
    seconds number less than 60 divided by the shortest pause. For Instagram
    that is less than 30, its ceiling: an admission for Instagram never
    waits for the window, it sleeps once. *)
Theorem recent_capacity (E : Env) (platform : string) (w : World) (tss : list Q) :
  oracle_ok E ->
  spaced platform w ->
  request_timestamps w !! platform = Some tss ->
  (inject_Z (Z.of_nat (length (recent (clock w) tss))) * min_delay platform
   < 60)%Q /\
  (platform = "instagram" ->
   (Z.of_nat (length (recent (clock w) tss)) <
    requests_per_minute (config_for platform))%Z /\
   sleeps (snd (rate_limit_delay E platform w)) = S (sleeps w)).
Proof.
  intros HE Hsp Hts.
  assert (Hcap : (inject_Z (Z.of_nat (length (recent (clock w) tss)))
                  * min_delay platform < 60)%Q).
  { destruct (Hsp _ Hts) as [Hs Hall].
    apply (recent_spaced _ (clock w)) in Hs.
    assert (Hall' : Forall (fun ts => ts + min_delay platform <= clock w)%Q
                           (recent (clock w) tss)).
    { rewrite List.Forall_forall in *. intros ts Hin.
      apply recent_In in Hin. apply Hall. tauto. }
    destruct (recent (clock w) tss) as [|x l] eqn:Hkept.
    - cbn [length]. change (inject_Z (Z.of_nat 0)) with 0%Q.
      set (g := min_delay platform). lra.
    - assert (Hx : In x (recent (clock w) tss)) by (rewrite Hkept; left; reflexivity).
      apply recent_In in Hx as [_ Hyoung].
      pose proof (spaced_span _ _ _ _ Hs Hall') as Hspan.
      set (n := inject_Z (Z.of_nat (length (x :: l)))) in *.
      set (g := min_delay platform) in *. clearbody n g. lra. }
  split; [exact Hcap|]. intros ->.
  assert (Hlt : (Z.of_nat (length (recent (clock w) tss)) <
                 requests_per_minute (config_for "instagram"))%Z).
  { unfold min_delay in Hcap. rewrite instagram_config in *.
    cbn [requests_per_minute delay_between_requests] in *.
    rewrite Zlt_Qlt. change (inject_Z 30) with 30%Q.
    set (n := inject_Z (Z.of_nat (length (recent (clock w) tss)))) in *.
    clearbody n. lra. }
  split; [exact Hlt|].
  destruct (rate_limit_delay_run E "instagram" w tss HE Hts)
    as (c & n & Hrun & _ & _ & _ & Hfree).
  rewrite Hrun. cbn [snd sleeps]. apply Hfree, Hlt.
Qed.

(** X7. When every fetch raises a quota error, the executor gives up after
    [max_retries + 1] fetches and answers with the record of exactly the
    three fields url, error and platform, with the error text Rate limit
    exceeded after N retries. *)
Theorem safe_api_call_gives_up (E : Env) (platform : string)
    (api_function : Fetch) (url : string) (arg : option Z) (w : World) :
  oracle_ok E ->
  is_Some (request_timestamps w !! platform) ->
  let N := default (max_retries (config_for platform)) arg in
  (0 <= N)%Z ->
  (forall k, exists msg, api_function k url = Raise msg /\ quota_text msg = true) ->
  exists w',
    safe_api_call E platform api_function url arg w =
      (Ok ({[ "url" := VStr url;
              "error" :=
                VStr ("Rate limit exceeded after " +:+ pretty N +:+ " retries");
              "platform" := VStr platform ]} : Dict), w') /\
    calls w' = (calls w + Z.to_nat N + 1)%nat.
Proof.
  intros HE Hready N HN Hraise.
  destruct (safe_api_call_exhausted E platform api_function url arg w HE Hready HN)
    as (w' & Hcall & Hcalls).
  { intros k. destruct (Hraise k) as (msg & -> & Hq). exact Hq. }
  exists w'. split; [|exact Hcalls]. rewrite Hcall.
  destruct (Hraise (calls w + Z.to_nat N)%nat) as (msg & Hmsg & _).
  fold N. rewrite Hmsg. reflexivity.
Qed.

(** ** The further theorems at sample inputs *)

Lemma paced_world_spaced : spaced "instagram" paced_world.
Proof.
  intros tss Hts. unfold paced_world in Hts. world_fields.
  apply lookup_singleton_Some in Hts as [_ <-].
  unfold min_delay. rewrite instagram_config.
  split; repeat constructor; vm_compute; discriminate.
Qed.

Lemma paced_world_wf : timestamps_wf paced_world.
Proof.
  intros p tss Hp. unfold paced_world in Hp. world_fields.
  apply lookup_singleton_Some in Hp as [_ <-].
  split; repeat constructor; vm_compute; discriminate.
Qed.

Lemma safe_api_call_fetch_budget_witness :
  exists result w',
    safe_api_call throttled_env "tiktok" (fetch_tiktok_metrics throttled_env)
      tiktok_url None (init_world 0) = (Ok result, w') /\
    (calls w' <= 3)%nat.
Proof.
  destruct (safe_api_call_fetch_budget throttled_env "tiktok"
              (fetch_tiktok_metrics throttled_env) tiktok_url None (init_world 0)
              (sample_env_ok _ _)) as (result & w' & Hcall & Hle & _).
  exists result, w'. split; [exact Hcall | exact Hle].
Defined.

Lemma safe_api_call_record_origin_witness :
  exists result w',
    safe_api_call throttled_env "tiktok" (fetch_tiktok_metrics throttled_env)
      tiktok_url None (init_world 0) = (Ok result, w') /\
    ((exists k, (0 <= k < calls w')%nat /\
                fetch_tiktok_metrics throttled_env k tiktok_url = Return result) \/
     (result !! "url" = Some (VStr tiktok_url) /\
      result !! "platform" = Some (VStr "tiktok") /\
      exists msg, result !! "error" = Some (VStr msg))).
Proof.
  exact (safe_api_call_record_origin throttled_env "tiktok"
           (fetch_tiktok_metrics throttled_env) tiktok_url None (init_world 0)
           (sample_env_ok _ _)).
Defined.

Lemma safe_api_call_other_platforms_witness :
  request_timestamps
    (snd (safe_api_call throttled_env "tiktok"
            (fetch_tiktok_metrics throttled_env) tiktok_url None (init_world 0)))
    !! "instagram" = request_timestamps (init_world 0) !! "instagram".
Proof.
  apply safe_api_call_other_platforms; [apply sample_env_ok | discriminate].
Defined.

Lemma safe_api_call_keeps_order_witness :
  timestamps_wf
    (snd (safe_api_call throttled_env "instagram"
            (fetch_instagram_metrics throttled_env) "https://www.instagram.com/p/C1/"
            None paced_world)) /\
  (clock paced_world <=
   clock (snd (safe_api_call throttled_env "instagram"
                 (fetch_instagram_metrics throttled_env)
                 "https://www.instagram.com/p/C1/" None paced_world)))%Q.
Proof.
  apply safe_api_call_keeps_order; [apply sample_env_ok | apply paced_world_wf].
Defined.

Lemma safe_api_call_negative_ceiling_witness :
  safe_api_call throttled_env "tiktok" (fetch_tiktok_metrics throttled_env)
    tiktok_url (Some (-1)%Z) (init_world 0) =
    (Ok ({[ "url" := VStr tiktok_url; "error" := VStr "Max retries (-1) exceeded";
            "platform" := VStr "tiktok" ]} : Dict), init_world 0).
Proof. apply safe_api_call_negative_ceiling. lia. Defined.

Lemma safe_api_call_missing_platform_witness :
  safe_api_call throttled_env "unknown" (fetch_tiktok_metrics throttled_env)
    tiktok_url None (init_world 0) =
    (Ok ({[ "url" := VStr tiktok_url; "error" := VStr "'unknown'";
            "platform" := VStr "unknown" ]} : Dict), init_world 0).
Proof.
  apply safe_api_call_missing_platform.
  - apply sample_env_ok.
  - reflexivity.
  - reflexivity.
  - vm_compute. discriminate.
Defined.

Lemma safe_api_call_gives_up_witness :
  exists w',
    safe_api_call throttled_env "x" (always too_many) tiktok_url (Some 1%Z)
      (init_world 0) =
      (Ok ({[ "url" := VStr tiktok_url;
              "error" := VStr "Rate limit exceeded after 1 retries";
              "platform" := VStr "x" ]} : Dict), w') /\
    calls w' = (0 + Z.to_nat 1 + 1)%nat.
Proof.
  apply (safe_api_call_gives_up throttled_env "x" (always too_many) tiktok_url
           (Some 1%Z) (init_world 0)).
  - apply sample_env_ok.
  - apply init_world_ready. in_list.
  - simpl. lia.
  - intros k. eexists. split; reflexivity.
Defined.

Lemma safe_api_call_backoff_time_witness :
  (clock (init_world 0) + (inject_Z 2 + 1) * min_delay "tiktok"
   + (inject_Z (2 ^ 2) - 1)
   <= clock (snd (safe_api_call throttled_env "tiktok" (always too_many)
                    tiktok_url (Some 2%Z) (init_world 0))))%Q.
Proof.
  apply (safe_api_call_backoff_time throttled_env "tiktok" (always too_many)
           tiktok_url (Some 2%Z) (init_world 0)).
  - apply sample_env_ok.
  - apply init_world_ready. in_list.
  - simpl. lia.
  - intros i _. reflexivity.
Defined.

Lemma safe_api_call_numeric_error_witness :
  exists w',
    safe_api_call throttled_env "tiktok" (always (Return numeric_error_record))
      tiktok_url (Some 2%Z) (init_world 0) =
      (Ok ({[ "url" := VStr tiktok_url;
              "error" := VStr "'int' object has no attribute 'lower'";
              "platform" := VStr "tiktok" ]} : Dict), w') /\
    calls w' = 1%nat.
Proof.
  apply (safe_api_call_numeric_error throttled_env "tiktok"
           (always (Return numeric_error_record)) tiktok_url (Some 2%Z)
           (init_world 0) numeric_error_record 429).
  - apply sample_env_ok.
  - apply init_world_ready. in_list.
  - simpl. lia.
  - reflexivity.
  - reflexivity.
  - discriminate.
Defined.

Lemma rate_limit_delay_duration_witness :
  (clock busy_world + 1 + 0.8 * delay_between_requests (config_for "instagram")
   < clock (snd (rate_limit_delay throttled_env "instagram" busy_world)))%Q.
Proof.
  destruct (rate_limit_delay_duration throttled_env "instagram" busy_world
              (repeat 0%Q 30) (sample_env_ok _ _) busy_world_wf eq_refl)
    as (_ & _ & Hfull).
  apply Hfull. vm_compute. discriminate.
Defined.

Lemma process_links_one_record_each_witness :
  exists results summary w',
    process_links unconfigured_env
      ["https://x.com/u/status/123"; "https://unknown.example/1"] (init_world 0) =
      (Ok (Batch results summary), w') /\
    length results = 2%nat /\
    total_processed summary = 2%Z /\
    rate_limiting_applied summary = true.
Proof.
  apply (process_links_one_record_each unconfigured_env
           ["https://x.com/u/status/123"; "https://unknown.example/1"]
           (init_world 0)).
  - apply sample_env_ok.
  - discriminate.
Defined.

Lemma process_links_fetch_budget_witness :
  (calls (snd (process_links throttled_env
                 [tiktok_url; "https://unknown.example/1"] (init_world 0)))
   <= calls (init_world 0)
      + 4 * length (known_links [tiktok_url; "https://unknown.example/1"]))%nat.
Proof. apply process_links_fetch_budget, sample_env_ok. Defined.

Lemma process_links_keeps_order_witness :
  timestamps_wf
    (snd (process_links throttled_env ["https://www.instagram.com/p/C1/"]
            paced_world)).
Proof.
  apply (process_links_keeps_order throttled_env
           ["https://www.instagram.com/p/C1/"] paced_world);
    [apply sample_env_ok | apply paced_world_wf].
Defined.

Lemma batch_records_columns_witness :
  exists record,
    batch_results (process_links unconfigured_env ["https://x.com/u/status/123"]
                     (init_world 0)) !! 0%nat = Some record /\
    record !! "error" = Some (VStr "X/Twitter not configured") /\
    record !! "url" = Some VNone /\
    record !! "platform" = Some VNone /\
    record !! "hashtags" = None.
Proof.
  destruct (batch_records_columns unconfigured_env ["https://x.com/u/status/123"]
              (init_world 0) (sample_env_ok _ _) ltac:(discriminate))
    as (rows & w' & Heach & _ & Hrows).
  assert (Hrow : rows !! 0%nat =
                 Some ({[ "error" := VStr "X/Twitter not configured" ]} : Dict)).
  { injection Heach as <- _. reflexivity. }
  destruct (Hrows 0%nat _ Hrow) as (record & Hrecord & _ & Hkept & Hnull & Hgone).
  exists record. split_and!.
  - exact Hrecord.
  - apply Hkept; [in_list | reflexivity].
  - apply Hnull; [in_list | reflexivity].
  - apply Hnull; [in_list | reflexivity].
  - apply Hgone. unfold standard_columns. intros Hin.
    apply list_elem_of_In in Hin. simpl in Hin.
    repeat (destruct Hin as [Hin | Hin]; [discriminate|]). exact Hin.
Defined.

Lemma platform_stats_entries_witness :
  batch_stats (process_links unconfigured_env
                 ["https://example.org/a"; tiktok_url; "https://example.org/b"]
                 (init_world 0)) !! VStr "unknown" = Some (mkStats 2 0 2) /\
  (1 <= total (mkStats 2 0 2) <=
   Z.of_nat (length (batch_results (process_links unconfigured_env
      ["https://example.org/a"; tiktok_url; "https://example.org/b"]
      (init_world 0)))))%Z.
Proof.
  split; [vm_compute; reflexivity|].
  apply (platform_stats_entries unconfigured_env
           ["https://example.org/a"; tiktok_url; "https://example.org/b"]
           (init_world 0) (VStr "unknown") (mkStats 2 0 2)).
  vm_compute. reflexivity.
Defined.

Lemma delivering_env_well_behaved : well_behaved delivering_env.
Proof.
  assert (Hb : names_url (fun _ url => Return (sample_record url "sample"))).
  { intros k url result [= <-]. split; [reflexivity|].
    exists (VStr "sample"). split; [reflexivity | discriminate]. }
  unfold well_behaved, delivering_env, sample_env. cbn [DRIVERS x_backend
    youtube_backend tiktok_backend stockbit_backend instagram_backend
    linkedin_backend].
  split_and!; try exact Hb; set_solver.
Qed.

Lemma process_links_keeps_urls_witness :
  exists record,
    batch_results (process_links delivering_env
                     ["https://x.com/u/status/123"; "https://unknown.example/1"]
                     (init_world 0)) !! 0%nat = Some record /\
    record !! "url" = Some (VStr "https://x.com/u/status/123") /\
    exists v, record !! "platform" = Some v /\ v <> VNone.
Proof.
  apply (process_links_keeps_urls delivering_env
           ["https://x.com/u/status/123"; "https://unknown.example/1"]
           (init_world 0) 0 "https://x.com/u/status/123").
  - apply sample_env_ok.
  - apply delivering_env_well_behaved.
  - reflexivity.
Defined.

Lemma extract_engagement_rejects_witness :
  (exists msg status,
     extract_engagement unconfigured_env (Decoded (JArr [JStr tiktok_url]))
       (init_world 0) = (BatchErrorJson msg status, init_world 0) /\
     status = 500%Z /\
     msg = "Internal server error: 'list' object has no attribute 'get'") /\
  (exists msg,
     extract_engagement unconfigured_env (Decoded (JObj blank_request))
       (init_world 0) = (BatchErrorJson msg 400, init_world 0)).
Proof.
  split.
  - destruct (extract_engagement_rejects unconfigured_env
                (Decoded (JArr [JStr tiktok_url])) (init_world 0))
      as (msg & status & Hreply & _ & Hstatus & _ & Hlist).
    + intros fields items [=].
    + exists msg, status. split_and!.
      * exact Hreply.
      * apply Hstatus. right. eexists. split_and!; [reflexivity..|discriminate].
      * apply (Hlist [JStr tiktok_url] eq_refl). discriminate.
  - destruct (extract_engagement_rejects unconfigured_env
                (Decoded (JObj blank_request)) (init_world 0))
      as (msg & status & Hreply & [-> | ->] & Hstatus & _).
    + intros fields items [= <-] Hitems. unfold blank_request in Hitems.
      apply lookup_singleton_Some in Hitems as [_ [= <-]]. reflexivity.
    + exists msg. exact Hreply.
    + destruct (proj1 Hstatus eq_refl) as [(e & [=]) | (data & [= <-] & _ & Hobj)].
      contradiction (Hobj blank_request). reflexivity.
Defined.

Lemma extract_engagement_accepts_witness :
  (exists w',
     extract_engagement unconfigured_env (Decoded (JObj batch_request))
       (init_world 0) =
       (BatchErrorJson
          "Internal server error: Object of type int64 is not JSON serializable"
          500, w')) /\
  (exists results summary w',
     extract_engagement unconfigured_env (Decoded (JObj unconfigured_request))
       (init_world 0) = (BatchJson (Batch results summary), w') /\
     length results = 2%nat).
Proof.
  split.
  - destruct (extract_engagement_accepts unconfigured_env batch_request
                [JStr "  https://example.org/a "; JInt 7; JStr "   ";
                 JStr "https://example.org/b"] (init_world 0)
                (sample_env_ok _ _) eq_refl ltac:(vm_compute; discriminate))
      as (results & summary & w' & Hrun & _ & _ & _ & Hfails).
    exists w'.
    assert (Hresults : results = [unsupported_record "https://example.org/a";
                                  unsupported_record "https://example.org/b"]).
    { injection Hrun as <- _ _. vm_compute. reflexivity. }
    apply (Hfails (unsupported_record "https://example.org/a") "unknown").
    + rewrite Hresults. left.
    + reflexivity.
    + intros other Hother. rewrite Hresults in Hother. right. exists "unknown".
      apply list_elem_of_In in Hother. simpl in Hother.
      destruct Hother as [<- | [<- | []]]; reflexivity.
  - destruct (extract_engagement_accepts unconfigured_env unconfigured_request
                [JStr "https://x.com/u/status/123";
                 JStr "https://www.instagram.com/p/C1/"] (init_world 0)
                (sample_env_ok _ _) eq_refl ltac:(vm_compute; discriminate))
      as (results & summary & w' & Hrun & Hlen & _ & Hgood & _).
    exists results, summary, w'. split; [|exact Hlen].
    apply Hgood. vm_compute in Hrun. injection Hrun as _ <- _. reflexivity.
Defined.


Lemma parse_int_of_str_witness :
  _parse_int (JStr (pretty 1234567%Z)) = Some 1234567%Z.
Proof.
  apply (proj1 (parse_int_of_str 1234567%Z ltac:(lia))).
  vm_compute. reflexivity.
Defined.

Lemma parse_int_of_text_witness :
  _parse_int (JStr " 1,234 ") = Some 1234%Z /\
  (0 <= 1234)%Z /\
  forall c, In c (String.list_ascii_of_string " 1,234 ") ->
    isdigit_ascii c = true \/ c = ","%char \/ Py.isspace c = true.
Proof.
  split; [vm_compute; reflexivity|].
  apply (parse_int_of_text " 1,234 " 1234). vm_compute. reflexivity.
Defined.

Lemma extract_hashtags_shape_witness :
  exists s, JStr "Hi #Foo and #foo" = JStr s /\ s <> "" /\
            is_tag "#Foo" /\ occurs_in "#Foo" s.
Proof.
  apply extract_hashtags_shape. apply (list_elem_of_lookup_2 _ 0%nat).
  vm_compute. reflexivity.
Defined.

Lemma rate_limit_delay_keeps_spacing_witness :
  spaced "instagram" (snd (rate_limit_delay throttled_env "instagram" paced_world)).
Proof.
  apply rate_limit_delay_keeps_spacing;
    [apply sample_env_ok | apply paced_world_spaced].
Defined.

Lemma process_links_keeps_spacing_witness :
  spaced "instagram"
    (snd (process_links throttled_env ["https://www.instagram.com/p/C1/"]
            paced_world)).
Proof.
  apply process_links_keeps_spacing;
    [apply sample_env_ok | apply paced_world_spaced].
Defined.

Lemma recent_capacity_witness :
  sleeps (snd (rate_limit_delay throttled_env "instagram" paced_world)) = 1%nat.
Proof.
  apply (recent_capacity throttled_env "instagram" paced_world [0; 3; 6]%Q
           (sample_env_ok _ _) paced_world_spaced eq_refl).
  reflexivity.
Defined.

Lemma batch_urls_accepted_witness :
  "https://x.com/a" <> "" /\ Py.strip "https://x.com/a" = "https://x.com/a".
Proof.
  apply (proj1 (batch_urls_accepted "  https://x.com/a ")).
  apply (list_elem_of_lookup_2 _ 0%nat). vm_compute. reflexivity.
Defined.

Lemma parse_int_of_number_witness :
  exists n, _parse_int (JFloat (Finite 3.5)) = Some n /\
            (inject_Z n <= 3.5)%Q /\ (3.5 < inject_Z n + 1)%Q /\ (0 <= n)%Z.
Proof.
  destruct (parse_int_of_number 3.5) as (_ & _ & _ & _ & _ & n & Hn & Hpos & _).
  exists n. split; [exact Hn | apply Hpos; vm_compute; discriminate].
Defined.

Lemma extract_hashtags_distinct_witness :
  "#Foo" ∈ findall_hashtags "Hi #Foo and #foo".
Proof.
  apply (proj1 (proj2 (extract_hashtags_distinct "Hi #Foo and #foo"))).
  apply (list_elem_of_lookup_2 _ 0%nat). vm_compute. reflexivity.
Defined.
